(** * StudyChain: the per-user hash chain of study sessions

    A shallow embedding of the chain engine of [app.py] and of the batch
    verifier of [blockchain_utils.py]: the hasher [calculate_hash], the
    proof-of-work search [mine_block], the append path of the [dashboard]
    route, the fail-fast verifier [verify_chain] and the accumulating
    verifier [verify_user_chain], together with the [update_status] and
    [delete_session] routes.

    Conventions.
    - A Python [int] is a [Z].
    - A Python [str] is a Rocq [string] holding its UTF-8 encoding, so that
      [s.encode()] is the identity on the underlying bytes, concatenation is
      [++] and [startswith] is a prefix test on bytes.
    - [hashlib.sha256] is SHA-256 itself, written out, so that every digest
      below is the one the program computes.
    - The module-level settings [DIFFICULTY] and [MAX_NONCE] are a record
      the functions read; [app_config] holds the values of app.py.
    - The table [study_session] is a list of rows in insertion order. *)

From Stdlib Require Import ZArith List String Ascii Bool Lia Sorted.
From Stdlib Require Import Permutation.
From Stdlib Require Import DecimalString DecimalZ DecimalN DecimalPos.
Import ListNotations.
Open Scope string_scope.
Open Scope Z_scope.

(** ** SHA-256 (FIPS 180-4), as computed by [hashlib.sha256(..).hexdigest()] *)

Module SHA256.

Definition word := Z.

(** Reduction modulo 2^32, as a mask with the low 32 bits set. *)
Definition ones32 : Z := Eval vm_compute in 2 ^ 32 - 1.

Definition wrap32 (x : Z) : word := Z.land x ones32.

Definition add32 (x y : word) : word := wrap32 (x + y).

Definition rotr (n : Z) (x : word) : word :=
  Z.lor (Z.shiftr x n) (wrap32 (Z.shiftl x (32 - n))).

Definition shr (n : Z) (x : word) : word := Z.shiftr x n.

Definition Ch (x y z : word) : word :=
  Z.lxor (Z.land x y) (Z.ldiff z x).

Definition Maj (x y z : word) : word :=
  Z.lxor (Z.lxor (Z.land x y) (Z.land x z)) (Z.land y z).

Definition Sigma0 (x : word) : word :=
  Z.lxor (Z.lxor (rotr 2 x) (rotr 13 x)) (rotr 22 x).

Definition Sigma1 (x : word) : word :=
  Z.lxor (Z.lxor (rotr 6 x) (rotr 11 x)) (rotr 25 x).

Definition sigma0 (x : word) : word :=
  Z.lxor (Z.lxor (rotr 7 x) (rotr 18 x)) (shr 3 x).

Definition sigma1 (x : word) : word :=
  Z.lxor (Z.lxor (rotr 17 x) (rotr 19 x)) (shr 10 x).

(** The round constants are the first 32 bits of the fractional parts of the
    cube roots of the first 64 primes, and the initial hash value those of
    the square roots of the first 8 primes.  Both tables are computed here
    from that definition. *)

Fixpoint has_divisor (ps : list Z) (n : Z) : bool :=
  match ps with
  | [] => false
  | p :: ps' => if n mod p =? 0 then true else has_divisor ps' n
  end.

Fixpoint primes_from (fuel : nat) (count : nat) (n : Z) (acc : list Z) : list Z :=
  match fuel, count with
  | _, O => rev acc
  | O, _ => rev acc
  | S fuel', S count' =>
      if has_divisor acc n
      then primes_from fuel' count (n + 1) acc
      else primes_from fuel' count' (n + 1) (n :: acc)
  end.

Definition first_primes (count : nat) : list Z :=
  primes_from 400 count 2 [].

(** Integer cube root, one bit at a time from bit [bits - 1] down to 0. *)
Fixpoint icbrt_bits (bits : nat) (n r : Z) : Z :=
  match bits with
  | O => r
  | S b =>
      let c := r + 2 ^ Z.of_nat b in
      icbrt_bits b n (if c * c * c <=? n then c else r)
  end.

Definition frac_cbrt32 (p : Z) : word :=
  wrap32 (icbrt_bits 40 (p * 2 ^ 96) 0).

Definition frac_sqrt32 (p : Z) : word :=
  wrap32 (Z.sqrt (p * 2 ^ 64)).

Definition K : list word :=
  Eval vm_compute in map frac_cbrt32 (first_primes 64).

Definition H0 : list word :=
  Eval vm_compute in map frac_sqrt32 (first_primes 8).

(** The working variables a..h, also the shape of the chaining value. *)
Record state := mkState
  { sa : word; sb : word; sc : word; sd : word;
    se : word; sf : word; sg : word; sh : word }.

Definition initial_state : state :=
  match H0 with
  | [a; b; c; d; e; f; g; h] => mkState a b c d e f g h
  | _ => mkState 0 0 0 0 0 0 0 0
  end.

Definition round (s : state) (k w : word) : state :=
  let t1 := add32 (add32 (add32 (add32 (sh s) (Sigma1 (se s)))
                                (Ch (se s) (sf s) (sg s))) k) w in
  let t2 := add32 (Sigma0 (sa s)) (Maj (sa s) (sb s) (sc s)) in
  mkState (add32 t1 t2) (sa s) (sb s) (sc s)
          (add32 (sd s) t1) (se s) (sf s) (sg s).

(** The message schedule is kept as a window of the 16 most recent words,
    oldest first: the head is W[t], and W[t+16] is appended as the window
    slides. *)
Definition next_word (win : list word) : word :=
  add32 (add32 (add32 (sigma1 (nth 14 win 0)) (nth 9 win 0))
               (sigma0 (nth 1 win 0))) (nth 0 win 0).

Definition slide (win : list word) : list word :=
  (tl win ++ [next_word win])%list.

Fixpoint rounds (ks : list word) (s : state) (win : list word) : state :=
  match ks with
  | [] => s
  | k :: ks' => rounds ks' (round s k (hd 0 win)) (slide win)
  end.

Definition add_state (s t : state) : state :=
  mkState (add32 (sa s) (sa t)) (add32 (sb s) (sb t))
          (add32 (sc s) (sc t)) (add32 (sd s) (sd t))
          (add32 (se s) (se t)) (add32 (sf s) (sf t))
          (add32 (sg s) (sg t)) (add32 (sh s) (sh t)).

Definition compress (s : state) (block : list word) : state :=
  add_state s (rounds K s block).

(** Big-endian packing of bytes into 32-bit words. *)
Fixpoint words_of_bytes (bs : list Z) : list word :=
  match bs with
  | b0 :: b1 :: b2 :: b3 :: rest =>
      (((b0 * 256 + b1) * 256 + b2) * 256 + b3) :: words_of_bytes rest
  | _ => []
  end.

Fixpoint be_bytes (n : nat) (x : Z) : list Z :=
  match n with
  | O => []
  | S n' => (be_bytes n' (x / 256) ++ [x mod 256])%list
  end.

Definition pad (msg : list Z) : list Z :=
  let len := Z.of_nat (List.length msg) in
  (msg ++ [128] ++ repeat 0 (Z.to_nat ((55 - len) mod 64))
       ++ be_bytes 8 (8 * len))%list.

Fixpoint process (fuel : nat) (s : state) (ws : list word) : state :=
  match fuel, ws with
  | S fuel', _ :: _ => process fuel' (compress s (firstn 16 ws)) (skipn 16 ws)
  | _, _ => s
  end.

Definition digest (msg : list Z) : state :=
  let ws := words_of_bytes (pad msg) in
  process (List.length ws) initial_state ws.

Definition hex_digit (n : Z) : ascii :=
  match n with
  | 0 => "0" | 1 => "1" | 2 => "2" | 3 => "3" | 4 => "4" | 5 => "5"
  | 6 => "6" | 7 => "7" | 8 => "8" | 9 => "9" | 10 => "a" | 11 => "b"
  | 12 => "c" | 13 => "d" | 14 => "e" | _ => "f"
  end%char.

Definition nibble (i : Z) (w : word) : ascii :=
  hex_digit (Z.land (Z.shiftr w (4 * i)) 15).

Definition hex_word (w : word) (rest : string) : string :=
  String (nibble 7 w) (String (nibble 6 w) (String (nibble 5 w)
  (String (nibble 4 w) (String (nibble 3 w) (String (nibble 2 w)
  (String (nibble 1 w) (String (nibble 0 w) rest))))))).

Definition hex_state (s : state) : string :=
  hex_word (sa s) (hex_word (sb s) (hex_word (sc s) (hex_word (sd s)
  (hex_word (se s) (hex_word (sf s) (hex_word (sg s)
  (hex_word (sh s) EmptyString))))))).

Definition bytes_of_string (s : string) : list Z :=
  map (fun c => Z.of_N (N_of_ascii c)) (list_ascii_of_string s).

(** [hashlib.sha256(s.encode()).hexdigest()] *)
Definition hexdigest (s : string) : string :=
  hex_state (digest (bytes_of_string s)).

End SHA256.

Arguments SHA256.hexdigest : simpl never.

(** ** Python values used by the chain engine *)

Module Py.

(** [str(n)] for an [int]: decimal, with a leading [-] when negative. *)
Definition str (n : Z) : string := NilZero.string_of_int (Z.to_int n).

(** [c * n] for a string [c]: empty when [n <= 0]. *)
Fixpoint repeat_string (c : string) (n : nat) : string :=
  match n with
  | O => ""
  | S n' => c ++ repeat_string c n'
  end.

Definition str_mul (c : string) (n : Z) : string :=
  repeat_string c (Z.to_nat n).

(** [s.startswith(t)] *)
Definition startswith (s t : string) : bool := String.prefix t s.

(** [%0wd] for a non-negative number: decimal, zero-filled on the left to
    at least [w] characters. *)
Definition zero_pad (w : nat) (n : Z) : string :=
  repeat_string "0" (w - String.length (str n)) ++ str n.

(** [datetime.date] *)
Record date := mkDate { year : Z; month : Z; day : Z }.

(** [str(d)], that is [d.isoformat()]: [%04d-%02d-%02d]. *)
Definition isoformat (d : date) : string :=
  zero_pad 4 (year d) ++ "-" ++ zero_pad 2 (month d) ++ "-"
    ++ zero_pad 2 (day d).

(** The ranges [datetime.date] enforces on its fields (it also bounds the
    day by the length of the month, which nothing here relies on). *)
Definition date_in_range (d : date) : bool :=
  (1 <=? year d) && (year d <=? 9999) && (1 <=? month d)
    && (month d <=? 12) && (1 <=? day d) && (day d <=? 31).

(** [datetime.datetime] *)
Record datetime := mkDatetime
  { on : date; hour : Z; minute : Z; second : Z; microsecond : Z }.

(** [d.strftime('%Y-%m-%d')]: unlike [isoformat], the C library's [%Y]
    writes the year as it is and does not fill it to four digits. *)
Definition strftime_date (d : date) : string :=
  str (year d) ++ "-" ++ zero_pad 2 (month d) ++ "-" ++ zero_pad 2 (day d).

(** [t.strftime('%Y-%m-%d %H:%M:%S')] *)
Definition strftime (t : datetime) : string :=
  strftime_date (on t) ++ " " ++ zero_pad 2 (hour t) ++ ":"
    ++ zero_pad 2 (minute t) ++ ":" ++ zero_pad 2 (second t).

End Py.

(** ** app.py *)

Module App.

Import Py.

(** Blockchain configuration: the two module-level settings, read where
    the code reads them. *)
Record Config := mkConfig
  { DIFFICULTY : Z;   (* number of leading zeros required in hash *)
    MAX_NONCE : Z }.  (* maximum nonce to try *)

(** The values app.py ships. *)
Definition app_config : Config :=
  {| DIFFICULTY := 3; MAX_NONCE := 1000000 |}.

(** A row of the table [study_session]. *)
Record StudySession := mkStudySession
  { id : Z;
    user_id : Z;
    date : Py.date;
    subject : string;
    duration : Z;
    status : string;
    block_number : Z;
    timestamp : Py.datetime;
    hash : string;
    prev_hash : string;
    nonce : Z;
    difficulty : Z }.

(** The f-string of [calculate_hash]: the fields back to back, with no
    separator. *)
Definition block_data (block_number : Z) (timestamp prev_hash data : string)
    (nonce difficulty : Z) : string :=
  str block_number ++ timestamp ++ prev_hash ++ data ++ str nonce
    ++ str difficulty.

Definition calculate_hash (block_number : Z) (timestamp prev_hash data : string)
    (nonce difficulty : Z) : string :=
  SHA256.hexdigest
    (block_data block_number timestamp prev_hash data nonce difficulty).

(** How the [while] loop of [mine_block] ends: by the [return] inside it, or
    by its guard turning false, with the locals [nonce] and [hash_result]
    (unset as long as the body has not run) as they are then. *)
Inductive loop_exit :=
  | Returned (hash_result : string) (nonce : Z)
  | FellThrough (nonce : Z) (hash_result : option string).

Section Mining.

Variable cfg : Config.
Variables (block_number : Z) (timestamp prev_hash data : string)
          (difficulty : Z).

Fixpoint mine_while (fuel : nat) (nonce : Z) (hash_result : option string)
    : loop_exit :=
  match fuel with
  | O => FellThrough nonce hash_result
  | S fuel' =>
      if nonce <? MAX_NONCE cfg then
        let hash_result :=
          calculate_hash block_number timestamp prev_hash data nonce
                         difficulty in
        if startswith hash_result (str_mul "0" difficulty)
        then Returned hash_result nonce
        else mine_while fuel' (nonce + 1) (Some hash_result)
      else FellThrough nonce hash_result
  end.

(** The loop starts at [nonce = 0] and adds one per turn, so [MAX_NONCE]
    turns are all it can take ([mine_while_enough_fuel] below). *)
Definition mine_search : loop_exit :=
  mine_while (Z.to_nat (MAX_NONCE cfg)) 0 None.

Definition mine_block : string * Z :=
  match mine_search with
  | Returned hash_result nonce => (hash_result, nonce)
  | FellThrough nonce _ =>
      (* If max nonce reached, return with current hash *)
      (calculate_hash block_number timestamp prev_hash data nonce difficulty,
       nonce)
  end.

End Mining.

(** *** The table [study_session] and its queries *)

Definition Table := list StudySession.

(** [.filter_by(user_id=u)] *)
Definition filter_by_user_id (u : Z) (t : Table) : list StudySession :=
  filter (fun s => user_id s =? u) t.

(** [.order_by(StudySession.block_number)]: an insertion sort that keeps
    rows of equal [block_number] in table order (SQL leaves their order
    open). *)
Fixpoint insert_asc (s : StudySession) (l : list StudySession)
    : list StudySession :=
  match l with
  | [] => [s]
  | x :: l' =>
      if block_number s <=? block_number x then s :: l
      else x :: insert_asc s l'
  end.

Definition order_by_block_number (l : list StudySession)
    : list StudySession :=
  fold_right insert_asc [] l.

(** [.order_by(StudySession.block_number.desc())] *)
Fixpoint insert_desc (s : StudySession) (l : list StudySession)
    : list StudySession :=
  match l with
  | [] => [s]
  | x :: l' =>
      if block_number x <=? block_number s then s :: l
      else x :: insert_desc s l'
  end.

Definition order_by_block_number_desc (l : list StudySession)
    : list StudySession :=
  fold_right insert_desc [] l.

(** [.first()] *)
Definition first (l : list StudySession) : option StudySession := hd_error l.

(** [.all()] of the chain query that both verifiers and the [blockchain]
    route run. *)
Definition user_chain (t : Table) (u : Z) : list StudySession :=
  order_by_block_number (filter_by_user_id u t).

(** The primary key SQLite gives a new row: one more than the largest in
    the table. *)
Definition next_id (t : Table) : Z :=
  1 + fold_right Z.max 0 (map id t).

Definition with_id (i : Z) (s : StudySession) : StudySession :=
  mkStudySession i (user_id s) (date s) (subject s) (duration s) (status s)
    (block_number s) (timestamp s) (hash s) (prev_hash s) (nonce s)
    (difficulty s).

(** SQLite holds a [db.Integer] column in 64 bits, signed; handed a
    Python [int] outside that range, the driver raises [OverflowError]. *)
Definition fits_int64 (z : Z) : bool :=
  (-9223372036854775808 <=? z) && (z <=? 9223372036854775807).

(** The integer columns the handler sets on a new row. *)
Definition storable (s : StudySession) : bool :=
  fits_int64 (user_id s) && fits_int64 (duration s)
    && fits_int64 (block_number s) && fits_int64 (nonce s)
    && fits_int64 (difficulty s).

(** [db.session.add(new_session); db.session.commit()]: [None] where the
    commit raises, and the row is not stored. *)
Definition add_commit (t : Table) (new_session : StudySession)
    : option Table :=
  if storable new_session
  then Some (t ++ [with_id (next_id t) new_session])%list
  else None.

(** *** The POST branch of [dashboard] *)

(** The form as the handler has it once the library calls are through:
    [strptime(..).date()] and [int(..)] give [None] where they raise
    [ValueError], the subject is already stripped. *)
Record Form := mkForm
  { form_date : option Py.date;
    form_subject : string;
    form_duration_unit : string;
    form_duration : option Z;
    form_status : string }.

Inductive Outcome :=
  | Mined (block_number nonce : Z)  (* Block #.. mined successfully! *)
  | InvalidInput                    (* ValueError: Invalid input *)
  | SubjectEmpty                    (* Subject cannot be empty *)
  | DurationNotPositive             (* Duration must be positive *)
  | Failed.                         (* Exception: Failed to add session *)

Definition sentinel : string := str_mul "0" 64.

(** The payload f-string, shared by the append path and the verifiers. *)
Definition payload (date : Py.date) (subject : string) (duration : Z)
    (status : string) : string :=
  isoformat date ++ subject ++ str duration ++ status.

(** Lines 270-302: read the tail of the user's chain, mine, and build the
    row; [user] is the id of the logged-in user, [now] what [utcnow()]
    returns.  The row has no id before it is committed. *)
Definition new_session (cfg : Config) (prev_session : option StudySession)
    (user : Z) (date : Py.date) (subject : string) (duration : Z)
    (status : string) (now : Py.datetime) : StudySession :=
  let prev_hash :=
    match prev_session with Some p => hash p | None => sentinel end in
  let block_number :=
    match prev_session with Some p => block_number p + 1 | None => 1 end in
  let timestamp := now in
  let data := payload date subject duration status in
  let '(hash_val, nonce) :=
    mine_block cfg block_number (strftime timestamp) prev_hash data
               (DIFFICULTY cfg) in
  mkStudySession 0 user date subject duration status block_number timestamp
    hash_val prev_hash nonce (DIFFICULTY cfg).

Definition prev_session_of (t : Table) (user : Z) : option StudySession :=
  first (order_by_block_number_desc (filter_by_user_id user t)).

(** Everything the handler does before it writes: parsing, validation, the
    read of the tail, mining. *)
Definition dashboard_prepare (cfg : Config) (t : Table) (user : Z)
    (form : Form) (now : Py.datetime) : StudySession + Outcome :=
  match form_date form with
  | None => inr InvalidInput
  | Some date =>
      let subject := form_subject form in
      match form_duration form with
      | None => inr InvalidInput
      | Some duration =>
          if (subject =? "")%string then inr SubjectEmpty
          else if duration <=? 0 then inr DurationNotPositive
          else
            let duration :=
              if (form_duration_unit form =? "hours")%string
              then duration * 60 else duration in
            inl (new_session cfg (prev_session_of t user) user date subject
                   duration (form_status form) now)
      end
  end.

(** The whole POST branch.  When the commit raises, the handler for
    [Exception] rolls back and the table stays as it was.  (The
    interpreter's own limit on converting an [int] of thousands of digits
    to [str] is left out.) *)
Definition dashboard_post (cfg : Config) (t : Table) (user : Z)
    (form : Form) (now : Py.datetime) : Table * Outcome :=
  match dashboard_prepare cfg t user form now with
  | inl s =>
      match add_commit t s with
      | Some t' => (t', Mined (block_number s) (nonce s))
      | None => (t, Failed)
      end
  | inr o => (t, o)
  end.

(** Requests served one after the other: the table they leave. *)
Fixpoint dashboard_posts (cfg : Config) (t : Table) (user : Z)
    (requests : list (Form * Py.datetime)) : Table :=
  match requests with
  | [] => t
  | (form, now) :: rest =>
      dashboard_posts cfg (fst (dashboard_post cfg t user form now)) user rest
  end.

(** ... and what each of them is answered. *)
Fixpoint dashboard_outcomes (cfg : Config) (t : Table) (user : Z)
    (requests : list (Form * Py.datetime)) : list Outcome :=
  match requests with
  | [] => []
  | (form, now) :: rest =>
      snd (dashboard_post cfg t user form now)
      :: dashboard_outcomes cfg (fst (dashboard_post cfg t user form now))
           user rest
  end.


(** *** [verify_chain] *)

Definition session_data (s : StudySession) : string :=
  payload (date s) (subject s) (duration s) (status s).

(** The serialized string the verifier hashes for a stored row. *)
Definition session_block_data (s : StudySession) : string :=
  block_data (block_number s) (strftime (timestamp s)) (prev_hash s)
    (session_data s) (nonce s) (difficulty s).

Definition calculated_hash (s : StudySession) : string :=
  calculate_hash (block_number s) (strftime (timestamp s)) (prev_hash s)
    (session_data s) (nonce s) (difficulty s).

Definition block_label (s : StudySession) : string :=
  "Block " ++ str (block_number s).

(** The [for] loop over [enumerate(sessions)]; [prev] is [sessions[i-1]],
    absent when [i = 0]. *)
Fixpoint verify_loop (prev : option StudySession)
    (sessions : list StudySession) : bool * string :=
  match sessions with
  | [] => (true, "Blockchain is valid")
  | session :: rest =>
      if negb (calculated_hash session =? hash session)%string then
        (false, block_label session ++ " has invalid hash")
      else if match prev with
              | Some p => negb (prev_hash session =? hash p)%string
              | None => false
              end then
        (false, block_label session ++ " has broken chain link")
      else if negb (startswith (hash session)
                      (str_mul "0" (difficulty session))) then
        (false, block_label session ++ " doesn't meet difficulty requirement")
      else verify_loop (Some session) rest
  end.

(** The body of [verify_chain] once the rows are fetched. *)
Definition verify_sessions (sessions : list StudySession) : bool * string :=
  match sessions with
  | [] => (true, "No blocks to verify")
  | _ => verify_loop None sessions
  end.

Definition verify_chain (t : Table) (user_id : Z) : bool * string :=
  verify_sessions (user_chain t user_id).

(** *** [update_status] and [delete_session] *)

Inductive Response :=
  | Redirect (endpoint : string) (flashed : list (string * string)).

Definition with_status (st : string) (s : StudySession) : StudySession :=
  mkStudySession (id s) (user_id s) (date s) (subject s) (duration s) st
    (block_number s) (timestamp s) (hash s) (prev_hash s) (nonce s)
    (difficulty s).

(** [login] is [session['user_id']], absent for a visitor not logged in. *)
Definition update_status (login : option Z) (session_id : Z) (t : Table)
    : Table * Response :=
  match login with
  | None => (t, Redirect "login" [])
  | Some u =>
      match find (fun s => id s =? session_id) t with
      | Some s =>
          if user_id s =? u then
            (map (fun r => if id r =? session_id
                           then with_status "completed" r else r) t,
             Redirect "dashboard"
               [("Session marked as completed!", "success")])
          else (t, Redirect "dashboard" [("Session not found", "error")])
      | None => (t, Redirect "dashboard" [("Session not found", "error")])
      end
  end.

Definition delete_warning : string * string :=
  ("‚ö†Ô∏è Warning: Deleting blocks from a blockchain breaks the chain integrity!",
   "error").

Definition delete_session (login : option Z) (session_id : Z) (t : Table)
    : Table * Response :=
  match login with
  | None => (t, Redirect "login" [])
  | Some _ => (t, Redirect "dashboard" [delete_warning])
  end.

End App.

(** ** blockchain_utils.py *)

Module BlockchainUtils.

Import Py.
Import App.

(** The utility script carries its own copy of the hasher. *)
Definition calculate_hash (block_number : Z) (timestamp prev_hash data : string)
    (nonce difficulty : Z) : string :=
  SHA256.hexdigest
    (str block_number ++ timestamp ++ prev_hash ++ data ++ str nonce
       ++ str difficulty).

Definition calculated_hash (s : StudySession) : string :=
  calculate_hash (block_number s) (strftime (timestamp s)) (prev_hash s)
    (isoformat (date s) ++ subject s ++ str (duration s) ++ status s)
    (nonce s) (difficulty s).

(** The [for] loop of [verify_user_chain]: every failed check appends to
    [errors], and the loop goes on. *)
Fixpoint verify_loop (prev : option StudySession)
    (sessions : list StudySession) (errors : list string) : list string :=
  match sessions with
  | [] => errors
  | session :: rest =>
      let label := "Block " ++ str (block_number session) in
      let errors :=
        if negb (calculated_hash session =? hash session)%string
        then (errors ++ [(label ++ ": Invalid hash")%string])%list
        else errors in
      let errors :=
        if match prev with
           | Some p => negb (prev_hash session =? hash p)%string
           | None => false
           end
        then (errors ++ [(label ++ ": Broken chain link")%string])%list
        else errors in
      let errors :=
        if negb (startswith (hash session)
                   (str_mul "0" (difficulty session)))
        then (errors
              ++ [(label ++ ": Doesn't meet difficulty requirement")%string])%list
        else errors in
      verify_loop (Some session) rest errors
  end.

Definition verify_sessions (sessions : list StudySession)
    : bool * string * list string :=
  match sessions with
  | [] => (true, "No blocks to verify", [])
  | _ =>
      let errors := verify_loop None sessions [] in
      match errors with
      | [] => (true, "Blockchain is valid", [])
      | _ =>
          (false,
           "Found " ++ str (Z.of_nat (List.length errors)) ++ " error(s)",
           errors)
      end
  end.

Definition verify_user_chain (t : Table) (user_id : Z)
    : bool * string * list string :=
  verify_sessions (user_chain t user_id).

End BlockchainUtils.

(** ** Requests in flight together

    A POST to [dashboard] touches the table twice: it reads the tail of the
    user's chain (lines 271-274) and, once the block is mined, it inserts
    and commits the row (lines 304-305).  Nothing in the handler ties the
    two together: no lock is taken, no transaction spans them, and the
    table has no uniqueness constraint on [(user_id, block_number)].  A
    schedule says in which order the reads and the writes of several
    requests of one user reach the table. *)

Module Concurrency.

Import Py App.

Inductive Event :=
  | Prepare (i : nat)   (* request i runs up to its new_session *)
  | Commit (i : nat).   (* request i adds its row and commits *)

Record State := mkState
  { table : Table;
    prepared : list (nat * StudySession) }.

Fixpoint lookup (i : nat) (l : list (nat * StudySession))
    : option StudySession :=
  match l with
  | [] => None
  | (j, s) :: l' => if Nat.eqb i j then Some s else lookup i l'
  end.

Definition step (cfg : Config) (user : Z)
    (requests : list (Form * Py.datetime)) (st : State) (e : Event)
    : State :=
  match e with
  | Prepare i =>
      match nth_error requests i with
      | Some (form, now) =>
          match dashboard_prepare cfg (table st) user form now with
          | inl s => mkState (table st) ((i, s) :: prepared st)
          | inr _ => st
          end
      | None => st
      end
  | Commit i =>
      match lookup i (prepared st) with
      | Some s =>
          mkState (match add_commit (table st) s with
                   | Some t' => t'
                   | None => table st
                   end)
                  (filter (fun js => negb (Nat.eqb (fst js) i))
                          (prepared st))
      | None => st
      end
  end.

Definition run (cfg : Config) (user : Z)
    (requests : list (Form * Py.datetime)) (schedule : list Event)
    (t : Table) : Table :=
  table (fold_left (step cfg user requests) schedule (mkState t [])).

(** One request after the other. *)
Fixpoint serial (first count : nat) : list Event :=
  match count with
  | O => []
  | S count' => Prepare first :: Commit first :: serial (S first) count'
  end.

(** Two requests that have both read the tail before either commits. *)
Definition racing : list Event :=
  [Prepare 0%nat; Prepare 1%nat; Commit 0%nat; Commit 1%nat].

End Concurrency.

(** ** Tampering with a stored row

    What somebody with write access to the table can do to a committed
    block without going through the miner. *)

Module Tamper.

Import Py App.

(** A change of one payload field. *)
Inductive field_update :=
  | SetDate (d : Py.date)
  | SetSubject (s : string)
  | SetDuration (n : Z)
  | SetStatus (s : string).

Definition apply_update (u : field_update) (s : StudySession)
    : StudySession :=
  match u with
  | SetDate d =>
      mkStudySession (id s) (user_id s) d (subject s) (duration s)
        (status s) (block_number s) (timestamp s) (hash s) (prev_hash s)
        (nonce s) (difficulty s)
  | SetSubject x =>
      mkStudySession (id s) (user_id s) (date s) x (duration s)
        (status s) (block_number s) (timestamp s) (hash s) (prev_hash s)
        (nonce s) (difficulty s)
  | SetDuration n =>
      mkStudySession (id s) (user_id s) (date s) (subject s) n
        (status s) (block_number s) (timestamp s) (hash s) (prev_hash s)
        (nonce s) (difficulty s)
  | SetStatus x => with_status x s
  end.

(** Dates stay dates: the old and the new value of a changed [date] are
    within the ranges of [datetime.date]. *)
Definition update_in_range (u : field_update) (s : StudySession) : bool :=
  match u with
  | SetDate d => date_in_range d && date_in_range (date s)
  | _ => true
  end.

(** A change of the stored [prev_hash]. *)
Definition with_prev_hash (h : string) (s : StudySession) : StudySession :=
  mkStudySession (id s) (user_id s) (date s) (subject s) (duration s)
    (status s) (block_number s) (timestamp s) (hash s) h (nonce s)
    (difficulty s).

(** SHA-256 does not collide on the two messages [x] and [y]. *)
Definition no_collision (x y : string) : Prop :=
  SHA256.hexdigest x = SHA256.hexdigest y -> x = y.

End Tamper.

(** The scenario of the specification: user 1 logs Math, then Physics. *)
Module Scenario.

Import Py.
Import App.

Definition form1 : Form :=
  mkForm (Some (mkDate 2024 1 1)) "Math" "minutes" (Some 60) "pending".
Definition now1 : datetime := mkDatetime (mkDate 2024 1 1) 10 4 34 0.

Definition form2 : Form :=
  mkForm (Some (mkDate 2024 1 2)) "Physics" "minutes" (Some 90) "pending".
Definition now2 : datetime := mkDatetime (mkDate 2024 1 2) 9 33 33 0.

Definition ts1 : string := "2024-01-01 10:04:34".
Definition data1 : string := "2024-01-01Math60pending".

(** An unrelated value for a [prev_hash]. *)
Definition unrelated : string := str_mul "f" 64.

(** A second request that arrives while the first is being served. *)
Definition form_b : Form :=
  mkForm (Some (mkDate 2024 1 1)) "Biology" "minutes" (Some 30) "pending".
Definition now_b : datetime := mkDatetime (mkDate 2024 1 1) 10 4 38 0.

(** What the second request leaves when it is prepared against the empty
    table. *)
Definition block_b : StudySession :=
  mkStudySession 2 1 (mkDate 2024 1 1) "Biology" 30 "pending" 1 now_b
    "000b3221a0d55d1546567661174fbefdd5fc63519a6c43d6cd348c5f8b4aa17f"
    "0000000000000000000000000000000000000000000000000000000000000000"
    7 3.

Definition table2 : Table :=
  dashboard_posts app_config [] 1 [(form1, now1); (form2, now2)].

Definition block1 : StudySession :=
  mkStudySession 1 1 (mkDate 2024 1 1) "Math" 60 "pending" 1 now1
    "0007bf23aa230f7268705038a733e718a6c8fb2260319208f39c302d7455821a"
    "0000000000000000000000000000000000000000000000000000000000000000"
    1 3.

Definition block2 : StudySession :=
  mkStudySession 2 1 (mkDate 2024 1 2) "Physics" 90 "pending" 2 now2
    "000b64d1a287fd24e314be2832fde732e048e23f3f5e2cf06f30ac5dcbe383ed"
    "0007bf23aa230f7268705038a733e718a6c8fb2260319208f39c302d7455821a"
    3 3.

(** A request whose duration does not fit the 64 bits of the column. *)
Definition form_wide : Form :=
  mkForm (Some (mkDate 2024 1 1)) "Math" "minutes"
    (Some 9223372036854775808) "pending".
Definition now_wide : datetime := mkDatetime (mkDate 2024 1 1) 2 46 25 0.

(** A block that asks for no proof of work, with the number [i] written
    out as its subject and [h] as its stored hash. *)
Definition numbered_block (i : Z) (h : string) : StudySession :=
  mkStudySession 1 1 (mkDate 2024 1 1) (str i) 60 "pending" 1 now1 h
    sentinel 0 0.

(** A third request, logged as completed from the start. *)
Definition form3 : Form :=
  mkForm (Some (mkDate 2024 1 3)) "Chemistry" "minutes" (Some 45) "completed".
Definition now3 : datetime := mkDatetime (mkDate 2024 1 3) 8 42 49 0.

Definition block3 : StudySession :=
  mkStudySession 3 1 (mkDate 2024 1 3) "Chemistry" 45 "completed" 3 now3
    "000716c6f0c8951c45655b6f6702acd3b9922bdc748dcc11f9012c43adb71fd3"
    "000b64d1a287fd24e314be2832fde732e048e23f3f5e2cf06f30ac5dcbe383ed"
    1 3.

End Scenario.

(** ** Notions the statements are written with *)

Module Notions.

Import Py App.

(** What the loop of [mine_block] has established when it ends, started
    at [nonce] with fuel for the turns that remain. *)
Definition exit_ok (cfg : Config) (block_number : Z)
    (timestamp prev_hash data : string) (difficulty : Z)
    (nonce : Z) (hash_result : option string) (e : loop_exit) : Prop :=
  let attempt n :=
    calculate_hash block_number timestamp prev_hash data n difficulty in
  let compliant n := startswith (attempt n) (str_mul "0" difficulty) in
  match e with
  | Returned h n =>
      nonce <= n < MAX_NONCE cfg /\ h = attempt n /\ compliant n = true /\
      forall k, nonce <= k < n -> compliant k = false
  | FellThrough n h =>
      n = Z.max nonce (MAX_NONCE cfg) /\
      (forall k, nonce <= k < MAX_NONCE cfg -> compliant k = false) /\
      h = if nonce <? MAX_NONCE cfg then Some (attempt (MAX_NONCE cfg - 1))
          else hash_result
  end.

(** The three checks of one turn of the verifier loop, taken together. *)
Definition passes (prev : option StudySession) (s : StudySession) : bool :=
  (calculated_hash s =? hash s)%string
  && match prev with
     | Some p => (prev_hash s =? hash p)%string
     | None => true
     end
  && startswith (hash s) (str_mul "0" (difficulty s)).

Fixpoint all_pass (prev : option StudySession) (l : list StudySession)
    : bool :=
  match l with
  | [] => true
  | s :: rest => passes prev s && all_pass (Some s) rest
  end.

(** The element a loop over [l] has in hand as [sessions[i-1]] when it is
    through with [l], having started with [prev]. *)
Definition last_seen (prev : option StudySession) (l : list StudySession)
    : option StudySession :=
  match rev l with
  | x :: _ => Some x
  | [] => prev
  end.

(** What one turn of the batch loop adds to [errors]. *)
Definition block_errors (prev : option StudySession) (s : StudySession)
    : list string :=
  ((if (calculated_hash s =? hash s)%string then []
    else [(block_label s ++ ": Invalid hash")%string])
   ++ (match prev with
       | Some p =>
           if (prev_hash s =? hash p)%string then []
           else [(block_label s ++ ": Broken chain link")%string]
       | None => []
       end)
   ++ (if startswith (hash s) (str_mul "0" (difficulty s)) then []
       else [(block_label s
              ++ ": Doesn't meet difficulty requirement")%string]))%list.

Fixpoint all_errors (prev : option StudySession) (l : list StudySession)
    : list string :=
  match l with
  | [] => []
  | s :: rest => (block_errors prev s ++ all_errors (Some s) rest)%list
  end.

(** Reading a zero-filled field back gives the number. *)
Definition read_number (s : string) : option N :=
  option_map N.of_uint (NilEmpty.uint_of_string s).

(** The fields of a date hold no [-], so the dashes of its ISO form are
    where the fields end. *)
Fixpoint no_dash (s : string) : bool :=
  match s with
  | EmptyString => true
  | String c s' => negb (Ascii.eqb c "-") && no_dash s'
  end.

Definition before (a b : StudySession) : Prop :=
  block_number a < block_number b.

(** The rows carry the numbers [first], [first + 1], ... in order. *)
Definition numbered_from (first : nat) (l : list StudySession) : Prop :=
  map block_number l = map Z.of_nat (seq first (List.length l)).

(** Every row names the hash of the one before it, the first one [link]. *)
Fixpoint linked (link : string) (l : list StudySession) : Prop :=
  match l with
  | [] => True
  | s :: rest => prev_hash s = link /\ linked (hash s) rest
  end.

Definition chained (l : list StudySession) : Prop :=
  numbered_from 1 l /\ linked sentinel l.

(** The eight words of a SHA-256 chaining value are 32 bits wide, so that
    the value is a number below 2^256. *)
Definition in_range (s : SHA256.state) : Prop :=
  (0 <= SHA256.sa s < 4294967296) /\ (0 <= SHA256.sb s < 4294967296) /\
  (0 <= SHA256.sc s < 4294967296) /\ (0 <= SHA256.sd s < 4294967296) /\
  (0 <= SHA256.se s < 4294967296) /\ (0 <= SHA256.sf s < 4294967296) /\
  (0 <= SHA256.sg s < 4294967296) /\ (0 <= SHA256.sh s < 4294967296).

Definition as_number (s : SHA256.state) : Z :=
  SHA256.sa s + 4294967296 * (SHA256.sb s + 4294967296 * (SHA256.sc s
  + 4294967296 * (SHA256.sd s + 4294967296 * (SHA256.se s
  + 4294967296 * (SHA256.sf s + 4294967296 * (SHA256.sg s
  + 4294967296 * SHA256.sh s)))))).

(** The requests that were answered "Block #.. mined successfully!": the
    appends that took place. *)
Definition is_mined (o : Outcome) : bool :=
  match o with
  | Mined _ _ => true
  | _ => false
  end.

Definition appended (cfg : Config) (t : Table) (user : Z)
    (requests : list (Form * Py.datetime)) : nat :=
  List.length (filter is_mined (dashboard_outcomes cfg t user requests)).

End Notions.

(** ** What a verifier reports *)

Module Diagnosis.

Import Py App Notions.

(** The three checks of a turn of either verifier loop, in the order the
    loops run them. *)
Inductive Check := HashCheck | LinkCheck | DifficultyCheck.

Definition first_failed (prev : option StudySession) (s : StudySession)
    : option Check :=
  if negb (calculated_hash s =? hash s)%string then Some HashCheck
  else if match prev with
          | Some p => negb (prev_hash s =? hash p)%string
          | None => false
          end then Some LinkCheck
  else if negb (startswith (hash s) (str_mul "0" (difficulty s)))
       then Some DifficultyCheck
  else None.

(** The message of [verify_chain] for a failed check. *)
Definition app_message (s : StudySession) (c : Check) : string :=
  match c with
  | HashCheck => block_label s ++ " has invalid hash"
  | LinkCheck => block_label s ++ " has broken chain link"
  | DifficultyCheck => block_label s ++ " doesn't meet difficulty requirement"
  end.

(** The line of [verify_user_chain] for a failed check. *)
Definition utils_message (s : StudySession) (c : Check) : string :=
  match c with
  | HashCheck => block_label s ++ ": Invalid hash"
  | LinkCheck => block_label s ++ ": Broken chain link"
  | DifficultyCheck => block_label s ++ ": Doesn't meet difficulty requirement"
  end.

(** The characters of a lower-case hexadecimal digest. *)
Definition is_hex (c : ascii) : bool :=
  existsb (Ascii.eqb c) (list_ascii_of_string "0123456789abcdef").

Fixpoint all_hex (s : string) : bool :=
  match s with
  | EmptyString => true
  | String c s' => is_hex c && all_hex s'
  end.

(** A row with another id, another owner and another microsecond: the
    fields that neither verifier reads. *)
Definition relabel (i u us : Z) (s : StudySession) : StudySession :=
  mkStudySession i u (date s) (subject s) (duration s) (status s)
    (block_number s)
    (mkDatetime (on (timestamp s)) (hour (timestamp s))
       (minute (timestamp s)) (second (timestamp s)) us)
    (hash s) (prev_hash s) (nonce s) (difficulty s).

Definition relabelled (s s' : StudySession) : Prop :=
  exists i u us, s' = relabel i u us s.

(** What [update_status] does to a row when it completes session
    [session_id]. *)
Definition complete (session_id : Z) (r : StudySession) : StudySession :=
  if id r =? session_id then with_status "completed" r else r.

End Diagnosis.

(** ** Accounts: [register], [forget_password], [login], [logout]

    The table [user] is a list of rows in insertion order.  The two
    werkzeug functions are parameters: [generate_password_hash] with the
    salt it draws made explicit, and [check_password_hash]. *)

Module Accounts.

Import Py.

Record User := mkUser
  { id : Z;
    username : string;
    age : Z;
    password : string;
    created_at : Py.datetime }.

Definition Users := list User.

(** [len(s)]: the code points of [s], that is the bytes of its UTF-8
    encoding that do not continue a sequence. *)
Definition continues (c : ascii) : bool :=
  let n := N_of_ascii c in ((128 <=? n) && (n <? 192))%N.

Fixpoint len (s : string) : Z :=
  match s with
  | EmptyString => 0
  | String c s' => (if continues c then 0 else 1) + len s'
  end.

(** [User.query.filter_by(username=name).first()] *)
Definition user_named (users : Users) (name : string) : option User :=
  find (fun u => (username u =? name)%string) users.

Definition next_user_id (users : Users) : Z :=
  1 + fold_right Z.max 0 (map id users).

(** The register form once [strip] and [int] are through; [int] gives
    [None] where it raises [ValueError]. *)
Record RegisterForm := mkRegisterForm
  { reg_username : string;
    reg_age : option Z;
    reg_password : string;
    reg_confirm_password : string }.

Inductive RegisterOutcome :=
  | Registered            (* Account created successfully! *)
  | UsernameTooShort      (* Username must be at least 3 characters long *)
  | InvalidAge            (* Please enter a valid age *)
  | PasswordTooShort      (* Password must be at least 6 characters long *)
  | PasswordsDoNotMatch   (* Passwords do not match *)
  | UsernameExists.       (* Username already exists *)

Inductive ResetOutcome :=
  | PasswordReset         (* Password reset successful! *)
  | UserNotFound          (* User not found *)
  | NewPasswordTooShort   (* Password must be at least 6 characters long *)
  | NewPasswordsDoNotMatch.

Section Passwords.

Variable generate_password_hash : string -> string -> string.
Variable check_password_hash : string -> string -> bool.

(** The POST branch of [register]; [salt] is what the library draws,
    [now] the default of [created_at]. *)
Definition register (users : Users) (form : RegisterForm) (salt : string)
    (now : Py.datetime) : Users * RegisterOutcome :=
  let username := reg_username form in
  match reg_age form with
  | None => (users, InvalidAge)
  | Some age =>
      let password := reg_password form in
      if (username =? "")%string || (len username <? 3) then
        (users, UsernameTooShort)
      else if (age <? 1) || (150 <? age) then (users, InvalidAge)
      else if len password <? 6 then (users, PasswordTooShort)
      else if negb (password =? reg_confirm_password form)%string then
        (users, PasswordsDoNotMatch)
      else
        match user_named users username with
        | Some _ => (users, UsernameExists)
        | None =>
            let hashed_password := generate_password_hash password salt in
            ((users ++ [mkUser (next_user_id users) username age
                          hashed_password now])%list,
             Registered)
        end
  end.

Definition with_password (p : string) (u : User) : User :=
  mkUser (id u) (username u) (age u) p (created_at u).

(** The POST branch of [forget_password]; [name] is the stripped
    username. *)
Definition forget_password (users : Users) (name new_password
    confirm_password salt : string) : Users * ResetOutcome :=
  match user_named users name with
  | None => (users, UserNotFound)
  | Some user =>
      if len new_password <? 6 then (users, NewPasswordTooShort)
      else if negb (new_password =? confirm_password)%string then
        (users, NewPasswordsDoNotMatch)
      else
        (map (fun u => if id u =? id user
                       then with_password
                              (generate_password_hash new_password salt) u
                       else u) users,
         PasswordReset)
  end.

(** The POST branch of [login]: what it puts in the web session,
    [user_id] and [username], or nothing. *)
Definition login (users : Users) (name password_given : string)
    : option (Z * string) :=
  match user_named users name with
  | Some user =>
      if check_password_hash (password user) password_given
      then Some (id user, username user)
      else None
  | None => None
  end.

End Passwords.

(** [logout]: [session.clear()] *)
Definition logout (session : option (Z * string)) : option (Z * string) :=
  None.

(** What [register] lets into the table. *)
Definition well_formed (u : User) : Prop :=
  3 <= len (username u) /\ 1 <= age u <= 150.

End Accounts.

(** ** The statistics of the dashboard (GET branch of [dashboard])

    The counts and sums the route computes over the user's sessions, and
    the favourite subject.  The figures it derives by floating-point
    division and rounding, and the streak, which needs the calendar, are
    left out. *)

Module Dashboard.

Import Py App.

(** The sessions the route fetches: newest block first. *)
Definition sessions_of (t : Table) (user : Z) : list StudySession :=
  order_by_block_number_desc (filter_by_user_id user t).

Definition total_sessions (sessions : list StudySession) : Z :=
  Z.of_nat (List.length sessions).

Definition completed_sessions (sessions : list StudySession) : Z :=
  Z.of_nat (List.length
              (filter (fun s => (status s =? "completed")%string) sessions)).

Definition pending_sessions (sessions : list StudySession) : Z :=
  Z.of_nat (List.length
              (filter (fun s => (status s =? "pending")%string) sessions)).

(** [sum(s.duration for s in sessions)] *)
Definition total_study_time (sessions : list StudySession) : Z :=
  fold_left Z.add (map duration sessions) 0.

(** A [dict] from subjects to minutes, in insertion order: a key that is
    set again keeps its place. *)
Definition dict := list (string * Z).

Fixpoint dict_get (d : dict) (k : string) (default : Z) : Z :=
  match d with
  | [] => default
  | (k', v) :: d' => if (k' =? k)%string then v else dict_get d' k default
  end.

Fixpoint dict_set (d : dict) (k : string) (v : Z) : dict :=
  match d with
  | [] => [(k, v)]
  | (k', v') :: d' =>
      if (k' =? k)%string then (k', v) :: d'
      else (k', v') :: dict_set d' k v
  end.

Definition subject_counts (sessions : list StudySession) : dict :=
  fold_left
    (fun d s => dict_set d (subject s) (dict_get d (subject s) 0 + duration s))
    sessions [].

(** [max(items, key=lambda x: x[1])]: the first item of largest value. *)
Fixpoint max_by_value (best : string * Z) (items : dict) : string * Z :=
  match items with
  | [] => best
  | x :: rest => max_by_value (if snd best <? snd x then x else best) rest
  end.

Definition favorite_subject (sessions : list StudySession) : string :=
  match subject_counts sessions with
  | [] => "None"
  | x :: rest => fst (max_by_value x rest)
  end.

(** The minutes logged for one subject. *)
Fixpoint subject_total (sessions : list StudySession) (k : string) : Z :=
  match sessions with
  | [] => 0
  | s :: rest =>
      (if (subject s =? k)%string then duration s else 0)
      + subject_total rest k
  end.

(** What [subject_counts] holds after the sessions [l]: one entry per
    subject seen, with the minutes logged for it. *)
Definition counts_of (d : dict) (l : list StudySession) : Prop :=
  NoDup (map fst d) /\
  (forall k, In k (map fst d) <-> In k (map subject l)) /\
  (forall k, dict_get d k 0 = subject_total l k).

End Dashboard.

(** ** The reports of blockchain_utils.py

    [verify_all_chains] and [show_statistics] print; what is modelled is
    what they compute before printing.  The average nonce, a float, is
    left out. *)

Module Reports.

Import Py App Dashboard.

(** [verify_all_chains]: the result for every user, in table order, and
    the two numbers of the summary line, the valid chains and the users. *)
Definition verify_all_chains (users : Accounts.Users) (t : Table)
    : list (Accounts.User * (bool * string * list string)) * (Z * Z) :=
  let results :=
    map (fun user =>
           (user, BlockchainUtils.verify_user_chain t (Accounts.id user)))
        users in
  let valid_chains :=
    fold_left
      (fun valid_chains (r : Accounts.User * (bool * string * list string)) =>
         if fst (fst (snd r)) then valid_chains + 1 else valid_chains)
      results 0 in
  (results, (valid_chains, Z.of_nat (List.length users))).

(** What [show_statistics] prints for a user who has blocks. *)
Record Statistics := mkStatistics
  { total_blocks : Z;
    completed : Z;
    pending : Z;
    total_time : Z;
    subjects : list string;
    latest_block : Z;
    latest_hash : string;
    chain_status : bool }.

(** [subjects[s.subject] = subjects.get(s.subject, 0) + 1] *)
Definition subject_occurrences (sessions : list StudySession) : dict :=
  fold_left
    (fun d s => dict_set d (subject s) (dict_get d (subject s) 0 + 1))
    sessions [].

(** The rows are fetched without [order_by]: table order.  [None] is the
    line "No blockchain data". *)
Definition user_statistics (t : Table) (user : Z) : option Statistics :=
  let sessions := filter_by_user_id user t in
  match rev sessions with
  | [] => None
  | last :: _ =>
      Some (mkStatistics
              (Z.of_nat (List.length sessions))
              (completed_sessions sessions)
              (pending_sessions sessions)
              (total_study_time sessions)
              (map fst (subject_occurrences sessions))
              (block_number last)
              (String.substring 0 16 (hash last))
              (fst (fst (BlockchainUtils.verify_user_chain t user))))
  end.

(** [StudySession.to_dict] *)
Record BlockDict := mkBlockDict
  { d_id : Z;
    d_block_number : Z;
    d_user_id : Z;
    d_date : string;
    d_subject : string;
    d_duration : Z;
    d_status : string;
    d_timestamp : string;
    d_hash : string;
    d_prev_hash : string;
    d_nonce : Z;
    d_difficulty : Z }.

Definition to_dict (s : StudySession) : BlockDict :=
  mkBlockDict (id s) (block_number s) (user_id s) (strftime_date (date s))
    (subject s) (duration s) (status s) (strftime (timestamp s)) (hash s)
    (prev_hash s) (nonce s) (difficulty s).

(** What [export_blockchain] dumps as JSON. *)
Record Export := mkExport
  { ex_user_id : Z;
    ex_username : string;
    ex_created_at : string;
    ex_total_blocks : Z;
    ex_algorithm : string;
    ex_consensus : string;
    ex_difficulty : Z;
    ex_blocks : list BlockDict;
    ex_valid : bool;
    ex_message : string;
    ex_timestamp : string }.

(** [None] where the user id is unknown: nothing is written. *)
Definition export_blockchain (users : Accounts.Users) (t : Table)
    (user_id : Z) (now : Py.datetime) : option Export :=
  match find (fun u => Accounts.id u =? user_id) users with
  | None => None
  | Some user =>
      let sessions := user_chain t user_id in
      let '(is_valid, message, _) :=
        BlockchainUtils.verify_user_chain t user_id in
      Some (mkExport (Accounts.id user) (Accounts.username user)
              (strftime (Accounts.created_at user))
              (Z.of_nat (List.length sessions))
              "SHA-256" "Proof of Work"
              (match sessions with s :: _ => difficulty s | [] => 0 end)
              (map to_dict sessions)
              is_valid message (strftime now))
  end.

End Reports.

Example sha256_abc :
  SHA256.hexdigest "abc"
  = "ba7816bf8f01cfea414140de5dae2223b00361a396177a9cb410ff61f20015ad".
Proof. vm_compute. reflexivity. Qed.

Example sha256_empty :
  SHA256.hexdigest ""
  = "e3b0c44298fc1c149afbf4c8996fb92427ae41e4649b934ca495991b7852b855".
Proof. vm_compute. reflexivity. Qed.

Example sha256_two_blocks :
  SHA256.hexdigest "abcdbcdecdefdefgefghfghighijhijkijkljklmklmnlmnomnopnopq"
  = "248d6a61d20638b8e5c026930c3e6039a33ce45964ff2167f6ecedd419db06c1".
Proof. vm_compute. reflexivity. Qed.

Example str_examples :
  (Py.str 0, Py.str 1000000, Py.str (-42)) = ("0", "1000000", "-42").
Proof. reflexivity. Qed.

Example strftime_example :
  Py.strftime (Py.mkDatetime (Py.mkDate 2024 1 2) 3 4 5 678)
  = "2024-01-02 03:04:05".
Proof. reflexivity. Qed.

Example strftime_short_year :
  (Py.strftime (Py.mkDatetime (Py.mkDate 999 1 2) 3 4 5 0),
   Py.isoformat (Py.mkDate 999 1 2))
  = ("999-01-02 03:04:05", "0999-01-02").
Proof. reflexivity. Qed.

Example scenario_appends : Scenario.table2 = [Scenario.block1; Scenario.block2].
Proof. vm_compute. reflexivity. Qed.

(** A duration of 2^63 minutes passes validation and is mined, but the
    commit raises: the request is answered "Failed to add session" and no
    row is stored. *)
Example over_wide_duration_is_not_stored :
  App.dashboard_post App.app_config [] 1 Scenario.form_wide Scenario.now_wide
  = ([], App.Failed).
Proof. vm_compute. reflexivity. Qed.

Example scenario_verifies :
  App.verify_chain Scenario.table2 1 = (true, "Blockchain is valid").
Proof. vm_compute. reflexivity. Qed.

(** Marking block 2 of the scenario completed goes around the miner: the
    stored hash no longer covers the stored status. *)
Example update_status_is_not_remined :
  App.verify_chain
    (fst (App.update_status (Some 1) 2 [Scenario.block1; Scenario.block2])) 1
  = (false, "Block 2 has invalid hash").
Proof. vm_compute. reflexivity. Qed.

(** ** Facts on strings and on the Python helpers *)

Module StringFacts.

Lemma length_append (s t : string) :
  String.length (s ++ t) = (String.length s + String.length t)%nat.
Proof. induction s as [|c s IH]; simpl; [reflexivity | now rewrite IH]. Qed.

Lemma append_cancel_l (s a b : string) : s ++ a = s ++ b -> a = b.
Proof.
  induction s as [|c s IH]; simpl; intros H; [exact H | ].
  injection H as H. now apply IH.
Qed.

(** Two concatenations that agree, with heads of the same length, agree
    part by part. *)
Lemma append_split (s s' a b : string) :
  String.length s = String.length s' ->
  s ++ a = s' ++ b -> s = s' /\ a = b.
Proof.
  revert s'. induction s as [|c s IH]; intros [|c' s'] L H;
    simpl in *; try discriminate.
  - now split.
  - injection H as Hc H. injection L as L.
    destruct (IH s' L H) as [-> ->]. now subst.
Qed.

Lemma append_cancel_r (a b s : string) : a ++ s = b ++ s -> a = b.
Proof.
  intros H. apply append_split in H; [tauto | ].
  apply (f_equal String.length) in H. rewrite !length_append in H. lia.
Qed.

Lemma prefix_length (t s : string) :
  String.prefix t s = true -> (String.length t <= String.length s)%nat.
Proof.
  revert s. induction t as [|c t IH]; intros [|d s]; simpl;
    try discriminate; try lia.
  destruct (ascii_dec c d); [ | discriminate].
  intros H. apply IH in H. lia.
Qed.

End StringFacts.

Module PyFacts.

Import Py StringFacts.

Lemma to_int_not_nil (z : Z) :
  Z.to_int z <> Decimal.Pos Decimal.Nil /\
  Z.to_int z <> Decimal.Neg Decimal.Nil.
Proof.
  split; intros E; pose proof (f_equal Z.of_int E) as E';
    rewrite DecimalZ.of_to in E'; simpl in E'; subst z; discriminate E.
Qed.

Lemma str_inj (a b : Z) : str a = str b -> a = b.
Proof.
  unfold str. intros H.
  apply (f_equal NilZero.int_of_string) in H.
  destruct (to_int_not_nil a) as [Ha Ha'], (to_int_not_nil b) as [Hb Hb'].
  rewrite !NilZero.isi in H by assumption.
  injection H as H. now apply DecimalZ.to_int_inj.
Qed.

Lemma length_repeat_string (c : string) (n : nat) :
  String.length (repeat_string c n) = (n * String.length c)%nat.
Proof.
  induction n as [|n IH]; simpl; [reflexivity | ].
  rewrite length_append, IH. lia.
Qed.

Lemma length_str_mul (n : Z) :
  String.length (str_mul "0" n) = Z.to_nat n.
Proof. unfold str_mul. rewrite length_repeat_string. simpl. lia. Qed.

(** A target longer than the string is never a prefix of it. *)
Lemma startswith_too_long (s : string) (n : Z) :
  Z.of_nat (String.length s) < n -> startswith s (str_mul "0" n) = false.
Proof.
  intros L. unfold startswith.
  destruct (String.prefix (str_mul "0" n) s) eqn:E; [ | reflexivity].
  apply prefix_length in E. rewrite length_str_mul in E. lia.
Qed.

(** A hexdigest has 64 characters, whatever was hashed. *)
Lemma length_hexdigest (s : string) : String.length (SHA256.hexdigest s) = 64%nat.
Proof. reflexivity. Qed.

End PyFacts.

(** ** The proof-of-work search *)

Module MiningFacts.

Import Notions Py App PyFacts.

Section Loop.

Variable cfg : Config.
Variables (block_number : Z) (timestamp prev_hash data : string)
          (difficulty : Z).

Let attempt (n : Z) : string :=
  calculate_hash block_number timestamp prev_hash data n difficulty.
Let target : string := str_mul "0" difficulty.
Let compliant (n : Z) : bool := startswith (attempt n) target.
Local Abbreviation exit_ok :=
  (Notions.exit_ok cfg block_number timestamp prev_hash data difficulty).

Lemma mine_while_exit (fuel : nat) :
  forall nonce hash_result,
    MAX_NONCE cfg - nonce <= Z.of_nat fuel ->
    exit_ok nonce hash_result
      (mine_while cfg block_number timestamp prev_hash data difficulty
                  fuel nonce hash_result).
Proof.
  induction fuel as [|fuel IH]; intros nonce hr Hfuel; cbn [mine_while].
  - cbn [Notions.exit_ok].
    destruct (Z.ltb_spec nonce (MAX_NONCE cfg)); [lia | ].
    repeat split; [lia | intros; lia].
  - destruct (Z.ltb_spec nonce (MAX_NONCE cfg)) as [Hlt | Hge].
    + fold (attempt nonce). fold target. fold (compliant nonce).
      destruct (compliant nonce) eqn:Hc.
      * cbn [Notions.exit_ok]. repeat split; try lia; try assumption.
      * specialize (IH (nonce + 1) (Some (attempt nonce)) ltac:(lia)).
        destruct (mine_while _ _ _ _ _ _ fuel (nonce + 1) _) as [h n | n h];
          cbn [Notions.exit_ok] in *.
        -- destruct IH as (Hn & Hh & Hcn & Hall). repeat split; try lia;
             try assumption.
           intros k Hk. destruct (Z.eq_dec k nonce) as [-> | Hne];
             [assumption | apply Hall; lia].
        -- destruct IH as (Hn & Hall & Hh). repeat split; [lia | | ].
           ++ intros k Hk. destruct (Z.eq_dec k nonce) as [-> | Hne];
                [assumption | apply Hall; lia].
           ++ destruct (Z.ltb_spec nonce (MAX_NONCE cfg)); [ | lia].
              destruct (Z.ltb_spec (nonce + 1) (MAX_NONCE cfg)) as [ | Hlast];
                [assumption | ].
              subst h. unfold attempt. do 2 f_equal. lia.
    + cbn [Notions.exit_ok].
      destruct (Z.ltb_spec nonce (MAX_NONCE cfg)); [lia | ].
      repeat split; [lia | intros; lia].
Qed.

(** [MAX_NONCE] turns of fuel are enough: more fuel changes nothing. *)
Lemma mine_while_enough_fuel (fuel : nat) :
  forall extra nonce hash_result,
    MAX_NONCE cfg - nonce <= Z.of_nat fuel ->
    mine_while cfg block_number timestamp prev_hash data difficulty
               (fuel + extra) nonce hash_result
    = mine_while cfg block_number timestamp prev_hash data difficulty
                 fuel nonce hash_result.
Proof.
  induction fuel as [|fuel IH]; intros extra nonce hr Hfuel.
  - destruct extra as [|extra]; cbn [mine_while Nat.add]; [reflexivity | ].
    destruct (Z.ltb_spec nonce (MAX_NONCE cfg)); [lia | reflexivity].
  - cbn [mine_while Nat.add].
    destruct (nonce <? MAX_NONCE cfg); [ | reflexivity].
    destruct (startswith _ _); [reflexivity | ].
    apply IH. lia.
Qed.

Lemma mine_search_exit :
  exit_ok 0 None
    (mine_search cfg block_number timestamp prev_hash data difficulty).
Proof. apply mine_while_exit. lia. Qed.

(** The search when no nonce below the ceiling is compliant. *)
Lemma mine_search_exhausted :
  0 < MAX_NONCE cfg ->
  (forall k, 0 <= k < MAX_NONCE cfg -> compliant k = false) ->
  mine_search cfg block_number timestamp prev_hash data difficulty
  = FellThrough (MAX_NONCE cfg) (Some (attempt (MAX_NONCE cfg - 1))).
Proof.
  intros Hpos Hnone. pose proof mine_search_exit as E.
  destruct (mine_search _ _ _ _ _ _) as [h n | n h]; cbn [Notions.exit_ok] in E.
  - destruct E as (Hn & _ & Hc & _). specialize (Hnone n ltac:(lia)).
    unfold compliant, attempt, target in Hnone. congruence.
  - destruct E as (-> & _ & ->).
    destruct (Z.ltb_spec 0 (MAX_NONCE cfg)); [ | lia].
    f_equal. lia.
Qed.

(** No digest starts with more than 64 zeros, so a longer target sends the
    search to the ceiling. *)
Lemma mine_search_target_too_long :
  0 < MAX_NONCE cfg -> 64 < difficulty ->
  mine_search cfg block_number timestamp prev_hash data difficulty
  = FellThrough (MAX_NONCE cfg) (Some (attempt (MAX_NONCE cfg - 1))).
Proof.
  intros Hpos Hd. apply mine_search_exhausted; [assumption | ].
  intros k _. apply startswith_too_long.
  unfold attempt, calculate_hash. rewrite length_hexdigest. lia.
Qed.

(** What every call of [mine_block] returns, whatever the configuration:
    a digest computed for the returned nonce, and a compliant one when the
    nonce is below the ceiling. *)
Lemma mine_block_result :
  let r := mine_block cfg block_number timestamp prev_hash data difficulty in
  fst r = attempt (snd r) /\
  (snd r < MAX_NONCE cfg -> startswith (fst r) target = true).
Proof.
  intros r. subst r. unfold mine_block.
  pose proof mine_search_exit as E.
  destruct (mine_search _ _ _ _ _ _) as [h n | n h]; cbn [Notions.exit_ok] in E;
    cbn [fst snd].
  - destruct E as (_ & -> & Hc & _). split; [reflexivity | intros _; exact Hc].
  - destruct E as (-> & _). split; [reflexivity | lia].
Qed.

End Loop.

(** C4.  For every input and every difficulty [d] (so for every [d >= 0]),
    [mine_block] ends in one of two ways and no other: either the loop
    returned a hash that starts with [d] zero characters, found at a nonce
    below the ceiling, or the loop ran its full 1,000,000 turns, every nonce
    from 0 to 999,999 having been tried and found short of the target, and
    the nonce returned is 1,000,000. *)
Theorem mine_block_compliant_or_ceiling
    (bn : Z) (ts prev data : string) (d : Z) :
  let r := mine_block app_config bn ts prev data d in
  (mine_search app_config bn ts prev data d = Returned (fst r) (snd r) /\
   startswith (fst r) (str_mul "0" d) = true /\ 0 <= snd r < 1000000)
  \/
  (mine_search app_config bn ts prev data d
     = FellThrough 1000000 (Some (calculate_hash bn ts prev data 999999 d)) /\
   snd r = 1000000 /\
   forall k, 0 <= k < 1000000 ->
     startswith (calculate_hash bn ts prev data k d) (str_mul "0" d) = false).
Proof.
  intros r. subst r. unfold mine_block.
  pose proof (mine_search_exit app_config bn ts prev data d) as E.
  destruct (mine_search app_config bn ts prev data d) as [h n | n h];
    cbn [exit_ok] in E; cbn [fst snd].
  - left. destruct E as (Hn & -> & Hc & _).
    change (MAX_NONCE app_config) with 1000000 in Hn. now repeat split.
  - right. destruct E as (Hn & Hall & Hh).
    change (MAX_NONCE app_config) with 1000000 in *.
    change (0 <? 1000000) with true in Hh. change (1000000 - 1) with 999999 in Hh.
    assert (n = 1000000) as -> by lia. subst h. now repeat split.
Qed.

(** C10.  The pair [mine_block] returns is self-consistent for every
    input: the hash is [calculate_hash] of the same fields with the
    returned nonce, and the nonce lies between 0 and 1,000,000 inclusive. *)
Theorem mine_block_self_consistent
    (bn : Z) (ts prev data : string) (d : Z) :
  let r := mine_block app_config bn ts prev data d in
  fst r = calculate_hash bn ts prev data (snd r) d /\
  0 <= snd r <= 1000000.
Proof.
  intros r. subst r. unfold mine_block.
  pose proof (mine_search_exit app_config bn ts prev data d) as E.
  destruct (mine_search app_config bn ts prev data d) as [h n | n h];
    cbn [exit_ok] in E; cbn [fst snd].
  - destruct E as (Hn & Hh & _).
    change (MAX_NONCE app_config) with 1000000 in Hn. split; [exact Hh | lia].
  - destruct E as (Hn & _).
    change (MAX_NONCE app_config) with 1000000 in Hn. split; [reflexivity | lia].
Qed.

(** C5, as the code has it.  When the loop of [mine_block] reaches the
    ceiling without a compliant digest, the call does not fail.  The loop
    leaves [nonce = 1,000,000] and [hash_result] the digest of its last
    turn, the one for nonce 999,999; what is returned is the nonce
    1,000,000 with a digest computed for it after the loop, which the
    search never tested. *)
Theorem mine_block_at_ceiling
    (bn : Z) (ts prev data : string) (d n : Z) (hash_result : option string) :
  mine_search app_config bn ts prev data d = FellThrough n hash_result ->
  n = 1000000 /\
  hash_result = Some (calculate_hash bn ts prev data 999999 d) /\
  mine_block app_config bn ts prev data d
  = (calculate_hash bn ts prev data 1000000 d, 1000000) /\
  forall k, 0 <= k < 1000000 ->
    startswith (calculate_hash bn ts prev data k d) (str_mul "0" d) = false.
Proof.
  intros Hs. unfold mine_block. rewrite Hs.
  pose proof (mine_search_exit app_config bn ts prev data d) as E.
  rewrite Hs in E. cbn [exit_ok] in E. destruct E as (Hn & Hall & Hh).
  change (MAX_NONCE app_config) with 1000000 in *.
  change (0 <? 1000000) with true in Hh. change (1000000 - 1) with 999999 in Hh.
  assert (n = 1000000) as -> by lia. now repeat split.
Qed.

End MiningFacts.

Module MiningExamples.

Import Notions Py App MiningFacts Scenario.

(** A search that is certain to reach the ceiling: block 1 of the scenario
    mined for 65 leading zeros, one more than a digest has characters. *)
Lemma search_for_65_zeros :
  mine_search app_config 1 ts1 sentinel data1 65
  = FellThrough 1000000 (Some (calculate_hash 1 ts1 sentinel data1 999999 65)).
Proof.
  exact (mine_search_target_too_long app_config 1 ts1 sentinel data1 65
           eq_refl eq_refl).
Qed.

Lemma mine_block_at_ceiling_witness :
  mine_search app_config 1 ts1 sentinel data1 65
  = FellThrough 1000000 (Some (calculate_hash 1 ts1 sentinel data1 999999 65))
  /\
  (1000000 = 1000000 /\
   Some (calculate_hash 1 ts1 sentinel data1 999999 65)
   = Some (calculate_hash 1 ts1 sentinel data1 999999 65) /\
   mine_block app_config 1 ts1 sentinel data1 65
   = (calculate_hash 1 ts1 sentinel data1 1000000 65, 1000000) /\
   forall k, 0 <= k < 1000000 ->
     startswith (calculate_hash 1 ts1 sentinel data1 k 65) (str_mul "0" 65)
     = false).
Proof.
  split; [exact search_for_65_zeros | ].
  exact (mine_block_at_ceiling 1 ts1 sentinel data1 65 1000000 _
           search_for_65_zeros).
Defined.

(** C5 as stated fails.  Mining block 1 of the scenario for 65 zeros
    reaches the ceiling.  The final attempt of the search is the loop's
    turn for nonce 999,999, whose digest 01b6.. is what [hash_result] holds
    when the loop ends; the call returns another pair, the nonce 1,000,000
    with the digest 6590.. computed for it after the loop. *)
Lemma mine_block_ceiling_not_last_attempt :
  mine_search app_config 1 ts1 sentinel data1 65
  = FellThrough 1000000
      (Some "01b677b579f06cc8304d45b60da4d7d4013014c19f33997bb7d0ad8a97760c19")
  /\
  mine_block app_config 1 ts1 sentinel data1 65
  = ("659068153b371c970a497083946758dd8cbd33e791f3c7e6dd6039bbd6726b5e",
     1000000)
  /\
  mine_block app_config 1 ts1 sentinel data1 65
  <> ("01b677b579f06cc8304d45b60da4d7d4013014c19f33997bb7d0ad8a97760c19",
      999999).
Proof.
  assert (H999999 : calculate_hash 1 ts1 sentinel data1 999999 65
    = "01b677b579f06cc8304d45b60da4d7d4013014c19f33997bb7d0ad8a97760c19")
    by (vm_compute; reflexivity).
  assert (H1000000 : calculate_hash 1 ts1 sentinel data1 1000000 65
    = "659068153b371c970a497083946758dd8cbd33e791f3c7e6dd6039bbd6726b5e")
    by (vm_compute; reflexivity).
  pose proof search_for_65_zeros as Hs. rewrite H999999 in Hs.
  split; [exact Hs | ].
  unfold mine_block. rewrite Hs, H1000000.
  split; [reflexivity | intros E; discriminate E].
Qed.

End MiningExamples.

(** ** The two verifiers *)

Module VerifierFacts.

Import Notions Py App StringFacts PyFacts.

Lemma last_seen_cons prev x l : last_seen prev (x :: l) = last_seen (Some x) l.
Proof.
  unfold last_seen. simpl. destruct (rev l) as [|y r] eqn:E; reflexivity.
Qed.

Lemma last_seen_snoc prev l x : last_seen prev (l ++ [x]) = Some x.
Proof. unfold last_seen. now rewrite rev_unit. Qed.

Lemma utils_calculated_hash (s : StudySession) :
  BlockchainUtils.calculated_hash s = App.calculated_hash s.
Proof. reflexivity. Qed.

Lemma verify_loop_verdict (l : list StudySession) :
  forall prev, fst (verify_loop prev l) = all_pass prev l.
Proof.
  induction l as [|s rest IH]; intros prev; cbn [verify_loop all_pass];
    [reflexivity | ].
  unfold passes.
  destruct (calculated_hash s =? hash s)%string; [ | reflexivity].
  destruct prev as [p | ]; cbn [negb andb].
  - destruct (prev_hash s =? hash p)%string; [ | reflexivity].
    cbn [negb andb].
    destruct (startswith _ _); [apply IH | reflexivity].
  - destruct (startswith _ _); [apply IH | reflexivity].
Qed.

Lemma verify_loop_app (l1 l2 : list StudySession) :
  forall prev,
    verify_loop prev (l1 ++ l2)
    = if all_pass prev l1 then verify_loop (last_seen prev l1) l2
      else verify_loop prev l1.
Proof.
  induction l1 as [|s rest IH]; intros prev; [reflexivity | ].
  rewrite last_seen_cons. cbn [app verify_loop all_pass]. unfold passes.
  destruct (calculated_hash s =? hash s)%string; [ | reflexivity].
  destruct prev as [p | ]; cbn [negb andb].
  - destruct (prev_hash s =? hash p)%string; [ | reflexivity].
    cbn [negb andb].
    destruct (startswith _ _); [apply IH | reflexivity].
  - destruct (startswith _ _); [apply IH | reflexivity].
Qed.

Lemma all_pass_app (l1 l2 : list StudySession) :
  forall prev,
    all_pass prev (l1 ++ l2)
    = all_pass prev l1 && all_pass (last_seen prev l1) l2.
Proof.
  induction l1 as [|s rest IH]; intros prev; [reflexivity | ].
  rewrite last_seen_cons. cbn [app all_pass]. rewrite IH.
  now rewrite andb_assoc.
Qed.

Lemma verify_sessions_verdict (l : list StudySession) :
  fst (verify_sessions l) = all_pass None l.
Proof. destruct l; [reflexivity | apply verify_loop_verdict]. Qed.

Lemma utils_verify_loop_cons prev s rest errors :
  BlockchainUtils.verify_loop prev (s :: rest) errors
  = BlockchainUtils.verify_loop (Some s) rest
      (errors ++ block_errors prev s)%list.
Proof.
  cbn [BlockchainUtils.verify_loop]. rewrite utils_calculated_hash.
  unfold block_errors, block_label.
  destruct (calculated_hash s =? hash s)%string;
    destruct (startswith (hash s) (str_mul "0" (difficulty s)));
    destruct prev as [p | ];
    try destruct (prev_hash s =? hash p)%string;
    cbn [negb app]; rewrite ?app_nil_r, <- ?app_assoc; reflexivity.
Qed.

(** The batch loop only ever adds to what it was given. *)
Lemma utils_verify_loop_errors (l : list StudySession) :
  forall prev errors,
    BlockchainUtils.verify_loop prev l errors
    = (errors ++ all_errors prev l)%list.
Proof.
  induction l as [|s rest IH]; intros prev errors.
  - cbn. now rewrite app_nil_r.
  - rewrite utils_verify_loop_cons, IH. cbn [all_errors].
    now rewrite app_assoc.
Qed.

Lemma block_errors_nil prev s :
  block_errors prev s = [] <-> passes prev s = true.
Proof.
  unfold block_errors, passes.
  destruct (calculated_hash s =? hash s)%string;
    destruct (startswith (hash s) (str_mul "0" (difficulty s)));
    destruct prev as [p | ];
    try destruct (prev_hash s =? hash p)%string;
    cbn [andb app]; split; (reflexivity || discriminate).
Qed.

Lemma all_errors_nil (l : list StudySession) :
  forall prev, all_errors prev l = [] <-> all_pass prev l = true.
Proof.
  induction l as [|s rest IH]; intros prev; cbn [all_errors all_pass];
    [tauto | ].
  rewrite andb_true_iff, <- IH, <- block_errors_nil.
  split.
  - intros H. now apply app_eq_nil in H.
  - intros [-> ->]. reflexivity.
Qed.

Lemma all_errors_app (l1 l2 : list StudySession) :
  forall prev,
    all_errors prev (l1 ++ l2)
    = (all_errors prev l1 ++ all_errors (last_seen prev l1) l2)%list.
Proof.
  induction l1 as [|s rest IH]; intros prev; [reflexivity | ].
  rewrite last_seen_cons. cbn [app all_errors]. rewrite IH.
  now rewrite app_assoc.
Qed.

Lemma utils_verify_loop_nil (l : list StudySession) :
  forall prev,
    BlockchainUtils.verify_loop prev l [] = [] <-> all_pass prev l = true.
Proof.
  intros prev. rewrite utils_verify_loop_errors. apply all_errors_nil.
Qed.

Lemma utils_verify_sessions_errors (l : list StudySession) :
  snd (BlockchainUtils.verify_sessions l)
  = BlockchainUtils.verify_loop None l [].
Proof.
  destruct l as [|s rest]; [reflexivity | ].
  unfold BlockchainUtils.verify_sessions.
  destruct (BlockchainUtils.verify_loop None (s :: rest) []); reflexivity.
Qed.

Lemma utils_verify_sessions_verdict (l : list StudySession) :
  fst (fst (BlockchainUtils.verify_sessions l)) = all_pass None l.
Proof.
  destruct l as [|s rest]; [reflexivity | ].
  unfold BlockchainUtils.verify_sessions.
  pose proof (utils_verify_loop_nil (s :: rest) None) as H.
  destruct (BlockchainUtils.verify_loop None (s :: rest) []) as [|e es];
    cbn [fst].
  - symmetry. now apply H.
  - destruct (all_pass None (s :: rest)); [ | reflexivity].
    destruct H as [_ H]. discriminate (H eq_refl).
Qed.

(** C6.  On every list of blocks, and so on every user's chain as the two
    routines fetch it, the fail-fast verifier of app.py and the batch
    verifier of blockchain_utils.py reach the same verdict: the fail-fast
    verdict is true exactly when the batch verifier reports no error, and
    it equals the batch verifier's own flag. *)
Theorem verifiers_agree :
  (forall sessions : list StudySession,
     (fst (App.verify_sessions sessions) = true
      <-> snd (BlockchainUtils.verify_sessions sessions) = []) /\
     fst (fst (BlockchainUtils.verify_sessions sessions))
     = fst (App.verify_sessions sessions)) /\
  (forall (t : Table) (user_id : Z),
     (fst (App.verify_chain t user_id) = true
      <-> snd (BlockchainUtils.verify_user_chain t user_id) = []) /\
     fst (fst (BlockchainUtils.verify_user_chain t user_id))
     = fst (App.verify_chain t user_id)).
Proof.
  assert (H : forall sessions : list StudySession,
     (fst (App.verify_sessions sessions) = true
      <-> snd (BlockchainUtils.verify_sessions sessions) = []) /\
     fst (fst (BlockchainUtils.verify_sessions sessions))
     = fst (App.verify_sessions sessions)).
  { intros l. rewrite verify_sessions_verdict, utils_verify_sessions_errors,
      utils_verify_sessions_verdict.
    split; [symmetry; apply utils_verify_loop_nil | reflexivity]. }
  split; [exact H | ].
  intros t u. apply H.
Qed.

End VerifierFacts.

(** ** The routes that leave the chain alone *)

Module RouteFacts.

Import Py App.

(** C9.  [delete_session] never deletes: whoever calls it, for whatever
    session id and whatever the table holds, the table comes back as it
    was, so every chain and every field of every block is unchanged.  All
    the route does besides is answer: a logged-in caller is sent to the
    dashboard with the integrity warning flashed, and a visitor who is not
    logged in is sent to the login page with nothing flashed. *)
Theorem delete_session_deletes_nothing
    (login : option Z) (session_id : Z) (t : Table) :
  fst (delete_session login session_id t) = t /\
  (forall u, user_chain (fst (delete_session login session_id t)) u
             = user_chain t u) /\
  snd (delete_session login session_id t)
  = match login with
    | Some _ => Redirect "dashboard" [delete_warning]
    | None => Redirect "login" []
    end.
Proof. destruct login; repeat split. Qed.

End RouteFacts.

(** ** The serialized form of a block *)

Module SerializationFacts.

Import Notions Py App Tamper StringFacts PyFacts.

(** A non-negative number prints as the digits of its decimal form. *)
Lemma str_nonneg (n : Z) :
  0 <= n -> str n = NilEmpty.string_of_uint (N.to_uint (Z.to_N n)).
Proof.
  intros Hn. unfold str. destruct n as [|p|p]; [reflexivity | | lia].
  cbn [Z.to_int Z.to_N N.to_uint NilZero.string_of_int].
  unfold NilZero.string_of_uint.
  pose proof (DecimalPos.Unsigned.to_uint_nonnil p) as Hp.
  now destruct (Pos.to_uint p).
Qed.

Lemma read_zeros (k : nat) (s : string) :
  read_number (repeat_string "0" k ++ s) = read_number s.
Proof.
  induction k as [|k IH]; [reflexivity | ].
  rewrite <- IH. unfold read_number. cbn [repeat_string append].
  cbn [NilEmpty.uint_of_string].
  now destruct (NilEmpty.uint_of_string (repeat_string "0" k ++ s)).
Qed.

Lemma read_zero_pad (w : nat) (n : Z) :
  0 <= n -> read_number (zero_pad w n) = Some (Z.to_N n).
Proof.
  intros Hn. unfold zero_pad. rewrite read_zeros, (str_nonneg n Hn).
  unfold read_number. rewrite NilEmpty.usu. cbn [option_map].
  now rewrite DecimalN.Unsigned.of_to.
Qed.

Lemma zero_pad_inj (w : nat) (a b : Z) :
  0 <= a -> 0 <= b -> zero_pad w a = zero_pad w b -> a = b.
Proof.
  intros Ha Hb H. apply (f_equal read_number) in H.
  rewrite !read_zero_pad in H by assumption. injection H as H. lia.
Qed.

Lemma no_dash_digits (d : Decimal.uint) :
  no_dash (NilEmpty.string_of_uint d) = true.
Proof. induction d; cbn; assumption || reflexivity. Qed.

Lemma no_dash_zero_pad (w : nat) (n : Z) :
  0 <= n -> no_dash (zero_pad w n) = true.
Proof.
  intros Hn. unfold zero_pad. rewrite (str_nonneg n Hn).
  induction (w - _)%nat as [|k IH]; cbn [repeat_string append no_dash].
  - apply no_dash_digits.
  - exact IH.
Qed.

Lemma split_at_dash (s s' a b : string) :
  no_dash s = true -> no_dash s' = true ->
  s ++ "-" ++ a = s' ++ "-" ++ b -> s = s' /\ a = b.
Proof.
  revert s'. induction s as [|c s IH]; intros [|c' s'] Hs Hs' H;
    cbn [append no_dash] in *.
  - injection H as H. now split.
  - injection H as Hc _. subst c'. discriminate.
  - injection H as Hc _. subst c. discriminate.
  - injection H as Hc H. apply andb_prop in Hs as [_ Hs].
    apply andb_prop in Hs' as [_ Hs'].
    destruct (IH s' Hs Hs' H) as [-> ->]. now subst.
Qed.

Lemma date_in_range_spec (d : Py.date) :
  date_in_range d = true ->
  1 <= year d <= 9999 /\ 1 <= month d <= 12 /\ 1 <= day d <= 31.
Proof. unfold date_in_range. lia. Qed.

(** [str] of a date determines the date. *)
Lemma isoformat_inj (d d' : Py.date) :
  date_in_range d = true -> date_in_range d' = true ->
  isoformat d = isoformat d' -> d = d'.
Proof.
  intros R R' H.
  apply date_in_range_spec in R, R'.
  destruct d as [y m a], d' as [y' m' a']; cbn [year month day] in *.
  unfold isoformat in H; cbn [year month day] in H.
  apply split_at_dash in H as [Hy H];
    [ | apply no_dash_zero_pad; lia | apply no_dash_zero_pad; lia].
  apply split_at_dash in H as [Hm H];
    [ | apply no_dash_zero_pad; lia | apply no_dash_zero_pad; lia].
  apply zero_pad_inj in Hy; [ | lia | lia].
  apply zero_pad_inj in Hm; [ | lia | lia].
  apply zero_pad_inj in H; [ | lia | lia].
  now subst.
Qed.

(** Changing one payload field changes the string that is hashed: with the
    other fields fixed, the lack of separators hides nothing. *)
Lemma update_changes_block_data (u : field_update) (s : StudySession) :
  update_in_range u s = true ->
  apply_update u s <> s ->
  session_block_data (apply_update u s) <> session_block_data s.
Proof.
  intros R Hne H. apply Hne. clear Hne.
  unfold session_block_data, block_data, session_data, payload in H.
  destruct s as [i us d sb du st bn ts h ph no di].
  destruct u as [d' | sb' | du' | st'];
    cbn [apply_update with_status App.date App.subject App.duration
         App.status App.block_number App.timestamp App.prev_hash App.nonce
         App.difficulty update_in_range] in *;
    do 3 apply append_cancel_l in H;
    apply append_cancel_r in H.
  - apply append_cancel_r in H. apply andb_prop in R as [R' R].
    apply isoformat_inj in H; [now subst | assumption | assumption].
  - apply append_cancel_l in H. apply append_cancel_r in H. now subst.
  - do 2 apply append_cancel_l in H. apply append_cancel_r in H.
    apply str_inj in H. now subst.
  - do 3 apply append_cancel_l in H. now subst.
Qed.

End SerializationFacts.

(** ** Tampering is detected *)

Module TamperFacts.

Import Notions Py App Tamper StringFacts PyFacts VerifierFacts SerializationFacts.

Lemma all_pass_cons_inv prev s rest :
  all_pass prev (s :: rest) = true ->
  calculated_hash s = hash s /\
  match prev with Some p => prev_hash s = hash p | None => True end /\
  startswith (hash s) (str_mul "0" (difficulty s)) = true /\
  all_pass (Some s) rest = true.
Proof.
  cbn [all_pass]. unfold passes. intros H.
  apply andb_prop in H as [H Hrest]. apply andb_prop in H as [H Hd].
  apply andb_prop in H as [Hh Hl]. apply String.eqb_eq in Hh.
  repeat split; try assumption.
  destruct prev; [now apply String.eqb_eq | exact I].
Qed.

Lemma verify_sessions_app_cons pre b post :
  verify_sessions (pre ++ b :: post)
  = if all_pass None pre then verify_loop (last_seen None pre) (b :: post)
    else verify_loop None pre.
Proof.
  rewrite <- verify_loop_app.
  destruct pre; reflexivity.
Qed.

(** C2, as the code has it.  In a chain that verifies, changing one
    payload field of a committed block (date, subject, duration or status)
    to another value without re-mining makes the verifier return invalid
    with the "invalid hash" diagnosis naming that block, and the blocks
    before it still pass, provided SHA-256 does not give the changed block
    the digest of the block as it was.  Dates stay within the ranges of
    [datetime.date]. *)
Theorem payload_tamper_detected
    (pre post : list StudySession) (b : StudySession) (u : field_update) :
  fst (verify_sessions (pre ++ b :: post)) = true ->
  update_in_range u b = true ->
  apply_update u b <> b ->
  no_collision (session_block_data (apply_update u b))
               (session_block_data b) ->
  verify_sessions (pre ++ apply_update u b :: post)
  = (false, "Block " ++ str (block_number b) ++ " has invalid hash") /\
  fst (verify_sessions pre) = true.
Proof.
  intros Hvalid Hrange Hchanged Hsha.
  rewrite verify_sessions_verdict, all_pass_app in Hvalid.
  apply andb_prop in Hvalid as [Hpre Hb].
  apply all_pass_cons_inv in Hb as (Hhash & _).
  split; [ | now rewrite verify_sessions_verdict].
  rewrite verify_sessions_app_cons, Hpre. cbn [verify_loop].
  assert (Hstored : hash (apply_update u b) = hash b)
    by (destruct u; reflexivity).
  assert (Hnumber : block_number (apply_update u b) = block_number b)
    by (destruct u; reflexivity).
  assert (Hbad : (calculated_hash (apply_update u b)
                  =? hash (apply_update u b))%string = false).
  { apply String.eqb_neq. rewrite Hstored, <- Hhash. intros E.
    apply (update_changes_block_data u b Hrange Hchanged).
    apply Hsha. exact E. }
  rewrite Hbad. cbn [negb]. unfold block_label. now rewrite Hnumber.
Qed.

(** C3, as the code has it.  In a chain that verifies, replacing the
    [prev_hash] of a block that has a predecessor with another value has
    the batch verifier report "Broken chain link" for that block.  The
    fail-fast verifier returns invalid for that block too, but its hash
    check runs first and [prev_hash] is part of what is hashed, so the
    diagnosis it gives is "invalid hash"; "broken chain link" surfaces
    there only if the recomputed digest still equals the stored hash.  The
    chain up to and including the predecessor still verifies. *)
Theorem link_break_detected
    (pre post : list StudySession) (p b : StudySession) (h : string) :
  fst (verify_sessions (pre ++ p :: b :: post)) = true ->
  h <> prev_hash b ->
  In ("Block " ++ str (block_number b) ++ ": Broken chain link")
     (snd (BlockchainUtils.verify_sessions
             (pre ++ p :: with_prev_hash h b :: post))) /\
  verify_sessions (pre ++ p :: with_prev_hash h b :: post)
  = (false,
     if (calculated_hash (with_prev_hash h b) =? hash b)%string
     then "Block " ++ str (block_number b) ++ " has broken chain link"
     else "Block " ++ str (block_number b) ++ " has invalid hash") /\
  fst (verify_sessions (pre ++ [p])) = true.
Proof.
  intros Hvalid Hother.
  rewrite verify_sessions_verdict in Hvalid.
  change (pre ++ p :: b :: post)%list
    with (pre ++ [p] ++ b :: post)%list in Hvalid.
  rewrite app_assoc, all_pass_app, last_seen_snoc in Hvalid.
  apply andb_prop in Hvalid as [Hpre Hb].
  apply all_pass_cons_inv in Hb as (_ & Hlink & _).
  assert (Hbroken : (prev_hash (with_prev_hash h b) =? hash p)%string = false).
  { apply String.eqb_neq. cbn [with_prev_hash prev_hash]. congruence. }
  repeat split.
  - rewrite utils_verify_sessions_errors, utils_verify_loop_errors.
    change (pre ++ p :: with_prev_hash h b :: post)%list
      with (pre ++ [p] ++ with_prev_hash h b :: post)%list.
    rewrite app_assoc, all_errors_app, last_seen_snoc.
    cbn [app all_errors]. apply in_or_app. right.
    apply in_or_app. left. unfold block_errors. rewrite Hbroken.
    apply in_or_app. right. apply in_or_app. left. now left.
  - change (pre ++ p :: with_prev_hash h b :: post)%list
      with (pre ++ [p] ++ with_prev_hash h b :: post)%list.
    rewrite app_assoc, verify_sessions_app_cons, Hpre, last_seen_snoc.
    cbn [verify_loop]. rewrite Hbroken.
    change (hash (with_prev_hash h b)) with (hash b).
    unfold block_label.
    change (block_number (with_prev_hash h b)) with (block_number b).
    destruct (calculated_hash (with_prev_hash h b) =? hash b)%string;
      reflexivity.
  - now rewrite verify_sessions_verdict.
Qed.

End TamperFacts.

(** ** The append path *)

Module AppendFacts.

Import Notions Py App Tamper StringFacts PyFacts MiningFacts VerifierFacts.

(** What [dashboard_prepare] hands over when it accepts the form. *)
Lemma dashboard_prepare_inl cfg t user form now s :
  dashboard_prepare cfg t user form now = inl s ->
  exists date duration,
    form_date form = Some date /\ 0 < duration /\
    s = new_session cfg (prev_session_of t user) user date
          (form_subject form) duration (form_status form) now.
Proof.
  unfold dashboard_prepare.
  destruct (form_date form) as [date | ]; [ | discriminate].
  destruct (form_duration form) as [duration | ]; [ | discriminate].
  destruct (form_subject form =? "")%string; [discriminate | ].
  destruct (Z.leb_spec duration 0) as [ | Hpos]; [discriminate | ].
  intros E. injection E as <-.
  destruct (form_duration_unit form =? "hours")%string;
    eexists _, _; repeat split; lia.
Qed.

Lemma new_session_fields cfg prev user date subject duration status now :
  let number :=
    match prev with Some p => block_number p + 1 | None => 1 end in
  let link := match prev with Some p => hash p | None => sentinel end in
  let r := mine_block cfg number (strftime now) link
             (payload date subject duration status) (DIFFICULTY cfg) in
  new_session cfg prev user date subject duration status now
  = mkStudySession 0 user date subject duration status number now (fst r)
      link (snd r) (DIFFICULTY cfg).
Proof.
  unfold new_session. cbv zeta.
  destruct (mine_block cfg _ _ _ _ _) as [h n]. reflexivity.
Qed.

(** A new row whose mining stopped below the ceiling passes the three
    checks of the verifier, whatever id it is stored under. *)
Lemma new_session_verifies cfg prev user date subject duration status now i :
  let s := new_session cfg prev user date subject duration status now in
  nonce s < MAX_NONCE cfg ->
  verify_sessions [with_id i s] = (true, "Blockchain is valid").
Proof.
  unfold new_session. cbv zeta.
  match goal with
  | |- context [mine_block ?c ?b ?ts ?p ?d ?f] =>
      pose proof (mine_block_result c b ts p d f) as R;
      destruct (mine_block c b ts p d f) as [h k]
  end.
  cbv zeta in R. cbn [fst snd] in R. destruct R as [Hh Hc].
  cbn [App.nonce]. intros Hk.
  cbn [verify_sessions verify_loop].
  unfold calculated_hash, session_data, with_id.
  cbn [App.id App.user_id App.date App.subject App.duration App.status
       App.block_number App.timestamp App.hash App.prev_hash App.nonce
       App.difficulty].
  rewrite <- Hh, String.eqb_refl. cbn [negb]. rewrite (Hc Hk). reflexivity.
Qed.

Lemma dashboard_post_mined cfg t t' user form now bn n :
  dashboard_post cfg t user form now = (t', Mined bn n) ->
  exists s,
    dashboard_prepare cfg t user form now = inl s /\ storable s = true /\
    t' = (t ++ [with_id (next_id t) s])%list /\
    bn = block_number s /\ n = nonce s.
Proof.
  unfold dashboard_post, add_commit.
  destruct (dashboard_prepare cfg t user form now) as [s | o] eqn:Hprep.
  - destruct (storable s) eqn:Hs; [ | discriminate].
    intros H. injection H as <- <- <-. now exists s.
  - intros H. injection H as _ ->. exfalso.
    unfold dashboard_prepare in Hprep.
    destruct (form_date form); [ | discriminate].
    destruct (form_duration form); [ | discriminate].
    destruct (form_subject form =? "")%string; [discriminate | ].
    destruct (_ <=? 0); discriminate.
Qed.

(** The two ways a POST ends: a row is appended and the answer is
    "mined", or the table is as it was and the answer is another one. *)
Lemma dashboard_post_cases cfg (t : Table) (user : Z) (form : Form)
    (now : Py.datetime) :
  (exists s,
     dashboard_prepare cfg t user form now = inl s /\ storable s = true /\
     dashboard_post cfg t user form now
     = ((t ++ [with_id (next_id t) s])%list,
        Mined (block_number s) (nonce s)))
  \/ (fst (dashboard_post cfg t user form now) = t /\
      is_mined (snd (dashboard_post cfg t user form now)) = false).
Proof.
  unfold dashboard_post, add_commit.
  destruct (dashboard_prepare cfg t user form now) as [s | o] eqn:Hprep.
  - destruct (storable s) eqn:Hs; [left; now exists s | now right].
  - right. split; [reflexivity | ]. unfold dashboard_prepare in Hprep.
    destruct (form_date form); [ | now injection Hprep as <-].
    destruct (form_duration form); [ | now injection Hprep as <-].
    destruct (form_subject form =? "")%string; [now injection Hprep as <- | ].
    destruct (_ <=? 0); [now injection Hprep as <- | discriminate].
Qed.

Lemma appended_cons cfg (t : Table) (user : Z) (form : Form)
    (now : Py.datetime) (rest : list (Form * Py.datetime)) :
  appended cfg t user ((form, now) :: rest)
  = ((if is_mined (snd (dashboard_post cfg t user form now)) then 1 else 0)
     + appended cfg (fst (dashboard_post cfg t user form now)) user rest)%nat.
Proof.
  unfold appended. cbn [dashboard_outcomes filter].
  now destruct (is_mined _).
Qed.

(** X27.  A block the dashboard has just appended verifies on its own
    whenever its mining stopped below the ceiling: [verify] on the
    one-element list returns valid.  (At the ceiling the block is stored
    all the same, with a digest that was never tested.) *)
Theorem fresh_block_verifies
    (cfg : Config) (t t' : Table) (user : Z) (form : Form)
    (now : Py.datetime) (bn n : Z) :
  dashboard_post cfg t user form now = (t', Mined bn n) ->
  n < MAX_NONCE cfg ->
  exists s,
    t' = (t ++ [s])%list /\ block_number s = bn /\ nonce s = n /\
    difficulty s = DIFFICULTY cfg /\
    verify_sessions [s] = (true, "Blockchain is valid").
Proof.
  intros Hpost Hn.
  apply dashboard_post_mined in Hpost as (s & Hprep & _ & -> & -> & ->).
  apply dashboard_prepare_inl in Hprep as (date & duration & _ & _ & ->).
  eexists. split; [reflexivity | ].
  split; [reflexivity | ]. split; [reflexivity | ].
  split.
  - now rewrite new_session_fields.
  - now apply new_session_verifies.
Qed.

End AppendFacts.

Module AppendExamples.

Import Notions Py App Tamper MiningFacts AppendFacts Scenario.

Lemma fresh_block_verifies_witness :
  dashboard_post app_config [] 1 form1 now1 = ([block1], Mined 1 1) /\
  1 < MAX_NONCE app_config /\
  exists s,
    [block1] = ([] ++ [s])%list /\ block_number s = 1 /\ nonce s = 1 /\
    difficulty s = DIFFICULTY app_config /\
    verify_sessions [s] = (true, "Blockchain is valid").
Proof.
  assert (H : dashboard_post app_config [] 1 form1 now1
              = ([block1], Mined 1 1)) by (vm_compute; reflexivity).
  assert (L : 1 < MAX_NONCE app_config) by reflexivity.
  exact (conj H (conj L
           (fresh_block_verifies app_config [] [block1] 1 form1 now1 1 1
              H L))).
Defined.

End AppendExamples.

Module TamperExamples.

Import Notions Py App Tamper TamperFacts Scenario.

Lemma payload_tamper_detected_witness :
  fst (verify_sessions ([block1] ++ block2 :: [])) = true /\
  update_in_range (SetStatus "completed") block2 = true /\
  apply_update (SetStatus "completed") block2 <> block2 /\
  no_collision
    (session_block_data (apply_update (SetStatus "completed") block2))
    (session_block_data block2) /\
  (verify_sessions
     ([block1] ++ apply_update (SetStatus "completed") block2 :: [])
   = (false, "Block " ++ str (block_number block2) ++ " has invalid hash") /\
   fst (verify_sessions [block1]) = true).
Proof.
  assert (H1 : fst (verify_sessions ([block1] ++ block2 :: [])) = true)
    by (vm_compute; reflexivity).
  assert (H2 : update_in_range (SetStatus "completed") block2 = true)
    by reflexivity.
  assert (H3 : apply_update (SetStatus "completed") block2 <> block2)
    by (intros E; apply (f_equal status) in E; discriminate E).
  assert (H4 : no_collision
    (session_block_data (apply_update (SetStatus "completed") block2))
    (session_block_data block2))
    by (intros E; vm_compute in E; discriminate E).
  exact (conj H1 (conj H2 (conj H3 (conj H4
           (payload_tamper_detected [block1] [] block2
              (SetStatus "completed") H1 H2 H3 H4))))).
Defined.

Lemma link_break_detected_witness :
  fst (verify_sessions ([] ++ block1 :: block2 :: [])) = true /\
  unrelated <> prev_hash block2 /\
  (In ("Block " ++ str (block_number block2) ++ ": Broken chain link")
      (snd (BlockchainUtils.verify_sessions
              ([] ++ block1 :: with_prev_hash unrelated block2 :: []))) /\
   verify_sessions ([] ++ block1 :: with_prev_hash unrelated block2 :: [])
   = (false,
      if (calculated_hash (with_prev_hash unrelated block2)
          =? hash block2)%string
      then "Block " ++ str (block_number block2) ++ " has broken chain link"
      else "Block " ++ str (block_number block2) ++ " has invalid hash") /\
   fst (verify_sessions ([] ++ [block1])) = true).
Proof.
  assert (H1 : fst (verify_sessions ([] ++ block1 :: block2 :: [])) = true)
    by (vm_compute; reflexivity).
  assert (H2 : unrelated <> prev_hash block2)
    by (intros E; vm_compute in E; discriminate E).
  exact (conj H1 (conj H2
           (link_break_detected [] [] block1 block2 unrelated H1 H2))).
Defined.

(** C3 as stated fails for the fail-fast verifier.  In the two-block chain
    of the scenario, which verifies, block 2's [prev_hash] is replaced by
    64 characters [f].  [verify_chain]'s loop stops at the hash check of
    block 2, which comes before the link check, and the diagnosis is
    "invalid hash", not "broken chain link". *)
Lemma link_break_reported_as_invalid_hash :
  verify_sessions [block1; block2] = (true, "Blockchain is valid") /\
  verify_sessions [block1; with_prev_hash unrelated block2]
  = (false, "Block 2 has invalid hash") /\
  verify_sessions [block1; with_prev_hash unrelated block2]
  <> (false, "Block 2 has broken chain link").
Proof.
  assert (H : verify_sessions [block1; with_prev_hash unrelated block2]
              = (false, "Block 2 has invalid hash"))
    by (vm_compute; reflexivity).
  split; [vm_compute; reflexivity | ].
  split; [exact H | ].
  rewrite H. intros E. discriminate E.
Qed.

End TamperExamples.

(** ** Appending in sequence *)

Module SequencingFacts.

Import Notions Py App StringFacts PyFacts VerifierFacts AppendFacts.

Lemma numbered_sorted (l : list StudySession) :
  forall first, numbered_from first l -> StronglySorted before l.
Proof.
  induction l as [|x r IH]; intros first H; [constructor | ].
  unfold numbered_from in H. cbn [map List.length seq] in H.
  injection H as Hx Hr. constructor; [now apply (IH (S first)) | ].
  apply Forall_forall. intros y Hy. unfold before.
  apply (in_map block_number) in Hy. rewrite Hr in Hy.
  apply in_map_iff in Hy as (k & <- & Hk). apply in_seq in Hk. lia.
Qed.

Lemma insert_desc_smallest (x : StudySession) (l : list StudySession) :
  Forall (before x) l -> insert_desc x l = (l ++ [x])%list.
Proof.
  induction 1 as [|y l Hy _ IH]; [reflexivity | ].
  cbn [insert_desc app]. unfold before in Hy.
  destruct (Z.leb_spec (block_number y) (block_number x)); [lia | ].
  now rewrite IH.
Qed.

Lemma order_desc_sorted (l : list StudySession) :
  StronglySorted before l -> order_by_block_number_desc l = rev l.
Proof.
  induction 1 as [|x r _ IH Hx]; [reflexivity | ].
  cbn [order_by_block_number_desc fold_right rev].
  fold (order_by_block_number_desc r). rewrite IH.
  apply insert_desc_smallest. now apply Forall_rev.
Qed.

Lemma order_asc_sorted (l : list StudySession) :
  StronglySorted before l -> order_by_block_number l = l.
Proof.
  induction 1 as [|x r _ IH Hx]; [reflexivity | ].
  cbn [order_by_block_number fold_right].
  fold (order_by_block_number r). rewrite IH.
  destruct r as [|y r']; [reflexivity | ].
  cbn [insert_asc]. apply Forall_inv in Hx. unfold before in Hx.
  destruct (Z.leb_spec (block_number x) (block_number y)); [reflexivity | lia].
Qed.

(** On a numbered chain the descending query finds the last row. *)
Lemma prev_session_of_numbered (t : Table) (user : Z) :
  numbered_from 1 (filter_by_user_id user t) ->
  prev_session_of t user = last_seen None (filter_by_user_id user t).
Proof.
  intros H. unfold prev_session_of.
  rewrite (order_desc_sorted _ (numbered_sorted _ _ H)).
  unfold first, last_seen. now destruct (rev _).
Qed.

Lemma last_seen_inv (l : list StudySession) (p : StudySession) :
  last_seen None l = Some p -> exists l0, l = (l0 ++ [p])%list.
Proof.
  unfold last_seen. destruct (rev l) as [|x r] eqn:E; [discriminate | ].
  intros H. injection H as ->. exists (rev r).
  apply (f_equal (@rev _)) in E. rewrite rev_involutive in E. exact E.
Qed.

Lemma last_seen_nil_inv (l : list StudySession) :
  last_seen None l = None -> l = [].
Proof.
  unfold last_seen. destruct (rev l) as [|x r] eqn:E; [ | discriminate].
  intros _. apply (f_equal (@rev _)) in E. now rewrite rev_involutive in E.
Qed.

Lemma numbered_snoc (first : nat) (l : list StudySession) (x : StudySession) :
  numbered_from first (l ++ [x])
  <-> numbered_from first l
      /\ block_number x = Z.of_nat (first + List.length l).
Proof.
  unfold numbered_from.
  rewrite map_app, length_app, seq_app, map_app. cbn [List.length seq map].
  split.
  - intros H. apply app_inj_tail_iff in H. tauto.
  - intros [-> ->]. reflexivity.
Qed.

Lemma linked_snoc (link : string) (l : list StudySession) (x : StudySession) :
  linked link (l ++ [x])
  <-> linked link l
      /\ prev_hash x
         = match last_seen None l with Some p => hash p | None => link end.
Proof.
  revert link. induction l as [|y r IH]; intros link.
  - cbn. tauto.
  - rewrite last_seen_cons. cbn [app linked]. rewrite IH.
    assert (E : match last_seen (Some y) r with
                | Some p => hash p | None => link end
                = match last_seen None r with
                  | Some p => hash p | None => hash y end).
    { unfold last_seen. now destruct (rev r). }
    rewrite E. tauto.
Qed.

(** A row prepared against a chained list of rows extends it by one. *)
Lemma post_extends_chain cfg (t : Table) (user : Z) (form : Form)
    (now : Py.datetime) (s : StudySession) :
  chained (filter_by_user_id user t) ->
  dashboard_prepare cfg t user form now = inl s ->
  filter_by_user_id user (t ++ [with_id (next_id t) s])%list
  = (filter_by_user_id user t ++ [with_id (next_id t) s])%list /\
  chained (filter_by_user_id user t ++ [with_id (next_id t) s]).
Proof.
  intros [Hnum Hlink] Hprep.
  apply dashboard_prepare_inl in Hprep as (date & duration & _ & _ & ->).
  rewrite new_session_fields. cbv zeta.
  rewrite (prev_session_of_numbered t user Hnum).
  set (rows := filter_by_user_id user t) in *.
  split.
  - unfold filter_by_user_id. rewrite filter_app.
    cbn [filter with_id user_id]. rewrite Z.eqb_refl. reflexivity.
  - unfold with_id.
    cbn [App.id App.user_id App.date App.subject App.duration App.status
         App.block_number App.timestamp App.hash App.prev_hash App.nonce
         App.difficulty].
    split.
    + apply numbered_snoc. split; [assumption | ].
      cbn [block_number].
      destruct (last_seen None rows) as [p | ] eqn:E.
      * apply last_seen_inv in E as [l0 E]. rewrite E in Hnum |- *.
        apply numbered_snoc in Hnum as [_ ->]. rewrite length_app.
        cbn [List.length]. lia.
      * apply last_seen_nil_inv in E. now rewrite E.
    + apply linked_snoc. split; [assumption | reflexivity].
Qed.

(** Requests served one after the other keep a chained list of rows
    chained, and lengthen it by the number of appends that took place. *)
Lemma posts_extend_chain cfg (user : Z)
    (requests : list (Form * Py.datetime)) :
  forall t,
    chained (filter_by_user_id user t) ->
    chained (filter_by_user_id user (dashboard_posts cfg t user requests)) /\
    List.length (filter_by_user_id user (dashboard_posts cfg t user requests))
    = (List.length (filter_by_user_id user t)
       + appended cfg t user requests)%nat.
Proof.
  induction requests as [|[form now] rest IH]; intros t Hc.
  - cbn [dashboard_posts]. split; [assumption | ].
    unfold appended. cbn. now rewrite Nat.add_0_r.
  - cbn [dashboard_posts]. rewrite appended_cons.
    destruct (dashboard_post_cases cfg t user form now)
      as [(s & Hprep & _ & Hpost) | [Hfst Hnot]].
    + rewrite Hpost. cbn [fst snd is_mined].
      destruct (post_extends_chain cfg t user form now s Hc Hprep)
        as [Hrows Hc'].
      rewrite <- Hrows in Hc'.
      destruct (IH _ Hc') as [Hfinal Hlen].
      split; [assumption | ].
      rewrite Hlen, Hrows, length_app. cbn [List.length]. lia.
    + rewrite Hfst, Hnot. destruct (IH _ Hc) as [Hfinal Hlen].
      split; [assumption | ]. rewrite Hlen. lia.
Qed.

Lemma linked_nth (l : list StudySession) :
  forall link k p s,
    linked link l ->
    nth_error l k = Some p -> nth_error l (S k) = Some s ->
    prev_hash s = hash p.
Proof.
  induction l as [|x r IH]; intros link k p s Hl Hp Hs;
    [destruct k; discriminate | ].
  destruct Hl as [_ Hl]. destruct k as [|k].
  - cbn in Hp. injection Hp as ->. destruct r as [|y r']; [discriminate | ].
    cbn in Hs. injection Hs as ->. now destruct Hl.
  - cbn in Hp, Hs. now apply (IH (hash x) k p s).
Qed.

(** C7.  Appending [n] blocks for one user, one request after the other,
    to a table that has no block of that user yet, gives the user the
    chain numbered 1 to [n] in order; block 1 carries the sentinel of 64
    zero characters as [prev_hash], and every later block carries the
    stored hash of the block before it.  The requests are any requests:
    [n] counts those that were answered "mined", which are the appends
    that took place. *)
Theorem appends_are_sequenced
    (cfg : Config) (t : Table) (user : Z)
    (requests : list (Form * Py.datetime)) :
  filter_by_user_id user t = [] ->
  let n := appended cfg t user requests in
  let chain := user_chain (dashboard_posts cfg t user requests) user in
  map block_number chain = map Z.of_nat (seq 1 n) /\
  (forall s, nth_error chain 0 = Some s ->
     prev_hash s
     = "0000000000000000000000000000000000000000000000000000000000000000") /\
  (forall k p s,
     nth_error chain k = Some p -> nth_error chain (S k) = Some s ->
     prev_hash s = hash p).
Proof.
  intros Hempty n chain.
  assert (Hstart : chained (filter_by_user_id user t)).
  { rewrite Hempty. split; [reflexivity | exact I]. }
  destruct (posts_extend_chain cfg user requests t Hstart)
    as [[Hnum Hlink] Hlen].
  rewrite Hempty in Hlen. cbn [List.length Nat.add] in Hlen. fold n in Hlen.
  assert (Hchain : chain
            = filter_by_user_id user (dashboard_posts cfg t user requests)).
  { unfold chain, user_chain.
    apply order_asc_sorted. now apply (numbered_sorted _ 1%nat). }
  rewrite Hchain. repeat split.
  - unfold numbered_from in Hnum. now rewrite Hlen in Hnum.
  - intros s Hs.
    destruct (filter_by_user_id user (dashboard_posts cfg t user requests))
      as [|x r]; [discriminate | ].
    cbn in Hs. injection Hs as ->. now destruct Hlink.
  - intros k p s. now apply linked_nth with (link := sentinel).
Qed.

End SequencingFacts.

Module SequencingExamples.

Import Notions Py App SequencingFacts Scenario.

(** Three requests, the first with a duration that cannot be stored: two
    appends take place, and the chain is numbered 1, 2. *)
Lemma appends_are_sequenced_witness :
  filter_by_user_id 1 [] = [] /\
  appended app_config [] 1
    [(form_wide, now_wide); (form1, now1); (form2, now2)] = 2%nat /\
  (let n := appended app_config [] 1
              [(form_wide, now_wide); (form1, now1); (form2, now2)] in
   let chain :=
     user_chain
       (dashboard_posts app_config [] 1
          [(form_wide, now_wide); (form1, now1); (form2, now2)]) 1 in
   map block_number chain = map Z.of_nat (seq 1 n) /\
   (forall s, nth_error chain 0 = Some s ->
      prev_hash s
      = "0000000000000000000000000000000000000000000000000000000000000000") /\
   (forall k p s,
      nth_error chain k = Some p -> nth_error chain (S k) = Some s ->
      prev_hash s = hash p)).
Proof.
  assert (H1 : filter_by_user_id 1 [] = []) by reflexivity.
  assert (H2 : appended app_config [] 1
                 [(form_wide, now_wide); (form1, now1); (form2, now2)]
               = 2%nat) by (vm_compute; reflexivity).
  exact (conj H1 (conj H2
           (appends_are_sequenced app_config [] 1
              [(form_wide, now_wide); (form1, now1); (form2, now2)] H1))).
Defined.

End SequencingExamples.

(** ** Two appends in flight *)

Module ConcurrencyFacts.

Import Notions Py App Concurrency AppendFacts Scenario.

(** On a serial schedule the model is the route: the requests are served
    one after the other. *)
Lemma run_serial cfg (user : Z) (rest : list (Form * Py.datetime)) :
  forall (done : list (Form * Py.datetime)) (t : Table),
    fold_left (step cfg user (done ++ rest))
              (serial (List.length done) (List.length rest)) (mkState t [])
    = mkState (dashboard_posts cfg t user rest) [].
Proof.
  induction rest as [|[form now] rest IH]; intros done t; [reflexivity | ].
  cbn [List.length serial fold_left dashboard_posts].
  assert (Hnth : nth_error (done ++ (form, now) :: rest) (List.length done)
                 = Some (form, now)).
  { rewrite nth_error_app2 by lia. now rewrite Nat.sub_diag. }
  assert (Hstep : step cfg user (done ++ (form, now) :: rest)
                    (step cfg user (done ++ (form, now) :: rest)
                       (mkState t []) (Prepare (List.length done)))
                    (Commit (List.length done))
                  = mkState (fst (dashboard_post cfg t user form now)) []).
  { cbn [step table prepared]. rewrite Hnth. unfold dashboard_post.
    destruct (dashboard_prepare cfg t user form now) as [s | o].
    - cbn [step table prepared lookup filter fst].
      rewrite Nat.eqb_refl. cbn [negb].
      now destruct (add_commit t s).
    - reflexivity. }
  rewrite Hstep.
  specialize (IH (done ++ [(form, now)])%list
                 (fst (dashboard_post cfg t user form now))).
  rewrite <- app_assoc, length_app in IH. cbn [app List.length] in IH.
  rewrite Nat.add_1_r in IH. exact IH.
Qed.

Lemma run_serial_posts cfg (user : Z) (requests : list (Form * Py.datetime))
    (t : Table) :
  run cfg user requests (serial 0 (List.length requests)) t
  = dashboard_posts cfg t user requests.
Proof.
  unfold run.
  change requests with ([] ++ requests)%list at 1.
  change 0%nat with (@List.length (Form * Py.datetime) []).
  now rewrite run_serial.
Qed.

(** Two requests prepared against the same table get the same number and
    the same link, whatever they log. *)
Lemma prepared_on_same_tail cfg (t : Table) (user : Z) (form form' : Form)
    (now now' : Py.datetime) (s s' : StudySession) :
  dashboard_prepare cfg t user form now = inl s ->
  dashboard_prepare cfg t user form' now' = inl s' ->
  block_number s = block_number s' /\ prev_hash s = prev_hash s'.
Proof.
  intros H H'.
  apply dashboard_prepare_inl in H as (d & n & _ & _ & ->).
  apply dashboard_prepare_inl in H' as (d' & n' & _ & _ & ->).
  rewrite !new_session_fields. split; reflexivity.
Qed.

(** C8 fails on the code.  Two requests of user 1 reach an empty chain
    together: both handlers read the tail before either commits.  Both
    find no previous block, both mine a block numbered 1 on the sentinel,
    and both rows are committed: nothing detects the race and nothing is
    retried.  The chain now has two blocks with the same [block_number]
    and the same [prev_hash]. *)
Theorem racing_appends_share_number_and_link :
  run app_config 1 [(form1, now1); (form_b, now_b)] racing []
  = [block1; block_b] /\
  block_number block1 = block_number block_b /\
  prev_hash block1 = prev_hash block_b /\
  user_chain [block1; block_b] 1 = [block1; block_b].
Proof.
  split; [vm_compute; reflexivity | ].
  repeat split.
Qed.

End ConcurrencyFacts.

(** ** More on the proof-of-work search *)

Module MiningEdgeFacts.

Import Notions Diagnosis Py App StringFacts PyFacts MiningFacts Scenario.

Lemma startswith_empty (s : string) : startswith s "" = true.
Proof. unfold startswith. now destruct s. Qed.

Lemma str_mul_nonpositive (c : string) (n : Z) : n <= 0 -> str_mul c n = "".
Proof.
  intros Hn. unfold str_mul. now replace (Z.to_nat n) with 0%nat by lia.
Qed.

(** X1.  [mine_block] returns the least nonce whose digest meets the
    target: every nonce below the returned one was tried and found short
    of it.  This holds at the ceiling too, and for every configuration. *)
Theorem mine_block_least_nonce
    (cfg : Config) (bn : Z) (ts prev data : string) (d k : Z) :
  0 <= k < snd (mine_block cfg bn ts prev data d) ->
  startswith (calculate_hash bn ts prev data k d) (str_mul "0" d) = false.
Proof.
  unfold mine_block.
  pose proof (mine_search_exit cfg bn ts prev data d) as E.
  destruct (mine_search cfg bn ts prev data d) as [h n | n h];
    cbn [exit_ok] in E; cbn [snd]; intros Hk.
  - destruct E as (_ & _ & _ & Hall). now apply Hall.
  - destruct E as (-> & Hall & _). apply Hall. lia.
Qed.

Lemma mine_block_least_nonce_witness :
  0 <= 2 < snd (mine_block app_config 2 (strftime now2) (hash block1)
                  (payload (mkDate 2024 1 2) "Physics" 90 "pending") 3) /\
  startswith
    (calculate_hash 2 (strftime now2) (hash block1)
       (payload (mkDate 2024 1 2) "Physics" 90 "pending") 2 3)
    (str_mul "0" 3) = false.
Proof.
  assert (H : 0 <= 2 < snd (mine_block app_config 2 (strftime now2)
                (hash block1)
                (payload (mkDate 2024 1 2) "Physics" 90 "pending") 3))
    by (vm_compute; split; [discriminate | reflexivity]).
  exact (conj H (mine_block_least_nonce app_config 2 (strftime now2)
                   (hash block1)
                   (payload (mkDate 2024 1 2) "Physics" 90 "pending") 3 2 H)).
Defined.

(** X2.  With a difficulty of zero or less the target is the empty string,
    which every digest starts with: [mine_block] returns nonce 0 with its
    digest, for every input and every configuration. *)
Theorem mine_block_no_difficulty
    (cfg : Config) (bn : Z) (ts prev data : string) (d : Z) :
  d <= 0 ->
  mine_block cfg bn ts prev data d = (calculate_hash bn ts prev data 0 d, 0).
Proof.
  intros Hd. unfold mine_block, mine_search.
  destruct (Z.to_nat (MAX_NONCE cfg)) as [|fuel]; cbn [mine_while];
    [reflexivity | ].
  destruct (0 <? MAX_NONCE cfg); [ | reflexivity].
  now rewrite (str_mul_nonpositive "0" d Hd), startswith_empty.
Qed.

Lemma mine_block_no_difficulty_witness :
  0 <= 0 /\
  mine_block app_config 1 ts1 sentinel data1 0
  = (calculate_hash 1 ts1 sentinel data1 0 0, 0).
Proof.
  assert (H : 0 <= 0) by lia.
  exact (conj H (mine_block_no_difficulty app_config 1 ts1 sentinel data1 0 H)).
Defined.

(** X3.  A difficulty above 64 cannot be met, a digest having 64
    characters: for every input [mine_block] runs to the ceiling and
    returns the nonce 1,000,000 with the digest computed for it. *)
Theorem mine_block_impossible_difficulty
    (bn : Z) (ts prev data : string) (d : Z) :
  64 < d ->
  mine_block app_config bn ts prev data d
  = (calculate_hash bn ts prev data 1000000 d, 1000000).
Proof.
  intros Hd. unfold mine_block.
  now rewrite (mine_search_target_too_long app_config bn ts prev data d
                 eq_refl Hd).
Qed.

Lemma mine_block_impossible_difficulty_witness :
  64 < 65 /\
  mine_block app_config 1 ts1 sentinel data1 65
  = (calculate_hash 1 ts1 sentinel data1 1000000 65, 1000000).
Proof.
  assert (H : 64 < 65) by reflexivity.
  exact (conj H
           (mine_block_impossible_difficulty 1 ts1 sentinel data1 65 H)).
Defined.

Lemma hex_digit_is_hex (n : Z) : is_hex (SHA256.hex_digit n) = true.
Proof.
  destruct n as [|p|p]; try reflexivity.
  do 5 (try destruct p as [p|p|]; try reflexivity).
Qed.

(** X4.  Whatever the fields, [calculate_hash] returns 64 characters, each
    one of [0-9a-f]; so does the copy in blockchain_utils.py. *)
Theorem calculate_hash_is_hex64
    (bn : Z) (ts prev data : string) (n d : Z) :
  String.length (calculate_hash bn ts prev data n d) = 64%nat /\
  all_hex (calculate_hash bn ts prev data n d) = true /\
  BlockchainUtils.calculate_hash bn ts prev data n d
  = calculate_hash bn ts prev data n d.
Proof.
  split; [reflexivity | ]. split; [ | reflexivity].
  unfold calculate_hash, SHA256.hexdigest.
  generalize (SHA256.digest (SHA256.bytes_of_string
                (block_data bn ts prev data n d))).
  intros st. unfold SHA256.hex_state, SHA256.hex_word, SHA256.nibble.
  cbn [all_hex]. rewrite !hex_digit_is_hex. reflexivity.
Qed.

End MiningEdgeFacts.

(** ** Digests that coincide

    A digest has 256 bits, and there are more subjects than that: two of
    them give a block the same digest, and the verifier cannot tell them
    apart. *)

Module CollisionFacts.

Import Notions Py App Tamper StringFacts PyFacts VerifierFacts
       MiningEdgeFacts Scenario.

Lemma wrap32_range (x : Z) : 0 <= SHA256.wrap32 x < 4294967296.
Proof.
  unfold SHA256.wrap32. change SHA256.ones32 with (Z.ones 32).
  rewrite Z.land_ones by lia. change (2 ^ 32) with 4294967296.
  apply Z.mod_pos_bound. lia.
Qed.

Lemma compress_in_range (s : SHA256.state) (block : list Z) :
  in_range (SHA256.compress s block).
Proof.
  unfold SHA256.compress, SHA256.add_state, in_range, SHA256.add32.
  cbn [SHA256.sa SHA256.sb SHA256.sc SHA256.sd SHA256.se SHA256.sf
       SHA256.sg SHA256.sh].
  repeat (split; [apply wrap32_range | ]). apply wrap32_range.
Qed.

Lemma process_in_range (fuel : nat) :
  forall s ws, in_range s -> in_range (SHA256.process fuel s ws).
Proof.
  induction fuel as [|fuel IH]; intros s ws H; [exact H | ].
  destruct ws as [|w ws]; [exact H | ].
  cbn [SHA256.process]. apply IH, compress_in_range.
Qed.

Lemma digest_in_range (msg : list Z) : in_range (SHA256.digest msg).
Proof.
  unfold SHA256.digest. apply process_in_range.
  unfold in_range. cbn. lia.
Qed.

Lemma as_number_range (s : SHA256.state) :
  in_range s -> 0 <= as_number s < 2 ^ 256.
Proof.
  unfold in_range, as_number.
  change (2 ^ 256)
    with 115792089237316195423570985008687907853269984665640564039457584007913129639936.
  lia.
Qed.

Lemma split_digits (a a' b b' : Z) :
  0 <= a < 4294967296 -> 0 <= a' < 4294967296 ->
  a + 4294967296 * b = a' + 4294967296 * b' -> a = a' /\ b = b'.
Proof. lia. Qed.

Lemma as_number_inj (s s' : SHA256.state) :
  in_range s -> in_range s' -> as_number s = as_number s' -> s = s'.
Proof.
  destruct s as [a b c d e f g h], s' as [a' b' c' d' e' f' g' h'].
  unfold in_range, as_number.
  cbn [SHA256.sa SHA256.sb SHA256.sc SHA256.sd SHA256.se SHA256.sf
       SHA256.sg SHA256.sh].
  intros (Ha & Hb & Hc & Hd & He & Hf & Hg & Hh)
         (Ha' & Hb' & Hc' & Hd' & He' & Hf' & Hg' & Hh') E.
  apply split_digits in E as [-> E]; [ | assumption ..].
  apply split_digits in E as [-> E]; [ | assumption ..].
  apply split_digits in E as [-> E]; [ | assumption ..].
  apply split_digits in E as [-> E]; [ | assumption ..].
  apply split_digits in E as [-> E]; [ | assumption ..].
  apply split_digits in E as [-> E]; [ | assumption ..].
  apply split_digits in E as [-> E]; [ | assumption ..].
  now subst.
Qed.

Lemma bounded_search (f : Z -> Z) (v : Z) (n : nat) :
  (exists i, 0 <= i < Z.of_nat n /\ f i = v)
  \/ (forall i, 0 <= i < Z.of_nat n -> f i <> v).
Proof.
  induction n as [|n [(i & Hi & E) | Hno]].
  - right. lia.
  - left. exists i. split; [lia | exact E].
  - destruct (Z.eq_dec (f (Z.of_nat n)) v) as [E | Hne].
    + left. exists (Z.of_nat n). split; [lia | exact E].
    + right. intros i Hi.
      destruct (Z.eq_dec i (Z.of_nat n)) as [-> | Hi']; [exact Hne | ].
      apply Hno. lia.
Qed.

Lemma pigeonhole (n : nat) :
  forall f : Z -> Z,
    (forall i, 0 <= i <= Z.of_nat n -> 0 <= f i < Z.of_nat n) ->
    exists i j, 0 <= i < j /\ j <= Z.of_nat n /\ f i = f j.
Proof.
  induction n as [|n IH]; intros f H.
  - specialize (H 0). lia.
  - destruct (bounded_search f (f (Z.of_nat (S n))) (S n))
      as [(i & Hi & E) | Hno].
    + exists i, (Z.of_nat (S n)). repeat split; [lia | lia | lia | exact E].
    + pose proof (H (Z.of_nat (S n))) as Hv.
      destruct (IH (fun i => if f i <? f (Z.of_nat (S n))
                             then f i else f i - 1))
        as (i & j & Hij & Hj & E).
      * intros i Hi. specialize (H i). specialize (Hno i).
        destruct (Z.ltb_spec (f i) (f (Z.of_nat (S n)))); lia.
      * exists i, j. split; [lia | ]. split; [lia | ].
        pose proof (Hno i). pose proof (Hno j). cbv beta in E.
        destruct (Z.ltb_spec (f i) (f (Z.of_nat (S n)))),
                 (Z.ltb_spec (f j) (f (Z.of_nat (S n)))); lia.
Qed.

Lemma pigeonhole_Z (N : Z) (f : Z -> Z) :
  0 <= N ->
  (forall i, 0 <= i <= N -> 0 <= f i < N) ->
  exists i j, 0 <= i < j /\ j <= N /\ f i = f j.
Proof.
  intros HN H. rewrite <- (Z2Nat.id N HN) in H |- *.
  now apply pigeonhole.
Qed.

(** Among the subjects 0, 1, ..., 2^256 two give the block the same
    digest. *)
Lemma subjects_collide :
  exists i j,
    0 <= i < j /\ j <= 2 ^ 256 /\
    calculated_hash (numbered_block i "")
    = calculated_hash (numbered_block j "").
Proof.
  destruct (pigeonhole_Z (2 ^ 256)
              (fun i => as_number
                          (SHA256.digest
                             (SHA256.bytes_of_string
                                (session_block_data (numbered_block i ""))))))
    as (i & j & Hij & Hj & E).
  - apply Z.pow_nonneg. lia.
  - intros i _. apply as_number_range, digest_in_range.
  - exists i, j. split; [exact Hij | ]. split; [exact Hj | ].
    cbv beta in E. apply as_number_inj in E; try apply digest_in_range.
    change (SHA256.hexdigest (session_block_data (numbered_block i ""))
            = SHA256.hexdigest (session_block_data (numbered_block j ""))).
    unfold SHA256.hexdigest. now rewrite E.
Qed.

Lemma single_block_verifies (s : StudySession) :
  calculated_hash s = hash s -> difficulty s <= 0 ->
  verify_sessions [s] = (true, "Blockchain is valid").
Proof.
  intros E D. cbn [verify_sessions verify_loop].
  rewrite E, String.eqb_refl. cbn [negb].
  now rewrite (str_mul_nonpositive "0" _ D), startswith_empty.
Qed.

(** C2 as stated fails where SHA-256 collides.  There is a one-block
    chain that verifies and a change of its subject to another value after
    which the chain still verifies: the block's subject is one of the
    numbers 0 to 2^256 written out, and it is changed to another of them
    that gives the block the same digest. *)
Lemma payload_tamper_can_go_undetected :
  exists i j,
    0 <= i < j /\ j <= 2 ^ 256 /\
    let b := numbered_block i (calculated_hash (numbered_block i "")) in
    let u := SetSubject (str j) in
    verify_sessions ([] ++ b :: []) = (true, "Blockchain is valid") /\
    update_in_range u b = true /\
    apply_update u b <> b /\
    verify_sessions ([] ++ apply_update u b :: [])
    = (true, "Blockchain is valid").
Proof.
  destruct subjects_collide as (i & j & Hij & Hj & E).
  exists i, j. split; [exact Hij | ]. split; [exact Hj | ].
  cbv zeta. cbn [app]. split; [ | split; [reflexivity | split]].
  - apply single_block_verifies; [reflexivity | ].
    cbn [numbered_block difficulty]. lia.
  - intros H. apply (f_equal subject) in H.
    cbn [apply_update numbered_block subject] in H.
    apply str_inj in H. lia.
  - apply single_block_verifies; [ | cbn [apply_update numbered_block
                                          difficulty]; lia].
    change (calculated_hash (numbered_block j "")
            = calculated_hash (numbered_block i "")).
    now symmetry.
Qed.

End CollisionFacts.

(** ** More on the two verifiers *)

Module VerifierMoreFacts.

Import Notions Diagnosis Py App Tamper StringFacts PyFacts VerifierFacts
       TamperFacts Scenario.

Lemma first_failed_none prev s :
  first_failed prev s = None <-> passes prev s = true.
Proof.
  unfold first_failed, passes.
  destruct (calculated_hash s =? hash s)%string;
    destruct (startswith (hash s) (str_mul "0" (difficulty s)));
    destruct prev as [p | ];
    try destruct (prev_hash s =? hash p)%string;
    cbn [negb andb]; split; (reflexivity || discriminate).
Qed.

(** One turn of the fail-fast loop: stop with the message of the first
    failed check, or go on. *)
Lemma verify_loop_turn prev s rest :
  verify_loop prev (s :: rest)
  = match first_failed prev s with
    | Some c => (false, app_message s c)
    | None => verify_loop (Some s) rest
    end.
Proof.
  cbn [verify_loop]. unfold first_failed.
  destruct (negb (calculated_hash s =? hash s)%string); [reflexivity | ].
  destruct (match prev with
            | Some p => negb (prev_hash s =? hash p)%string
            | None => false
            end); [reflexivity | ].
  now destruct (negb (startswith (hash s) (str_mul "0" (difficulty s)))).
Qed.

(** The lines one turn of the batch loop adds start with the line of the
    first failed check. *)
Lemma block_errors_head prev s c :
  first_failed prev s = Some c ->
  hd_error (block_errors prev s) = Some (utils_message s c).
Proof.
  unfold first_failed, block_errors.
  destruct (calculated_hash s =? hash s)%string;
    destruct (startswith (hash s) (str_mul "0" (difficulty s)));
    destruct prev as [p | ];
    try destruct (prev_hash s =? hash p)%string;
    cbn [negb app hd_error]; intros H; try discriminate H;
    injection H as <-; reflexivity.
Qed.

Lemma first_failure_split (l : list StudySession) :
  forall prev,
    all_pass prev l = false ->
    exists pre b post c,
      l = (pre ++ b :: post)%list /\ all_pass prev pre = true /\
      first_failed (last_seen prev pre) b = Some c.
Proof.
  induction l as [|s rest IH]; intros prev H; [discriminate | ].
  cbn [all_pass] in H.
  destruct (first_failed prev s) as [c | ] eqn:F.
  - exists [], s, rest, c. now repeat split.
  - apply first_failed_none in F. rewrite F in H. cbn [andb] in H.
    destruct (IH (Some s) H) as (pre & b & post & c & -> & Hpre & Hb).
    exists (s :: pre), b, post, c. rewrite last_seen_cons.
    repeat split; [ | assumption].
    cbn [all_pass]. now rewrite F, Hpre.
Qed.

Lemma verify_loop_valid (l : list StudySession) :
  forall prev,
    all_pass prev l = true -> verify_loop prev l = (true, "Blockchain is valid").
Proof.
  induction l as [|s rest IH]; intros prev H; [reflexivity | ].
  cbn [all_pass] in H. apply andb_prop in H as [Hs Hrest].
  apply first_failed_none in Hs. rewrite verify_loop_turn, Hs.
  now apply IH.
Qed.

(** X5.  When the fail-fast verifier returns invalid, its message names
    the first block that fails a check and the first check that block
    fails, all blocks before it passing; and the first line of the batch
    verifier's error list is about that same block and that same check. *)
Theorem fail_fast_reports_first_batch_error (l : list StudySession) :
  fst (verify_sessions l) = false ->
  exists pre b post c,
    l = (pre ++ b :: post)%list /\
    fst (verify_sessions pre) = true /\
    first_failed (last_seen None pre) b = Some c /\
    verify_sessions l = (false, app_message b c) /\
    hd_error (snd (BlockchainUtils.verify_sessions l))
    = Some (utils_message b c).
Proof.
  intros H. rewrite verify_sessions_verdict in H.
  destruct (first_failure_split l None H)
    as (pre & b & post & c & -> & Hpre & Hb).
  exists pre, b, post, c. split; [reflexivity | ].
  split; [now rewrite verify_sessions_verdict | ].
  split; [assumption | ]. split.
  - rewrite verify_sessions_app_cons, Hpre, verify_loop_turn. now rewrite Hb.
  - rewrite utils_verify_sessions_errors, utils_verify_loop_errors.
    cbn [app]. rewrite all_errors_app.
    apply all_errors_nil in Hpre. rewrite Hpre. cbn [app all_errors].
    apply block_errors_head in Hb.
    destruct (block_errors (last_seen None pre) b); [discriminate | ].
    exact Hb.
Qed.

Lemma fail_fast_reports_first_batch_error_witness :
  fst (verify_sessions [block1; with_status "completed" block2; block3])
  = false /\
  exists pre b post c,
    [block1; with_status "completed" block2; block3]
    = (pre ++ b :: post)%list /\
    fst (verify_sessions pre) = true /\
    first_failed (last_seen None pre) b = Some c /\
    verify_sessions [block1; with_status "completed" block2; block3]
    = (false, app_message b c) /\
    hd_error (snd (BlockchainUtils.verify_sessions
                     [block1; with_status "completed" block2; block3]))
    = Some (utils_message b c).
Proof.
  assert (H : fst (verify_sessions
                     [block1; with_status "completed" block2; block3])
              = false) by (vm_compute; reflexivity).
  exact (conj H (fail_fast_reports_first_batch_error _ H)).
Defined.

Lemma length_block_errors prev s :
  (List.length (block_errors prev s)
   <= match prev with Some _ => 3 | None => 2 end)%nat.
Proof.
  unfold block_errors.
  destruct (calculated_hash s =? hash s)%string;
    destruct (startswith (hash s) (str_mul "0" (difficulty s)));
    destruct prev as [p | ];
    try destruct (prev_hash s =? hash p)%string;
    cbn [app List.length]; lia.
Qed.

Lemma length_all_errors (l : list StudySession) :
  forall p,
    (List.length (all_errors (Some p) l) <= 3 * List.length l)%nat.
Proof.
  induction l as [|s rest IH]; intros p; cbn [all_errors List.length];
    [lia | ].
  rewrite length_app.
  pose proof (length_block_errors (Some p) s) as B. cbv beta iota in B.
  specialize (IH s). lia.
Qed.

(** X6.  The batch verifier reports at most three errors per block, and at
    most two for the first block, which has no link to check.  Its verdict
    is false exactly when it lists an error, and its message then counts
    the errors listed. *)
Theorem batch_errors_bounded (l : list StudySession) :
  let r := BlockchainUtils.verify_sessions l in
  (List.length (snd r) <= 3 * List.length l - 1)%nat /\
  (fst (fst r) = false <-> snd r <> []) /\
  (snd r <> [] ->
   snd (fst r)
   = "Found " ++ str (Z.of_nat (List.length (snd r))) ++ " error(s)").
Proof.
  intros r. subst r. split; [ | split].
  - rewrite utils_verify_sessions_errors, utils_verify_loop_errors.
    cbn [app]. destruct l as [|s rest]; [cbn; lia | ].
    cbn [all_errors List.length]. rewrite length_app.
    pose proof (length_block_errors None s) as B. cbv beta iota in B.
    pose proof (length_all_errors rest s). lia.
  - rewrite utils_verify_sessions_verdict, utils_verify_sessions_errors.
    pose proof (utils_verify_loop_nil l None) as N.
    destruct (all_pass None l).
    + split; [discriminate | ]. intros H. exfalso. apply H. now apply N.
    + split; [ | reflexivity]. intros _ H. apply N in H. discriminate.
  - destruct l as [|s rest]; [intros H; now exfalso | ].
    unfold BlockchainUtils.verify_sessions.
    destruct (BlockchainUtils.verify_loop None (s :: rest) []);
      [intros H; now exfalso | reflexivity].
Qed.

Lemma all_pass_no_link prev (l : list StudySession) :
  all_pass prev l = true -> all_pass None l = true.
Proof.
  destruct l as [|s rest]; [reflexivity | ]. cbn [all_pass]. unfold passes.
  destruct prev as [p | ]; [ | exact (fun H => H)].
  destruct (calculated_hash s =? hash s)%string; [ | discriminate].
  destruct (prev_hash s =? hash p)%string; [ | discriminate].
  exact (fun H => H).
Qed.

(** X7.  Cutting a chain that verifies leaves two chains that verify: the
    blocks before the cut, and the blocks after it, whose first block is
    not asked for any link.  Neither verifier notices blocks missing at
    the end or at the start. *)
Theorem cut_chains_verify (l1 l2 : list StudySession) :
  fst (verify_sessions (l1 ++ l2)) = true ->
  fst (verify_sessions l1) = true /\ fst (verify_sessions l2) = true /\
  snd (BlockchainUtils.verify_sessions l1) = [] /\
  snd (BlockchainUtils.verify_sessions l2) = [].
Proof.
  rewrite !verify_sessions_verdict, !utils_verify_sessions_errors,
    all_pass_app.
  intros H. apply andb_prop in H as [H1 H2].
  apply all_pass_no_link in H2.
  repeat split; try assumption; now apply utils_verify_loop_nil.
Qed.

Lemma cut_chains_verify_witness :
  fst (verify_sessions ([block1] ++ [block2; block3])) = true /\
  (fst (verify_sessions [block1]) = true /\
   fst (verify_sessions [block2; block3]) = true /\
   snd (BlockchainUtils.verify_sessions [block1]) = [] /\
   snd (BlockchainUtils.verify_sessions [block2; block3]) = []).
Proof.
  assert (H : fst (verify_sessions ([block1] ++ [block2; block3])) = true)
    by (vm_compute; reflexivity).
  exact (conj H (cut_chains_verify [block1] [block2; block3] H)).
Defined.

Lemma relabel_checks i u us s prev i' u' us' :
  first_failed (option_map (relabel i' u' us') prev) (relabel i u us s)
  = first_failed prev s.
Proof. destruct prev; reflexivity. Qed.

Lemma relabelled_loops (l l' : list StudySession) :
  Forall2 relabelled l l' ->
  forall prev prev',
    match prev, prev' with
    | Some p, Some p' => relabelled p p'
    | None, None => True
    | _, _ => False
    end ->
    verify_loop prev' l' = verify_loop prev l /\
    all_errors prev' l' = all_errors prev l.
Proof.
  induction 1 as [|s s' l l' (i & u & us & ->) _ IH]; intros prev prev' Hp;
    [now split | ].
  assert (F : first_failed prev' (relabel i u us s) = first_failed prev s
              /\ block_errors prev' (relabel i u us s) = block_errors prev s).
  { destruct prev as [p | ], prev' as [p' | ]; try contradiction.
    - destruct Hp as (i' & u' & us' & ->). now split.
    - now split. }
  destruct F as [F B].
  destruct (IH (Some s) (Some (relabel i u us s))) as [IH1 IH2];
    [now exists i, u, us | ].
  rewrite !verify_loop_turn, F. cbn [all_errors]. rewrite B, IH2, IH1.
  split; [ | reflexivity]. now destruct (first_failed prev s).
Qed.

(** X8.  Neither verifier reads a row's id, its owner or the microsecond
    of its timestamp, and the hash covers none of them: two lists of rows
    that differ only there get the same verdict, the same message and the
    same errors. *)
Theorem unhashed_fields_are_not_checked (l l' : list StudySession) :
  Forall2 relabelled l l' ->
  verify_sessions l' = verify_sessions l /\
  BlockchainUtils.verify_sessions l' = BlockchainUtils.verify_sessions l.
Proof.
  intros H. destruct (relabelled_loops l l' H None None I) as [V E].
  destruct H as [|s s' l l' Hs Hl]; [now split | ].
  split; [exact V | ].
  unfold BlockchainUtils.verify_sessions.
  now rewrite !utils_verify_loop_errors, E.
Qed.

Lemma unhashed_fields_are_not_checked_witness :
  Forall2 relabelled [block1; block2]
    [relabel 7 9 123456 block1; relabel 8 9 654321 block2] /\
  (verify_sessions [relabel 7 9 123456 block1; relabel 8 9 654321 block2]
   = verify_sessions [block1; block2] /\
   BlockchainUtils.verify_sessions
     [relabel 7 9 123456 block1; relabel 8 9 654321 block2]
   = BlockchainUtils.verify_sessions [block1; block2]).
Proof.
  assert (H : Forall2 relabelled [block1; block2]
                [relabel 7 9 123456 block1; relabel 8 9 654321 block2]).
  { repeat constructor; eexists _, _, _; reflexivity. }
  exact (conj H (unhashed_fields_are_not_checked _ _ H)).
Defined.

(** X9.  In a chain that verifies, no block asks for more than 64 zeros,
    and every stored hash is the 64-character digest of the block's own
    fields. *)
Theorem valid_chain_hashes (l : list StudySession) :
  fst (verify_sessions l) = true ->
  Forall (fun s => difficulty s <= 64 /\ hash s = calculated_hash s /\
                   String.length (hash s) = 64%nat) l.
Proof.
  rewrite verify_sessions_verdict. generalize (@None StudySession).
  induction l as [|s rest IH]; intros prev H; constructor.
  - apply all_pass_cons_inv in H as (Hh & _ & Hd & _).
    split; [ | split; [now symmetry | now rewrite <- Hh]].
    unfold startswith in Hd. apply prefix_length in Hd.
    rewrite length_str_mul, <- Hh in Hd.
    change (String.length (calculated_hash s)) with 64%nat in Hd. lia.
  - apply all_pass_cons_inv in H as (_ & _ & _ & H). now apply (IH (Some s)).
Qed.

Lemma valid_chain_hashes_witness :
  fst (verify_sessions [block1; block2; block3]) = true /\
  Forall (fun s => difficulty s <= 64 /\ hash s = calculated_hash s /\
                   String.length (hash s) = 64%nat)
         [block1; block2; block3].
Proof.
  assert (H : fst (verify_sessions [block1; block2; block3]) = true)
    by (vm_compute; reflexivity).
  exact (conj H (valid_chain_hashes _ H)).
Defined.

(** X10.  Taking a block out of the middle of a chain that verifies is
    noticed at the block after it, which still names the hash of the
    missing block: provided that hash differs from the hash of the block
    now before it, [verify_chain] answers "broken chain link" for the
    block after the gap, and the batch verifier lists that line. *)
Theorem removed_block_breaks_link
    (pre post : list StudySession) (p b n : StudySession) :
  fst (verify_sessions (pre ++ p :: b :: n :: post)) = true ->
  hash b <> hash p ->
  verify_sessions (pre ++ p :: n :: post)
  = (false, "Block " ++ str (block_number n) ++ " has broken chain link") /\
  In ("Block " ++ str (block_number n) ++ ": Broken chain link")
     (snd (BlockchainUtils.verify_sessions (pre ++ p :: n :: post))).
Proof.
  intros Hvalid Hne.
  rewrite verify_sessions_verdict in Hvalid.
  change (pre ++ p :: b :: n :: post)%list
    with (pre ++ [p] ++ b :: n :: post)%list in Hvalid.
  rewrite app_assoc, all_pass_app, last_seen_snoc in Hvalid.
  apply andb_prop in Hvalid as [Hpre Hb].
  apply all_pass_cons_inv in Hb as (_ & _ & _ & Hn).
  apply all_pass_cons_inv in Hn as (Hh & Hlink & _).
  assert (F : first_failed (Some p) n = Some LinkCheck).
  { unfold first_failed. rewrite Hh, String.eqb_refl. cbn [negb].
    assert (E : (prev_hash n =? hash p)%string = false)
      by (apply String.eqb_neq; congruence).
    now rewrite E. }
  change (pre ++ p :: n :: post)%list with (pre ++ [p] ++ n :: post)%list.
  rewrite app_assoc. split.
  - rewrite verify_sessions_app_cons, Hpre, last_seen_snoc, verify_loop_turn.
    now rewrite F.
  - rewrite utils_verify_sessions_errors, utils_verify_loop_errors.
    cbn [app]. rewrite all_errors_app, last_seen_snoc.
    apply in_or_app. right. cbn [all_errors]. apply in_or_app. left.
    apply block_errors_head in F.
    destruct (block_errors (Some p) n) as [|e es]; [discriminate | ].
    injection F as ->. now left.
Qed.

Lemma removed_block_breaks_link_witness :
  fst (verify_sessions ([] ++ block1 :: block2 :: block3 :: [])) = true /\
  hash block2 <> hash block1 /\
  (verify_sessions ([] ++ block1 :: block3 :: [])
   = (false,
      "Block " ++ str (block_number block3) ++ " has broken chain link") /\
   In ("Block " ++ str (block_number block3) ++ ": Broken chain link")
      (snd (BlockchainUtils.verify_sessions ([] ++ block1 :: block3 :: [])))).
Proof.
  assert (H1 : fst (verify_sessions
                      ([] ++ block1 :: block2 :: block3 :: [])) = true)
    by (vm_compute; reflexivity).
  assert (H2 : hash block2 <> hash block1) by (intros E; discriminate E).
  exact (conj H1 (conj H2
           (removed_block_breaks_link [] [] block1 block2 block3 H1 H2))).
Defined.

End VerifierMoreFacts.

(** ** More on the append path *)

Module AppendMoreFacts.

Import Notions Diagnosis Py App StringFacts PyFacts MiningFacts VerifierFacts
       VerifierMoreFacts AppendFacts SequencingFacts Scenario.




Lemma filter_by_user_id_snoc (u : Z) (t : Table) (s : StudySession) :
  filter_by_user_id u (t ++ [s])%list
  = (filter_by_user_id u t ++ if user_id s =? u then [s] else [])%list.
Proof. unfold filter_by_user_id. rewrite filter_app. reflexivity. Qed.




(** X12.  Appends of different users do not touch each other: a POST by
    [v], accepted or not, leaves the chain of every other user, and what
    the two verifiers say about it, as they were. *)
Theorem other_users_chain_untouched
    (cfg : Config) (t : Table) (u v : Z) (form : Form) (now : Py.datetime) :
  u <> v ->
  let t' := fst (dashboard_post cfg t v form now) in
  user_chain t' u = user_chain t u /\
  verify_chain t' u = verify_chain t u /\
  BlockchainUtils.verify_user_chain t' u
  = BlockchainUtils.verify_user_chain t u.
Proof.
  intros Hne t'.
  assert (H : user_chain t' u = user_chain t u).
  { subst t'.
    destruct (dashboard_post_cases cfg t v form now)
      as [(s & Hprep & _ & Hpost) | [Hfst _]]; [ | now rewrite Hfst].
    rewrite Hpost. cbn [fst]. unfold user_chain.
    apply dashboard_prepare_inl in Hprep as (date & minutes & _ & _ & ->).
    rewrite filter_by_user_id_snoc, new_session_fields. cbv zeta.
    cbn [with_id user_id].
    destruct (Z.eqb_spec v u); [congruence | ]. now rewrite app_nil_r. }
  unfold verify_chain, BlockchainUtils.verify_user_chain.
  now rewrite H.
Qed.

Lemma other_users_chain_untouched_witness :
  1 <> 2 /\
  (let t' := fst (dashboard_post app_config [block1; block2] 2 form_b now_b) in
   user_chain t' 1 = user_chain [block1; block2] 1 /\
   verify_chain t' 1 = verify_chain [block1; block2] 1 /\
   BlockchainUtils.verify_user_chain t' 1
   = BlockchainUtils.verify_user_chain [block1; block2] 1).
Proof.
  assert (H : 1 <> 2) by discriminate.
  exact (conj H (other_users_chain_untouched app_config [block1; block2]
                   1 2 form_b now_b H)).
Defined.

(** A new row whose mining stopped below the ceiling passes its three
    checks as the successor of the row it was chained to. *)
Lemma new_session_passes cfg prev user date subject duration status now i :
  let s := new_session cfg prev user date subject duration status now in
  nonce s < MAX_NONCE cfg -> passes prev (with_id i s) = true.
Proof.
  intros s Hn.
  pose proof (new_session_verifies cfg prev user date subject duration
                status now i Hn) as V.
  apply (f_equal fst) in V. rewrite verify_sessions_verdict in V.
  cbn [all_pass fst] in V. rewrite andb_true_r in V.
  fold s in V. unfold passes in *.
  apply andb_prop in V as [V Vd]. apply andb_prop in V as [Vh _].
  rewrite Vh, Vd. cbn [andb]. rewrite andb_true_r.
  destruct prev as [p | ]; [ | reflexivity].
  subst s. rewrite new_session_fields. cbv zeta. cbn [with_id prev_hash].
  apply String.eqb_refl.
Qed.

(** A row prepared against a chained list of rows: what it is once it is
    stored. *)
Lemma post_row cfg (t : Table) (user : Z) (form : Form) (now : Py.datetime)
    (s : StudySession) :
  chained (filter_by_user_id user t) ->
  dashboard_prepare cfg t user form now = inl s ->
  let row := with_id (next_id t) s in
  filter_by_user_id user (t ++ [row])%list
  = (filter_by_user_id user t ++ [row])%list /\
  chained (filter_by_user_id user t ++ [row]) /\
  difficulty row = DIFFICULTY cfg /\
  (nonce row < MAX_NONCE cfg ->
   passes (last_seen None (filter_by_user_id user t)) row = true).
Proof.
  intros Hc Hprep row.
  destruct (post_extends_chain cfg t user form now s Hc Hprep) as [Hf Hc'].
  split; [exact Hf | ]. split; [exact Hc' | ].
  apply dashboard_prepare_inl in Hprep as (date & minutes & _ & _ & ->).
  split.
  - subst row. now rewrite new_session_fields.
  - intros Hn. rewrite <- (prev_session_of_numbered t user (proj1 Hc)).
    now apply new_session_passes.
Qed.

(** Requests served one after the other on a chained list of rows add as
    many rows as appends took place, each with the configured difficulty,
    and each passing its checks if its mining stopped below the ceiling. *)
Lemma posts_build_valid_chain cfg (user : Z)
    (requests : list (Form * Py.datetime)) :
  forall t,
    chained (filter_by_user_id user t) ->
    exists new,
      filter_by_user_id user (dashboard_posts cfg t user requests)
      = (filter_by_user_id user t ++ new)%list /\
      List.length new = appended cfg t user requests /\
      Forall (fun s => difficulty s = DIFFICULTY cfg) new /\
      (Forall (fun s => nonce s < MAX_NONCE cfg) new ->
       all_pass (last_seen None (filter_by_user_id user t)) new = true).
Proof.
  induction requests as [|[form now] rest IH]; intros t Hc.
  - exists []. cbn [dashboard_posts]. rewrite app_nil_r.
    repeat split; constructor.
  - cbn [dashboard_posts]. rewrite appended_cons.
    destruct (dashboard_post_cases cfg t user form now)
      as [(s & Hprep & _ & Hpost) | [Hfst Hnot]].
    + rewrite Hpost. cbn [fst snd is_mined].
      destruct (post_row cfg t user form now s Hc Hprep)
        as (Hf & Hc' & Hd & Hpass).
      rewrite <- Hf in Hc'.
      destruct (IH _ Hc') as (new & Hnew & Hlen & Hdiff & Hvalid).
      exists (with_id (next_id t) s :: new). rewrite Hnew, Hf, <- app_assoc.
      split; [reflexivity | ]. split; [cbn [List.length]; lia | ].
      split; [now constructor | ].
      intros Hall. apply Forall_cons_iff in Hall as [Hrow Hall].
      cbn [all_pass]. rewrite Hf, last_seen_snoc in Hvalid.
      now rewrite (Hvalid Hall), (Hpass Hrow).
    + rewrite Hfst, Hnot. exact (IH _ Hc).
Qed.

(** X13.  Appends served one after the other on a chain that starts empty
    build a chain that verifies, provided no mining reached the ceiling:
    whatever the requests, if every stored nonce is below [MAX_NONCE],
    [verify_chain] returns valid and the batch verifier reports no error.
    The message is "No blocks to verify" when no append took place. *)
Theorem sequential_appends_verify
    (cfg : Config) (t : Table) (user : Z)
    (requests : list (Form * Py.datetime)) :
  filter_by_user_id user t = [] ->
  let t' := dashboard_posts cfg t user requests in
  Forall (fun s => nonce s < MAX_NONCE cfg) (user_chain t' user) ->
  verify_chain t' user
  = (true, match appended cfg t user requests with
           | O => "No blocks to verify"
           | S _ => "Blockchain is valid"
           end) /\
  snd (BlockchainUtils.verify_user_chain t' user) = [].
Proof.
  intros Hempty t' Hnonce.
  assert (Hstart : chained (filter_by_user_id user t)).
  { rewrite Hempty. split; [reflexivity | exact I]. }
  destruct (posts_build_valid_chain cfg user requests t Hstart)
    as (new & Hnew & Hlen & _ & Hvalid).
  destruct (posts_extend_chain cfg user requests t Hstart)
    as [[Hnum _] _].
  fold t' in Hnew, Hnum.
  assert (Hchain : user_chain t' user = new).
  { unfold user_chain.
    rewrite (order_asc_sorted _ (numbered_sorted _ 1%nat Hnum)), Hnew.
    now rewrite Hempty. }
  rewrite Hempty in Hvalid. cbn [last_seen rev] in Hvalid.
  unfold verify_chain, BlockchainUtils.verify_user_chain.
  rewrite Hchain in *. specialize (Hvalid Hnonce).
  split.
  - rewrite <- Hlen. destruct new as [|s new']; [reflexivity | ].
    cbn [verify_sessions List.length]. now apply verify_loop_valid.
  - rewrite utils_verify_sessions_errors. now apply utils_verify_loop_nil.
Qed.

(** Four requests, the first with a duration that cannot be stored. *)
Lemma sequential_appends_verify_witness :
  filter_by_user_id 1 [] = [] /\
  appended app_config [] 1
    [(form_wide, now_wide); (form1, now1); (form2, now2); (form3, now3)]
  = 3%nat /\
  (let t' := dashboard_posts app_config [] 1
               [(form_wide, now_wide); (form1, now1); (form2, now2);
                (form3, now3)] in
   Forall (fun s => nonce s < MAX_NONCE app_config) (user_chain t' 1) /\
   (verify_chain t' 1
    = (true, match appended app_config [] 1
                     [(form_wide, now_wide); (form1, now1); (form2, now2);
                      (form3, now3)] with
             | O => "No blocks to verify"
             | S _ => "Blockchain is valid"
             end) /\
    snd (BlockchainUtils.verify_user_chain t' 1) = [])).
Proof.
  assert (H1 : filter_by_user_id 1 [] = []) by reflexivity.
  assert (H2 : appended app_config [] 1
                 [(form_wide, now_wide); (form1, now1); (form2, now2);
                  (form3, now3)] = 3%nat) by (vm_compute; reflexivity).
  assert (H3 : Forall (fun s => nonce s < MAX_NONCE app_config)
                 (user_chain (dashboard_posts app_config [] 1
                    [(form_wide, now_wide); (form1, now1); (form2, now2);
                     (form3, now3)]) 1)).
  { assert (E : user_chain (dashboard_posts app_config [] 1
                    [(form_wide, now_wide); (form1, now1); (form2, now2);
                     (form3, now3)]) 1
                  = [block1; block2; block3]) by (vm_compute; reflexivity).
    rewrite E. repeat (constructor; [reflexivity | ]). constructor. }
  exact (conj H1 (conj H2 (conj H3
           (sequential_appends_verify app_config [] 1
              [(form_wide, now_wide); (form1, now1); (form2, now2);
               (form3, now3)] H1 H3)))).
Defined.

End AppendMoreFacts.

(** ** Marking a session completed *)

Module UpdateStatusFacts.

Import Notions Diagnosis Py App Tamper StringFacts PyFacts VerifierFacts
       VerifierMoreFacts SerializationFacts TamperFacts Scenario.

Lemma update_status_complete (u : Z) (session_id : Z) (t : Table) :
  fst (update_status (Some u) session_id t)
  = match find (fun s => id s =? session_id) t with
    | Some s => if user_id s =? u then map (complete session_id) t else t
    | None => t
    end.
Proof.
  unfold update_status.
  destruct (find _ t) as [s | ]; [ | reflexivity].
  now destruct (user_id s =? u).
Qed.

Lemma complete_fields sid r :
  id (complete sid r) = id r /\ user_id (complete sid r) = user_id r /\
  block_number (complete sid r) = block_number r /\
  duration (complete sid r) = duration r.
Proof. unfold complete. now destruct (id r =? sid). Qed.

Lemma complete_twice sid r : complete sid (complete sid r) = complete sid r.
Proof.
  unfold complete. destruct (id r =? sid) eqn:E; [ | now rewrite E].
  cbn [with_status id]. now rewrite E.
Qed.

Lemma find_map_complete sid (t : Table) :
  find (fun s => id s =? sid) (map (complete sid) t)
  = option_map (complete sid) (find (fun s => id s =? sid) t).
Proof.
  induction t as [|r t IH]; [reflexivity | ]. cbn [map find].
  destruct (complete_fields sid r) as (-> & _).
  now destruct (id r =? sid).
Qed.

Lemma complete_rows sid (t : Table) :
  Forall2 (fun r r' => r' = r \/ (id r = sid /\ r' = with_status "completed" r))
          t (map (complete sid) t).
Proof.
  induction t as [|r t IH]; constructor; [ | assumption].
  unfold complete. destruct (Z.eqb_spec (id r) sid); [right | left]; tauto.
Qed.

Lemma unchanged_rows sid (t : Table) :
  Forall2 (fun r r' => r' = r \/ (id r = sid /\ r' = with_status "completed" r))
          t t.
Proof. induction t as [|r t IH]; constructor; [now left | assumption]. Qed.

(** X14.  [update_status] touches nothing but the status: whoever calls
    it, every row comes back either as it was or, if it carries the
    session id, with its status set to "completed" and all its other
    fields, hash fields included, as they were.  No row is added or
    removed, and calling it again changes nothing more. *)
Theorem update_status_only_sets_status
    (login : option Z) (session_id : Z) (t : Table) :
  let t' := fst (update_status login session_id t) in
  Forall2 (fun r r' =>
             r' = r \/
             (id r = session_id /\ r' = with_status "completed" r)) t t' /\
  fst (update_status login session_id t') = t'.
Proof.
  intros t'. subst t'. destruct login as [u | ].
  2:{ cbn [update_status fst]. split; [apply unchanged_rows | reflexivity]. }
  rewrite !update_status_complete.
  destruct (find (fun s => id s =? session_id) t) as [s | ] eqn:F.
  - destruct (user_id s =? u) eqn:U.
    + split; [apply complete_rows | ].
      rewrite find_map_complete, F. cbn [option_map].
      destruct (complete_fields session_id s) as (_ & -> & _). rewrite U.
      rewrite map_map. apply map_ext. intros r. apply complete_twice.
    + rewrite F, U. split; [apply unchanged_rows | reflexivity].
  - rewrite F. split; [apply unchanged_rows | reflexivity].
Qed.

Lemma filter_map_complete u sid (l : list StudySession) :
  filter_by_user_id u (map (complete sid) l)
  = map (complete sid) (filter_by_user_id u l).
Proof.
  unfold filter_by_user_id. induction l as [|r l IH]; [reflexivity | ].
  cbn [map filter]. destruct (complete_fields sid r) as (_ & -> & _).
  destruct (user_id r =? u); cbn [map]; now rewrite IH.
Qed.

Lemma insert_asc_complete sid x (l : list StudySession) :
  insert_asc (complete sid x) (map (complete sid) l)
  = map (complete sid) (insert_asc x l).
Proof.
  induction l as [|y l IH]; [reflexivity | ]. cbn [map insert_asc].
  destruct (complete_fields sid x) as (_ & _ & -> & _).
  destruct (complete_fields sid y) as (_ & _ & -> & _).
  destruct (block_number x <=? block_number y); cbn [map];
    [reflexivity | now rewrite IH].
Qed.

Lemma order_asc_complete sid (l : list StudySession) :
  order_by_block_number (map (complete sid) l)
  = map (complete sid) (order_by_block_number l).
Proof.
  induction l as [|x l IH]; [reflexivity | ].
  cbn [map order_by_block_number fold_right].
  fold (order_by_block_number (map (complete sid) l)).
  fold (order_by_block_number l).
  now rewrite IH, insert_asc_complete.
Qed.

Lemma insert_desc_complete sid x (l : list StudySession) :
  insert_desc (complete sid x) (map (complete sid) l)
  = map (complete sid) (insert_desc x l).
Proof.
  induction l as [|y l IH]; [reflexivity | ]. cbn [map insert_desc].
  destruct (complete_fields sid x) as (_ & _ & -> & _).
  destruct (complete_fields sid y) as (_ & _ & -> & _).
  destruct (block_number y <=? block_number x); cbn [map];
    [reflexivity | now rewrite IH].
Qed.

Lemma order_desc_complete sid (l : list StudySession) :
  order_by_block_number_desc (map (complete sid) l)
  = map (complete sid) (order_by_block_number_desc l).
Proof.
  induction l as [|x l IH]; [reflexivity | ].
  cbn [map order_by_block_number_desc fold_right].
  fold (order_by_block_number_desc (map (complete sid) l)).
  fold (order_by_block_number_desc l).
  now rewrite IH, insert_desc_complete.
Qed.

Lemma insert_asc_perm x (l : list StudySession) :
  Permutation (insert_asc x l) (x :: l).
Proof.
  induction l as [|y l IH]; [reflexivity | ]. cbn [insert_asc].
  destruct (block_number x <=? block_number y); [reflexivity | ].
  rewrite IH. apply perm_swap.
Qed.

Lemma order_asc_perm (l : list StudySession) :
  Permutation (order_by_block_number l) l.
Proof.
  induction l as [|x l IH]; [reflexivity | ].
  cbn [order_by_block_number fold_right]. fold (order_by_block_number l).
  rewrite insert_asc_perm. now constructor.
Qed.

Lemma insert_desc_perm x (l : list StudySession) :
  Permutation (insert_desc x l) (x :: l).
Proof.
  induction l as [|y l IH]; [reflexivity | ]. cbn [insert_desc].
  destruct (block_number y <=? block_number x); [reflexivity | ].
  rewrite IH. apply perm_swap.
Qed.

Lemma order_desc_perm (l : list StudySession) :
  Permutation (order_by_block_number_desc l) l.
Proof.
  induction l as [|x l IH]; [reflexivity | ].
  cbn [order_by_block_number_desc fold_right].
  fold (order_by_block_number_desc l).
  rewrite insert_desc_perm. now constructor.
Qed.

Lemma nodup_ids_filter u (t : Table) :
  NoDup (map id t) -> NoDup (map id (filter_by_user_id u t)).
Proof.
  unfold filter_by_user_id. induction t as [|r t IH]; intros H;
    [constructor | ].
  cbn [map] in H. apply NoDup_cons_iff in H as [Hr Ht].
  cbn [filter]. destruct (user_id r =? u); [ | now apply IH].
  cbn [map]. constructor; [ | now apply IH].
  intros Hin. apply Hr. apply in_map_iff in Hin as (x & Hx & Hin).
  apply filter_In in Hin as [Hin _]. apply in_map_iff. now exists x.
Qed.

(** In a list without repeated ids, completing a session changes the row
    that carries the id and no other. *)
Lemma map_complete_split sid (pre post : list StudySession) s :
  NoDup (map id (pre ++ s :: post)) -> id s = sid ->
  map (complete sid) (pre ++ s :: post)
  = (pre ++ with_status "completed" s :: post)%list.
Proof.
  intros Hnd Hs. rewrite map_app. cbn [map].
  rewrite map_app in Hnd. cbn [map] in Hnd.
  apply NoDup_remove_2 in Hnd.
  assert (Hid : forall l, ~ In sid (map id l) -> map (complete sid) l = l).
  { induction l as [|r l IH]; intros H; [reflexivity | ].
    cbn [map] in *. unfold complete at 1.
    destruct (Z.eqb_spec (id r) sid) as [E | E]; [exfalso; apply H; now left | ].
    f_equal. apply IH. intros Hin. apply H. now right. }
  rewrite Hs in Hnd.
  rewrite (Hid pre), (Hid post);
    try (intros Hin; apply Hnd; apply in_or_app; tauto).
  unfold complete. now rewrite Hs, Z.eqb_refl.
Qed.

(** The chain of a user after one of the user's own sessions is
    completed. *)
Lemma completed_chain (u sid : Z) (t : Table) (s : StudySession) :
  NoDup (map id t) ->
  find (fun r => id r =? sid) t = Some s -> user_id s = u ->
  exists pre post,
    user_chain t u = (pre ++ s :: post)%list /\
    user_chain (fst (update_status (Some u) sid t)) u
    = (pre ++ with_status "completed" s :: post)%list.
Proof.
  intros Hnd Hfind Hu.
  rewrite update_status_complete, Hfind, Hu, Z.eqb_refl.
  apply find_some in Hfind as [Hin Hid]. apply Z.eqb_eq in Hid.
  assert (Hchain : In s (user_chain t u)).
  { unfold user_chain.
    apply (Permutation_in _ (Permutation_sym (order_asc_perm _))).
    apply filter_In. split; [assumption | now apply Z.eqb_eq]. }
  apply in_split in Hchain as (pre & post & Hsplit).
  exists pre, post. split; [assumption | ].
  unfold user_chain in *.
  rewrite filter_map_complete, order_asc_complete, Hsplit.
  apply map_complete_split; [ | assumption].
  rewrite <- Hsplit.
  apply (Permutation_NoDup
           (Permutation_map id (Permutation_sym (order_asc_perm _)))).
  now apply nodup_ids_filter.
Qed.

(** X15.  Marking a session completed breaks the chain it is in.  On a
    table with distinct ids, if the chain of [u] verifies and [u] completes
    a session of theirs that was not completed yet, [verify_chain] then
    answers "invalid hash" for that block: the status is part of what was
    hashed and the route does not mine again.  (SHA-256 is taken not to
    collide on the block's serialization before and after.) *)
Theorem update_status_invalidates_chain
    (u session_id : Z) (t : Table) (s : StudySession) :
  NoDup (map id t) ->
  find (fun r => id r =? session_id) t = Some s ->
  user_id s = u ->
  status s <> "completed" ->
  fst (verify_chain t u) = true ->
  no_collision (session_block_data (with_status "completed" s))
               (session_block_data s) ->
  verify_chain (fst (update_status (Some u) session_id t)) u
  = (false, "Block " ++ str (block_number s) ++ " has invalid hash").
Proof.
  intros Hnd Hfind Hu Hstatus Hvalid Hsha.
  destruct (completed_chain u session_id t s Hnd Hfind Hu)
    as (pre & post & Hchain & Hchain').
  unfold verify_chain in *. rewrite Hchain' . rewrite Hchain in Hvalid.
  rewrite verify_sessions_verdict, all_pass_app in Hvalid.
  apply andb_prop in Hvalid as [Hpre Hb].
  apply all_pass_cons_inv in Hb as (Hhash & _).
  rewrite verify_sessions_app_cons, Hpre, verify_loop_turn.
  assert (F : first_failed (last_seen None pre) (with_status "completed" s)
              = Some HashCheck).
  { unfold first_failed.
    assert (E : (calculated_hash (with_status "completed" s)
                 =? hash (with_status "completed" s))%string = false).
    { apply String.eqb_neq. cbn [with_status hash]. rewrite <- Hhash.
      intros E.
      apply (update_changes_block_data (SetStatus "completed") s eq_refl).
      - cbn [apply_update]. intros C. apply Hstatus.
        now rewrite <- C.
      - apply Hsha. exact E. }
    now rewrite E. }
  now rewrite F.
Qed.

Lemma update_status_invalidates_chain_witness :
  NoDup (map id [block1; block2]) /\
  find (fun r => id r =? 2) [block1; block2] = Some block2 /\
  user_id block2 = 1 /\
  status block2 <> "completed" /\
  fst (verify_chain [block1; block2] 1) = true /\
  no_collision (session_block_data (with_status "completed" block2))
               (session_block_data block2) /\
  verify_chain (fst (update_status (Some 1) 2 [block1; block2])) 1
  = (false, "Block " ++ str (block_number block2) ++ " has invalid hash").
Proof.
  assert (H1 : NoDup (map id [block1; block2])).
  { repeat constructor; cbn; intuition discriminate. }
  assert (H2 : find (fun r => id r =? 2) [block1; block2] = Some block2)
    by reflexivity.
  assert (H3 : user_id block2 = 1) by reflexivity.
  assert (H4 : status block2 <> "completed") by (intros E; discriminate E).
  assert (H5 : fst (verify_chain [block1; block2] 1) = true)
    by (vm_compute; reflexivity).
  assert (H6 : no_collision
                 (session_block_data (with_status "completed" block2))
                 (session_block_data block2))
    by (intros E; vm_compute in E; discriminate E).
  exact (conj H1 (conj H2 (conj H3 (conj H4 (conj H5 (conj H6
           (update_status_invalidates_chain 1 2 [block1; block2] block2
              H1 H2 H3 H4 H5 H6))))))).
Defined.

(** X16.  On a table with distinct ids a user can complete only their own
    sessions: whatever session id [u] sends, the chain of every other
    user, and what the verifiers say about it, stay as they were. *)
Theorem update_status_spares_other_users
    (u v session_id : Z) (t : Table) :
  NoDup (map id t) -> v <> u ->
  let t' := fst (update_status (Some u) session_id t) in
  user_chain t' v = user_chain t v /\
  verify_chain t' v = verify_chain t v.
Proof.
  intros Hnd Hne t'.
  assert (H : user_chain t' v = user_chain t v).
  { subst t'. rewrite update_status_complete.
    destruct (find (fun r => id r =? session_id) t) as [s | ] eqn:F;
      [ | reflexivity].
    destruct (Z.eqb_spec (user_id s) u) as [Hu | ]; [ | reflexivity].
    unfold user_chain. rewrite filter_map_complete. f_equal.
    apply find_some in F as [Hin Hid]. apply Z.eqb_eq in Hid.
    assert (Hrows : forall r, In r (filter_by_user_id v t) ->
                              complete session_id r = r).
    { intros r Hr. apply filter_In in Hr as [Hr Hv]. apply Z.eqb_eq in Hv.
      unfold complete.
      destruct (Z.eqb_spec (id r) session_id) as [E | ]; [ | reflexivity].
      exfalso. apply Hne. rewrite <- Hv, <- Hu. f_equal.
      clear - Hnd Hin Hr E Hid. rewrite <- Hid in E.
      induction t as [|x t IH]; [contradiction | ].
      cbn [map] in Hnd. apply NoDup_cons_iff in Hnd as [Hx Ht].
      destruct Hin as [-> | Hin], Hr as [-> | Hr]; try reflexivity.
      - exfalso. apply Hx. rewrite <- E. now apply in_map.
      - exfalso. apply Hx. rewrite E. now apply in_map.
      - now apply IH. }
    rewrite <- (map_id (filter_by_user_id v t)) at 2.
    now apply map_ext_in. }
  unfold verify_chain. now rewrite H.
Qed.

Lemma update_status_spares_other_users_witness :
  NoDup (map id [block1; block2]) /\ 1 <> 2 /\
  (let t' := fst (update_status (Some 2) 1 [block1; block2]) in
   user_chain t' 1 = user_chain [block1; block2] 1 /\
   verify_chain t' 1 = verify_chain [block1; block2] 1).
Proof.
  assert (H1 : NoDup (map id [block1; block2])).
  { repeat constructor; cbn; intuition discriminate. }
  assert (H2 : 1 <> 2) by discriminate.
  exact (conj H1 (conj H2
           (update_status_spares_other_users 2 1 1 [block1; block2] H1 H2))).
Defined.

End UpdateStatusFacts.

(** ** The statistics of the dashboard *)

Module DashboardFacts.

Import Notions Diagnosis Py App Dashboard StringFacts UpdateStatusFacts
       Scenario.

Lemma count_le (p : StudySession -> bool) (l : list StudySession) :
  (List.length (filter p l) <= List.length l)%nat.
Proof.
  induction l as [|x l IH]; [reflexivity | ]. cbn [filter].
  destruct (p x); cbn [List.length]; lia.
Qed.

Lemma counts_split (l : list StudySession) :
  (List.length (filter (fun s => (status s =? "completed")%string) l)
   + List.length (filter (fun s => (status s =? "pending")%string) l)
   + List.length
       (filter (fun s => negb (status s =? "completed")%string
                         && negb (status s =? "pending")%string) l)
   = List.length l)%nat.
Proof.
  induction l as [|x l IH]; [reflexivity | ]. cbn [filter].
  destruct (String.eqb_spec (status x) "completed") as [E | E].
  - rewrite E. cbn [String.eqb Ascii.eqb Bool.eqb negb andb List.length].
    lia.
  - destruct (status x =? "pending")%string; cbn [negb andb List.length];
      lia.
Qed.

(** X17.  On the dashboard the completed and the pending sessions never
    add up to more than the total, and they add up to it exactly when
    every session's status is one of the two. *)
Theorem dashboard_counts (sessions : list StudySession) :
  completed_sessions sessions + pending_sessions sessions
  <= total_sessions sessions /\
  (completed_sessions sessions + pending_sessions sessions
   = total_sessions sessions
   <-> Forall (fun s => status s = "completed" \/ status s = "pending")
              sessions).
Proof.
  unfold completed_sessions, pending_sessions, total_sessions.
  pose proof (counts_split sessions) as C. split; [lia | ].
  set (other := filter _ sessions) in C at 3.
  assert (O : other = [] <->
              Forall (fun s => status s = "completed" \/ status s = "pending")
                     sessions).
  { subst other. clear C. induction sessions as [|x l IH].
    - split; [constructor | reflexivity].
    - cbn [filter].
      destruct (String.eqb_spec (status x) "completed") as [E | E];
        [ | destruct (String.eqb_spec (status x) "pending") as [E' | E']];
        cbn [negb andb].
      + rewrite IH. split; [intros H; constructor; tauto | ].
        intros H. now apply Forall_inv_tail in H.
      + rewrite IH. split; [intros H; constructor; tauto | ].
        intros H. now apply Forall_inv_tail in H.
      + split; [discriminate | ]. intros H. apply Forall_inv in H. tauto. }
  rewrite <- O. split.
  - intros H. destruct other; [reflexivity | cbn [List.length] in C; lia].
  - intros H. rewrite H in C. cbn [List.length] in C. lia.
Qed.

Lemma subject_counts_complete sid (l : list StudySession) :
  subject_counts (map (complete sid) l) = subject_counts l.
Proof.
  unfold subject_counts. generalize (@nil (string * Z)).
  induction l as [|x l IH]; intros d; [reflexivity | ].
  cbn [map fold_left]. rewrite IH.
  destruct (complete_fields sid x) as (_ & _ & _ & ->).
  assert (E : subject (complete sid x) = subject x)
    by (unfold complete; now destruct (id x =? sid)).
  now rewrite E.
Qed.

Lemma length_filter_app (p : StudySession -> bool) (a b : list StudySession) :
  List.length (filter p (a ++ b))
  = (List.length (filter p a) + List.length (filter p b))%nat.
Proof. now rewrite filter_app, length_app. Qed.

(** X18.  Completing a pending session moves one session from pending to
    completed on the owner's dashboard and changes nothing else there:
    the total, the study time and the favourite subject stay as they
    were.  (The table has distinct ids.) *)
Theorem update_status_on_dashboard
    (u session_id : Z) (t : Table) (s : StudySession) :
  NoDup (map id t) ->
  find (fun r => id r =? session_id) t = Some s ->
  user_id s = u ->
  status s = "pending" ->
  let before := sessions_of t u in
  let after := sessions_of (fst (update_status (Some u) session_id t)) u in
  completed_sessions after = completed_sessions before + 1 /\
  pending_sessions after = pending_sessions before - 1 /\
  total_sessions after = total_sessions before /\
  total_study_time after = total_study_time before /\
  favorite_subject after = favorite_subject before.
Proof.
  intros Hnd Hfind Hu Hst before after.
  assert (Hafter : after = map (complete session_id) before).
  { subst after before. unfold sessions_of.
    rewrite update_status_complete, Hfind, Hu, Z.eqb_refl.
    now rewrite filter_map_complete, order_desc_complete. }
  apply find_some in Hfind as [Hin Hid]. apply Z.eqb_eq in Hid.
  assert (Hmem : In s before).
  { subst before. unfold sessions_of.
    apply (Permutation_in _ (Permutation_sym (order_desc_perm _))).
    apply filter_In. split; [assumption | now apply Z.eqb_eq]. }
  apply in_split in Hmem as (pre & post & Hsplit).
  assert (Hnd' : NoDup (map id before)).
  { subst before. unfold sessions_of.
    apply (Permutation_NoDup
             (Permutation_map id (Permutation_sym (order_desc_perm _)))).
    now apply nodup_ids_filter. }
  rewrite Hsplit in Hnd'.
  pose proof (map_complete_split session_id pre post s Hnd' Hid) as Hmap.
  rewrite <- Hsplit in Hmap. rewrite <- Hafter in Hmap.
  split; [ | split; [ | split; [ | split]]].
  - unfold completed_sessions. rewrite Hmap, Hsplit, !length_filter_app.
    cbn [filter with_status status]. rewrite Hst.
    cbn [String.eqb Ascii.eqb Bool.eqb List.length]. lia.
  - unfold pending_sessions. rewrite Hmap, Hsplit, !length_filter_app.
    cbn [filter with_status status]. rewrite Hst.
    cbn [String.eqb Ascii.eqb Bool.eqb List.length]. lia.
  - unfold total_sessions. now rewrite Hafter, length_map.
  - unfold total_study_time. rewrite Hafter, map_map. f_equal.
    apply map_ext. intros r. now destruct (complete_fields session_id r)
      as (_ & _ & _ & ->).
  - unfold favorite_subject. now rewrite Hafter, subject_counts_complete.
Qed.

Lemma update_status_on_dashboard_witness :
  NoDup (map id [block1; block2]) /\
  find (fun r => id r =? 2) [block1; block2] = Some block2 /\
  user_id block2 = 1 /\
  status block2 = "pending" /\
  (let before := sessions_of [block1; block2] 1 in
   let after :=
     sessions_of (fst (update_status (Some 1) 2 [block1; block2])) 1 in
   completed_sessions after = completed_sessions before + 1 /\
   pending_sessions after = pending_sessions before - 1 /\
   total_sessions after = total_sessions before /\
   total_study_time after = total_study_time before /\
   favorite_subject after = favorite_subject before).
Proof.
  assert (H1 : NoDup (map id [block1; block2])).
  { repeat constructor; cbn; intuition discriminate. }
  assert (H2 : find (fun r => id r =? 2) [block1; block2] = Some block2)
    by reflexivity.
  assert (H3 : user_id block2 = 1) by reflexivity.
  assert (H4 : status block2 = "pending") by reflexivity.
  exact (conj H1 (conj H2 (conj H3 (conj H4
           (update_status_on_dashboard 1 2 [block1; block2] block2
              H1 H2 H3 H4))))).
Defined.

Lemma dict_get_set_same (d : dict) k v def :
  dict_get (dict_set d k v) k def = v.
Proof.
  induction d as [|[k' v'] d IH]; cbn [dict_set dict_get].
  - now rewrite String.eqb_refl.
  - destruct (k' =? k)%string eqn:E; cbn [dict_get]; now rewrite E.
Qed.

Lemma dict_get_set_other (d : dict) k v k0 def :
  k0 <> k -> dict_get (dict_set d k v) k0 def = dict_get d k0 def.
Proof.
  intros Hne. induction d as [|[k' v'] d IH]; cbn [dict_set dict_get].
  - destruct (String.eqb_spec k k0); [congruence | reflexivity].
  - destruct (String.eqb_spec k' k) as [-> | ]; cbn [dict_get].
    + destruct (String.eqb_spec k k0); [congruence | reflexivity].
    + now rewrite IH.
Qed.

Lemma keys_dict_set (d : dict) k v k0 :
  In k0 (map fst (dict_set d k v)) <-> k0 = k \/ In k0 (map fst d).
Proof.
  induction d as [|[k' v'] d IH]; cbn [dict_set map fst In].
  - intuition.
  - destruct (String.eqb_spec k' k) as [-> | ]; cbn [map fst In].
    + intuition.
    + rewrite IH. intuition.
Qed.

Lemma nodup_dict_set (d : dict) k v :
  NoDup (map fst d) -> NoDup (map fst (dict_set d k v)).
Proof.
  induction d as [|[k' v'] d IH]; cbn [dict_set map fst]; intros H.
  - constructor; [intros [] | constructor].
  - apply NoDup_cons_iff in H as [Hk Hd].
    destruct (String.eqb_spec k' k) as [-> | Hne]; cbn [map fst].
    + now constructor.
    + constructor; [ | now apply IH].
      rewrite keys_dict_set. intros [E | Hin]; [congruence | contradiction].
Qed.

Lemma dict_get_in (d : dict) k v def :
  NoDup (map fst d) -> In (k, v) d -> dict_get d k def = v.
Proof.
  induction d as [|[k' v'] d IH]; intros Hnd Hin; [contradiction | ].
  cbn [map fst] in Hnd. apply NoDup_cons_iff in Hnd as [Hk Hd].
  cbn [dict_get]. destruct Hin as [E | Hin].
  - injection E as -> ->. now rewrite String.eqb_refl.
  - destruct (String.eqb_spec k' k) as [-> | ]; [ | now apply IH].
    exfalso. apply Hk. apply in_map_iff. now exists (k, v).
Qed.

Lemma subject_total_snoc (l : list StudySession) s k :
  subject_total (l ++ [s]) k
  = subject_total l k + (if (subject s =? k)%string then duration s else 0).
Proof.
  induction l as [|x l IH]; cbn [app subject_total]; [lia | ].
  rewrite IH. lia.
Qed.

Lemma counts_step (d : dict) (l : list StudySession) s :
  counts_of d l ->
  counts_of (dict_set d (subject s) (dict_get d (subject s) 0 + duration s))
            (l ++ [s]).
Proof.
  intros (Hnd & Hkeys & Hget). split; [now apply nodup_dict_set | ]. split.
  - intros k. rewrite keys_dict_set, map_app, in_app_iff, Hkeys.
    cbn [map In]. intuition.
  - intros k. rewrite subject_total_snoc.
    destruct (String.eqb_spec (subject s) k) as [<- | Hne].
    + now rewrite dict_get_set_same, Hget.
    + rewrite dict_get_set_other by congruence. rewrite Hget. lia.
Qed.

Lemma counts_fold (rest : list StudySession) :
  forall d done,
    counts_of d done ->
    counts_of
      (fold_left
         (fun d s =>
            dict_set d (subject s) (dict_get d (subject s) 0 + duration s))
         rest d)
      (done ++ rest).
Proof.
  induction rest as [|s rest IH]; intros d done H; cbn [fold_left].
  - now rewrite app_nil_r.
  - change (done ++ s :: rest)%list with (done ++ [s] ++ rest)%list.
    rewrite app_assoc. apply IH. now apply counts_step.
Qed.

Lemma subject_counts_spec (l : list StudySession) :
  counts_of (subject_counts l) l.
Proof.
  apply (counts_fold l [] []). split; [constructor | ].
  split; [reflexivity | reflexivity].
Qed.

Lemma max_by_value_spec (items : dict) :
  forall best,
    (max_by_value best items = best \/ In (max_by_value best items) items) /\
    snd best <= snd (max_by_value best items) /\
    forall x, In x items -> snd x <= snd (max_by_value best items).
Proof.
  induction items as [|y items IH]; intros best; cbn [max_by_value].
  - split; [now left | ]. split; [lia | intros x []].
  - destruct (IH (if snd best <? snd y then y else best)) as (Hin & Hge & Hall).
    destruct (Z.ltb_spec (snd best) (snd y)).
    + split; [right; destruct Hin as [-> | Hin]; [now left | now right] | ].
      split; [lia | ]. intros x [<- | Hx]; [assumption | now apply Hall].
    + split; [destruct Hin as [-> | Hin]; [now left | right; now right] | ].
      split; [lia | ]. intros x [<- | Hx]; [lia | now apply Hall].
Qed.

(** X19.  The favourite subject shown on the dashboard is a subject the
    user has sessions for, and no subject of theirs has more minutes
    logged. *)
Theorem favorite_subject_is_most_studied (sessions : list StudySession) :
  sessions <> [] ->
  In (favorite_subject sessions) (map subject sessions) /\
  forall k, In k (map subject sessions) ->
    subject_total sessions k
    <= subject_total sessions (favorite_subject sessions).
Proof.
  intros Hne.
  destruct (subject_counts_spec sessions) as (Hnd & Hkeys & Hget).
  unfold favorite_subject.
  destruct (subject_counts sessions) as [|x rest] eqn:E.
  - exfalso. destruct sessions as [|s l]; [now apply Hne | ].
    apply (proj2 (Hkeys (subject s))). now left.
  - destruct (max_by_value_spec rest x) as (Hin & Hge & Hall).
    set (m := max_by_value x rest) in *.
    assert (Hm : In m (x :: rest))
      by (destruct Hin as [-> | Hin]; [now left | now right]).
    assert (Hmv : subject_total sessions (fst m) = snd m).
    { rewrite <- Hget. apply dict_get_in; [assumption | ]. now destruct m. }
    split.
    + apply Hkeys. now apply in_map.
    + intros k Hk. apply Hkeys in Hk.
      apply in_map_iff in Hk as ([k' v] & <- & Hk). cbn [fst].
      rewrite Hmv, <- Hget, (dict_get_in _ k' v 0 Hnd Hk).
      destruct Hk as [Hx | Hk]; [ | exact (Hall _ Hk)].
      rewrite Hx in Hge. exact Hge.
Qed.

Lemma favorite_subject_is_most_studied_witness :
  [block3; block2; block1] <> [] /\
  (In (favorite_subject [block3; block2; block1])
      (map subject [block3; block2; block1]) /\
   forall k, In k (map subject [block3; block2; block1]) ->
     subject_total [block3; block2; block1] k
     <= subject_total [block3; block2; block1]
          (favorite_subject [block3; block2; block1])).
Proof.
  assert (H : [block3; block2; block1] <> []) by discriminate.
  exact (conj H (favorite_subject_is_most_studied _ H)).
Defined.

End DashboardFacts.

(** ** Accounts *)

Module AccountFacts.

Import Py Accounts.

Lemma next_user_id_above (users : Users) (u : User) :
  In u users -> id u < next_user_id users.
Proof.
  unfold next_user_id. induction users as [|y l IH]; intros H;
    [contradiction | ].
  cbn [map fold_right]. destruct H as [-> | H]; [lia | ].
  specialize (IH H). lia.
Qed.

Lemma register_cases gen (users : Users) (form : RegisterForm) salt now :
  let r := register gen users form salt now in
  (fst r = users /\ snd r <> Registered) \/
  (exists a,
     reg_age form = Some a /\
     fst r = (users ++ [mkUser (next_user_id users) (reg_username form) a
                          (gen (reg_password form) salt) now])%list /\
     snd r = Registered /\
     3 <= len (reg_username form) /\ 1 <= a <= 150 /\
     6 <= len (reg_password form) /\
     reg_password form = reg_confirm_password form /\
     user_named users (reg_username form) = None).
Proof.
  intros r. subst r. unfold register.
  destruct (reg_age form) as [a | ]; [ | left; split; [reflexivity | discriminate]].
  destruct (String.eqb_spec (reg_username form) "");
    cbn [orb]; [left; split; [reflexivity | discriminate] | ].
  destruct (Z.ltb_spec (len (reg_username form)) 3);
    [left; split; [reflexivity | discriminate] | ].
  destruct (Z.ltb_spec a 1); cbn [orb];
    [left; split; [reflexivity | discriminate] | ].
  destruct (Z.ltb_spec 150 a);
    [left; split; [reflexivity | discriminate] | ].
  destruct (Z.ltb_spec (len (reg_password form)) 6);
    [left; split; [reflexivity | discriminate] | ].
  destruct (String.eqb_spec (reg_password form) (reg_confirm_password form));
    cbn [negb]; [ | left; split; [reflexivity | discriminate]].
  destruct (user_named users (reg_username form)) eqn:F;
    [left; split; [reflexivity | discriminate] | ].
  right. exists a. cbn [fst snd]. repeat split; try assumption; lia.
Qed.

(** X20.  [register] keeps the accounts in order: it adds at most one
    account, at the end, and leaves the others as they were; usernames
    and ids stay distinct, and every account has a username of at least
    three characters and an age from 1 to 150, if that was so before. *)
Theorem register_keeps_accounts_in_order
    (gen : string -> string -> string) (users : Users)
    (form : RegisterForm) (salt : string) (now : Py.datetime) :
  NoDup (map username users) -> NoDup (map id users) ->
  Forall well_formed users ->
  let users' := fst (register gen users form salt now) in
  (exists added,
     users' = (users ++ added)%list /\ (List.length added <= 1)%nat /\
     (added <> [] <-> snd (register gen users form salt now) = Registered)) /\
  NoDup (map username users') /\ NoDup (map id users') /\
  Forall well_formed users'.
Proof.
  intros Hnames Hids Hwf users'. subst users'.
  destruct (register_cases gen users form salt now)
    as [[-> Hno] | (a & _ & -> & -> & Hlen & Hage & _ & _ & Hfree)].
  - split; [ | now repeat split].
    exists []. rewrite app_nil_r. split; [reflexivity | ].
    split; [cbn; lia | ]. split; intros H; [now exfalso | contradiction].
  - split.
    + eexists. split; [reflexivity | ]. split; [cbn; lia | ].
      split; [reflexivity | discriminate].
    + rewrite !map_app. cbn [map username id]. repeat split.
      * apply (Permutation_NoDup (Permutation_cons_append _ _)).
        constructor; [ | assumption].
        intros Hin. apply in_map_iff in Hin as (u & Hu & Hin).
        unfold user_named in Hfree.
        apply (find_none _ _ Hfree) in Hin.
        apply String.eqb_neq in Hin. contradiction.
      * apply (Permutation_NoDup (Permutation_cons_append _ _)).
        constructor; [ | assumption].
        intros Hin. apply in_map_iff in Hin as (u & Hu & Hin).
        apply next_user_id_above in Hin. lia.
      * apply Forall_app. split; [assumption | ].
        constructor; [ | constructor]. split; assumption.
Qed.

Lemma register_keeps_accounts_in_order_witness :
  NoDup (map username [mkUser 1 "bob" 30 "hash" Scenario.now1]) /\
  NoDup (map id [mkUser 1 "bob" 30 "hash" Scenario.now1]) /\
  Forall well_formed [mkUser 1 "bob" 30 "hash" Scenario.now1] /\
  (let users' :=
     fst (register (fun p salt => salt ++ p)
            [mkUser 1 "bob" 30 "hash" Scenario.now1]
            (mkRegisterForm "alice" (Some 20) "secret1" "secret1") "s"
            Scenario.now2) in
   (exists added,
      users' = ([mkUser 1 "bob" 30 "hash" Scenario.now1] ++ added)%list /\
      (List.length added <= 1)%nat /\
      (added <> [] <->
       snd (register (fun p salt => salt ++ p)
              [mkUser 1 "bob" 30 "hash" Scenario.now1]
              (mkRegisterForm "alice" (Some 20) "secret1" "secret1") "s"
              Scenario.now2) = Registered)) /\
   NoDup (map username users') /\ NoDup (map id users') /\
   Forall well_formed users').
Proof.
  assert (H1 : NoDup (map username [mkUser 1 "bob" 30 "hash" Scenario.now1]))
    by (constructor; [intros [] | constructor]).
  assert (H2 : NoDup (map id [mkUser 1 "bob" 30 "hash" Scenario.now1]))
    by (constructor; [intros [] | constructor]).
  assert (H3 : Forall well_formed [mkUser 1 "bob" 30 "hash" Scenario.now1])
    by (constructor; [vm_compute; intuition discriminate | constructor]).
  exact (conj H1 (conj H2 (conj H3
           (register_keeps_accounts_in_order (fun p salt => salt ++ p)
              [mkUser 1 "bob" 30 "hash" Scenario.now1]
              (mkRegisterForm "alice" (Some 20) "secret1" "secret1") "s"
              Scenario.now2 H1 H2 H3)))).
Defined.

Lemma find_app_none {A} (f : A -> bool) (l l' : list A) :
  find f l = None -> find f (l ++ l') = find f l'.
Proof.
  induction l as [|x l IH]; [reflexivity | ]. cbn [find app].
  destruct (f x); [discriminate | exact IH].
Qed.

(** X21.  An account that [register] has just created can log in: with
    the password it was registered with, provided the library's check
    accepts the hash the library made of it, [login] opens a session for
    the new user id and username; with a password the check rejects it
    opens none. *)
Theorem register_then_login
    (gen : string -> string -> string) (check : string -> string -> bool)
    (users : Users) (form : RegisterForm) (salt : string)
    (now : Py.datetime) :
  snd (register gen users form salt now) = Registered ->
  check (gen (reg_password form) salt) (reg_password form) = true ->
  let users' := fst (register gen users form salt now) in
  login check users' (reg_username form) (reg_password form)
  = Some (next_user_id users, reg_username form) /\
  forall other,
    check (gen (reg_password form) salt) other = false ->
    login check users' (reg_username form) other = None.
Proof.
  intros Hreg Hcheck users'. subst users'.
  destruct (register_cases gen users form salt now)
    as [[_ Hno] | (a & _ & -> & _ & _ & _ & _ & _ & Hfree)];
    [contradiction | ].
  unfold login, user_named in *.
  rewrite (find_app_none _ _ _ Hfree). cbn [find username].
  rewrite String.eqb_refl. cbn [password id username].
  split; [now rewrite Hcheck | ]. intros other Hother. now rewrite Hother.
Qed.

Lemma register_then_login_witness :
  snd (register (fun p salt => salt ++ p) []
         (mkRegisterForm "alice" (Some 20) "secret1" "secret1") "s"
         Scenario.now1) = Registered /\
  (fun h p => String.eqb h ("s" ++ p)) ("s" ++ "secret1") "secret1" = true /\
  (let users' :=
     fst (register (fun p salt => salt ++ p) []
            (mkRegisterForm "alice" (Some 20) "secret1" "secret1") "s"
            Scenario.now1) in
   login (fun h p => String.eqb h ("s" ++ p)) users' "alice" "secret1"
   = Some (next_user_id [], "alice") /\
   forall other,
     (fun h p => String.eqb h ("s" ++ p)) ("s" ++ "secret1") other = false ->
     login (fun h p => String.eqb h ("s" ++ p)) users' "alice" other = None).
Proof.
  assert (H1 : snd (register (fun p salt => salt ++ p) []
                      (mkRegisterForm "alice" (Some 20) "secret1" "secret1")
                      "s" Scenario.now1) = Registered) by reflexivity.
  assert (H2 : (fun h p => String.eqb h ("s" ++ p)) ("s" ++ "secret1")
                 "secret1" = true) by reflexivity.
  exact (conj H1 (conj H2
           (register_then_login (fun p salt => salt ++ p)
              (fun h p => String.eqb h ("s" ++ p)) []
              (mkRegisterForm "alice" (Some 20) "secret1" "secret1") "s"
              Scenario.now1 H1 H2))).
Defined.

Lemma find_map_named (f : User -> User) (name : string) (users : Users) :
  (forall u, username (f u) = username u) ->
  user_named (map f users) name = option_map f (user_named users name).
Proof.
  intros Hf. unfold user_named.
  induction users as [|x l IH]; [reflexivity | ]. cbn [map find].
  rewrite Hf. now destruct (username x =? name)%string.
Qed.

(** X22.  [forget_password] asks for no proof of identity: for any
    existing username, a new password of at least six characters given
    twice replaces the stored one, and [login] then accepts the new
    password (provided the library's check accepts the hash the library
    made of it).  Ids, usernames, ages and creation times are untouched,
    and so is every account with another id. *)
Theorem forget_password_then_login
    (gen : string -> string -> string) (check : string -> string -> bool)
    (users : Users) (name new_password salt : string) (u : User) :
  user_named users name = Some u ->
  6 <= len new_password ->
  check (gen new_password salt) new_password = true ->
  let r := forget_password gen users name new_password new_password salt in
  snd r = PasswordReset /\
  login check (fst r) name new_password = Some (id u, username u) /\
  map (fun x => (id x, username x, age x, created_at x)) (fst r)
  = map (fun x => (id x, username x, age x, created_at x)) users /\
  forall x, In x users -> id x <> id u -> In x (fst r).
Proof.
  intros Hfind Hlen Hcheck r. subst r. unfold forget_password.
  rewrite Hfind. destruct (Z.ltb_spec (len new_password) 6); [lia | ].
  rewrite String.eqb_refl. cbn [negb fst snd].
  set (f := fun x => if id x =? id u
                     then with_password (gen new_password salt) x else x).
  assert (Hf : forall x, username (f x) = username x /\ id (f x) = id x /\
                         age (f x) = age x /\ created_at (f x) = created_at x).
  { intros x. unfold f. now destruct (id x =? id u). }
  split; [reflexivity | ]. split; [ | split].
  - unfold login. rewrite (find_map_named f name users (fun x => proj1 (Hf x))).
    rewrite Hfind. cbn [option_map]. unfold f at 1. rewrite Z.eqb_refl.
    cbn [with_password password]. rewrite Hcheck.
    destruct (Hf u) as (-> & -> & _). reflexivity.
  - rewrite map_map. apply map_ext. intros x.
    destruct (Hf x) as (-> & -> & -> & ->). reflexivity.
  - intros x Hin Hne. apply in_map_iff. exists x. split; [ | assumption].
    unfold f. destruct (Z.eqb_spec (id x) (id u)); [contradiction | reflexivity].
Qed.

Lemma forget_password_then_login_witness :
  user_named [mkUser 1 "alice" 20 "old" Scenario.now1] "alice"
  = Some (mkUser 1 "alice" 20 "old" Scenario.now1) /\
  6 <= len "secret2" /\
  (fun h p => String.eqb h ("s" ++ p)) ("s" ++ "secret2") "secret2" = true /\
  (let r := forget_password (fun p salt => salt ++ p)
              [mkUser 1 "alice" 20 "old" Scenario.now1] "alice" "secret2"
              "secret2" "s" in
   snd r = PasswordReset /\
   login (fun h p => String.eqb h ("s" ++ p)) (fst r) "alice" "secret2"
   = Some (id (mkUser 1 "alice" 20 "old" Scenario.now1),
           username (mkUser 1 "alice" 20 "old" Scenario.now1)) /\
   map (fun x => (id x, username x, age x, created_at x)) (fst r)
   = map (fun x => (id x, username x, age x, created_at x))
         [mkUser 1 "alice" 20 "old" Scenario.now1] /\
   forall x, In x [mkUser 1 "alice" 20 "old" Scenario.now1] ->
             id x <> id (mkUser 1 "alice" 20 "old" Scenario.now1) ->
             In x (fst r)).
Proof.
  assert (H1 : user_named [mkUser 1 "alice" 20 "old" Scenario.now1] "alice"
               = Some (mkUser 1 "alice" 20 "old" Scenario.now1))
    by reflexivity.
  assert (H2 : 6 <= len "secret2") by (vm_compute; discriminate).
  assert (H3 : (fun h p => String.eqb h ("s" ++ p)) ("s" ++ "secret2")
                 "secret2" = true) by reflexivity.
  exact (conj H1 (conj H2 (conj H3
           (forget_password_then_login (fun p salt => salt ++ p)
              (fun h p => String.eqb h ("s" ++ p))
              [mkUser 1 "alice" 20 "old" Scenario.now1] "alice" "secret2"
              "s" (mkUser 1 "alice" 20 "old" Scenario.now1) H1 H2 H3)))).
Defined.

End AccountFacts.

(** ** The reports of blockchain_utils.py *)

Module ReportFacts.

Import Notions Diagnosis Py App Dashboard Reports VerifierFacts
       SequencingFacts AppendFacts AppendMoreFacts UpdateStatusFacts
       DashboardFacts Scenario.

Lemma count_valid_shift (l : list (Accounts.User * (bool * string * list string)))
    (a : Z) :
  fold_left
    (fun valid_chains (r : Accounts.User * (bool * string * list string)) =>
       if fst (fst (snd r)) then valid_chains + 1 else valid_chains) l a
  = a + Z.of_nat (List.length (filter (fun r => fst (fst (snd r))) l)).
Proof.
  revert a. induction l as [|r l IH]; intros a; cbn [fold_left filter].
  - cbn. lia.
  - rewrite IH. destruct (fst (fst (snd r))); cbn [List.length]; lia.
Qed.

(** X23.  The summary of [verify_all_chains] counts exactly the users
    whose chain the fail-fast verifier of app.py accepts, users without
    blocks included; the count never exceeds the number of users, and
    equals it exactly when every user's chain verifies. *)
Theorem verify_all_chains_summary (users : Accounts.Users) (t : Table) :
  let '(valid_chains, total_users) := snd (verify_all_chains users t) in
  valid_chains
  = Z.of_nat (List.length
                (filter (fun u => fst (verify_chain t (Accounts.id u)))
                        users)) /\
  0 <= valid_chains <= total_users /\
  (valid_chains = total_users <->
   Forall (fun u => fst (verify_chain t (Accounts.id u)) = true) users).
Proof.
  unfold verify_all_chains. cbn [snd]. rewrite count_valid_shift.
  assert (E : forall l : Accounts.Users,
    List.length
      (filter (fun r : Accounts.User * (bool * string * list string) =>
                 fst (fst (snd r)))
         (map (fun user =>
                 (user, BlockchainUtils.verify_user_chain t (Accounts.id user)))
              l))
    = List.length
        (filter (fun u => fst (verify_chain t (Accounts.id u))) l)).
  { induction l as [|u l IH]; [reflexivity | ]. cbn [map filter snd].
    unfold BlockchainUtils.verify_user_chain at 1, verify_chain at 1.
    rewrite utils_verify_sessions_verdict, verify_sessions_verdict.
    destruct (all_pass None (user_chain t (Accounts.id u)));
      cbn [List.length]; now rewrite IH. }
  rewrite E. clear E. cbn [Z.add].
  assert (B : forall l : Accounts.Users,
    (List.length (filter (fun u => fst (verify_chain t (Accounts.id u))) l)
     <= List.length l)%nat /\
    (List.length (filter (fun u => fst (verify_chain t (Accounts.id u))) l)
     = List.length l
     <-> Forall (fun u => fst (verify_chain t (Accounts.id u)) = true) l)).
  { induction l as [|u l [IH1 IH2]]; [repeat split; constructor | ].
    cbn [filter]. destruct (fst (verify_chain t (Accounts.id u))) eqn:V;
      cbn [List.length].
    - split; [lia | ]. split.
      + intros H. constructor; [assumption | ]. apply IH2. lia.
      + intros H. apply Forall_inv_tail in H. apply IH2 in H. lia.
    - split; [lia | ]. split; [lia | ].
      intros H. apply Forall_inv in H. congruence. }
  destruct (B users) as [B1 B2]. split; [reflexivity | ]. split; [lia | ].
  rewrite <- B2. lia.
Qed.

Lemma length_filter_perm (p : StudySession -> bool)
    (l l' : list StudySession) :
  Permutation l l' -> List.length (filter p l) = List.length (filter p l').
Proof.
  induction 1 as [ | x l l' _ IH | x y l | l l' l'' _ IH1 _ IH2];
    cbn [filter].
  - reflexivity.
  - destruct (p x); cbn [List.length]; now rewrite IH.
  - destruct (p x), (p y); reflexivity.
  - now rewrite IH1.
Qed.

Lemma fold_add_shift (l : list Z) (a : Z) :
  fold_left Z.add l a = a + fold_left Z.add l 0.
Proof.
  revert a. induction l as [|x l IH]; intros a; cbn [fold_left]; [lia | ].
  rewrite (IH (a + x)), (IH (0 + x)). lia.
Qed.

Lemma total_study_time_perm (l l' : list StudySession) :
  Permutation l l' -> total_study_time l = total_study_time l'.
Proof.
  unfold total_study_time.
  induction 1 as [ | x l l' _ IH | x y l | l l' l'' _ IH1 _ IH2].
  - reflexivity.
  - cbn [map fold_left]. rewrite (fold_add_shift _ (0 + duration x)).
    rewrite (fold_add_shift (map duration l') (0 + duration x)).
    now rewrite IH.
  - cbn [map fold_left]. f_equal. lia.
  - now rewrite IH1.
Qed.

Lemma nodup_occurrences (l : list StudySession) :
  forall d : dict,
    NoDup (map fst d) ->
    NoDup (map fst
             (fold_left
                (fun d s =>
                   dict_set d (subject s) (dict_get d (subject s) 0 + 1))
                l d)).
Proof.
  induction l as [|s l IH]; intros d H; [exact H | ].
  cbn [fold_left]. apply IH. now apply nodup_dict_set.
Qed.

(** X24.  [show_statistics] and the dashboard agree: for a user who has
    blocks, the utility's block count, completed and pending counts and
    total time are the dashboard's, although the two fetch the rows in
    different orders; its chain status is the verdict of [verify_chain];
    and its list of subjects names no subject twice.  A user has no
    statistics exactly when they have no block. *)
Theorem statistics_agree_with_dashboard (t : Table) (user : Z) :
  match user_statistics t user with
  | Some st =>
      total_blocks st = total_sessions (sessions_of t user) /\
      completed st = completed_sessions (sessions_of t user) /\
      pending st = pending_sessions (sessions_of t user) /\
      total_time st = total_study_time (sessions_of t user) /\
      chain_status st = fst (verify_chain t user) /\
      NoDup (subjects st) /\
      filter_by_user_id user t <> []
  | None => filter_by_user_id user t = [] /\ sessions_of t user = []
  end.
Proof.
  unfold user_statistics, sessions_of.
  pose proof (order_desc_perm (filter_by_user_id user t)) as P.
  destruct (rev (filter_by_user_id user t)) as [|last r] eqn:E.
  - apply (f_equal (@rev _)) in E. rewrite rev_involutive in E. cbn in E.
    now rewrite E.
  - cbn [total_blocks completed pending total_time subjects chain_status].
    unfold total_sessions, completed_sessions, pending_sessions.
    rewrite (Permutation_length P), !(length_filter_perm _ _ _ P),
      (total_study_time_perm _ _ P).
    split; [reflexivity | ]. split; [reflexivity | ].
    split; [reflexivity | ]. split; [reflexivity | ].
    split; [ | split].
    + unfold BlockchainUtils.verify_user_chain, verify_chain.
      now rewrite utils_verify_sessions_verdict, verify_sessions_verdict.
    + apply nodup_occurrences. constructor.
    + intros H. rewrite H in E. discriminate E.
Qed.

(** X25.  After requests served one after the other on a chain that
    starts empty, of which at least one append took place,
    [show_statistics] shows as number of blocks and as latest block the
    number of appends that took place: the last row of the user is the
    newest block, numbered like the count. *)
Theorem statistics_after_appends
    (cfg : Config) (t : Table) (user : Z)
    (requests : list (Form * Py.datetime)) :
  filter_by_user_id user t = [] ->
  appended cfg t user requests <> 0%nat ->
  exists st,
    user_statistics (dashboard_posts cfg t user requests) user = Some st /\
    total_blocks st = Z.of_nat (appended cfg t user requests) /\
    latest_block st = Z.of_nat (appended cfg t user requests).
Proof.
  intros Hempty Hne.
  assert (Hstart : chained (filter_by_user_id user t)).
  { rewrite Hempty. split; [reflexivity | exact I]. }
  destruct (posts_extend_chain cfg user requests t Hstart)
    as [[Hnum _] Hlen].
  rewrite Hempty in Hlen. cbn [List.length Nat.add] in Hlen.
  unfold user_statistics.
  set (rows := filter_by_user_id user (dashboard_posts cfg t user requests))
    in *.
  destruct (rev rows) as [|last r] eqn:E.
  - apply (f_equal (@rev _)) in E. rewrite rev_involutive in E. cbn in E.
    rewrite E in Hlen. cbn [List.length] in Hlen. congruence.
  - eexists. split; [reflexivity | ].
    cbn [total_blocks latest_block]. split; [now rewrite Hlen | ].
    apply (f_equal (@rev _)) in E. rewrite rev_involutive in E.
    cbn [rev] in E. rewrite E in Hnum, Hlen.
    apply numbered_snoc in Hnum as [_ ->].
    rewrite length_app in Hlen. cbn [List.length] in Hlen. lia.
Qed.

Lemma statistics_after_appends_witness :
  filter_by_user_id 1 [] = [] /\
  appended app_config [] 1
    [(form_wide, now_wide); (form1, now1); (form2, now2)] <> 0%nat /\
  exists st,
    user_statistics
      (dashboard_posts app_config [] 1
         [(form_wide, now_wide); (form1, now1); (form2, now2)]) 1
    = Some st /\
    total_blocks st
    = Z.of_nat (appended app_config [] 1
                  [(form_wide, now_wide); (form1, now1); (form2, now2)]) /\
    latest_block st
    = Z.of_nat (appended app_config [] 1
                  [(form_wide, now_wide); (form1, now1); (form2, now2)]).
Proof.
  assert (H1 : filter_by_user_id 1 [] = []) by reflexivity.
  assert (H2 : appended app_config [] 1
                 [(form_wide, now_wide); (form1, now1); (form2, now2)]
               <> 0%nat).
  { assert (E : appended app_config [] 1
                  [(form_wide, now_wide); (form1, now1); (form2, now2)]
                = 2%nat) by (vm_compute; reflexivity).
    rewrite E. discriminate. }
  exact (conj H1 (conj H2
           (statistics_after_appends app_config [] 1
              [(form_wide, now_wide); (form1, now1); (form2, now2)] H1 H2))).
Defined.

(** X26.  Exporting a chain that was built from empty by requests served
    one after the other: for a known user the export counts as many blocks
    as appends took place, lists them numbered 1, 2, ... in order, each
    naming as [prev_hash] the [hash] listed just before it, gives as
    difficulty the configured one (0 when there is no block), and carries
    the verdict of [verify_chain]. *)
Theorem export_after_appends
    (cfg : Config) (users : Accounts.Users) (t : Table) (owner : Accounts.User)
    (requests : list (Form * Py.datetime)) (now : Py.datetime) :
  find (fun u => Accounts.id u =? Accounts.id owner) users = Some owner ->
  filter_by_user_id (Accounts.id owner) t = [] ->
  let t' := dashboard_posts cfg t (Accounts.id owner) requests in
  let n := appended cfg t (Accounts.id owner) requests in
  exists ex,
    export_blockchain users t' (Accounts.id owner) now = Some ex /\
    ex_username ex = Accounts.username owner /\
    ex_total_blocks ex = Z.of_nat n /\
    map d_block_number (ex_blocks ex) = map Z.of_nat (seq 1 n) /\
    (forall k p s,
       nth_error (ex_blocks ex) k = Some p ->
       nth_error (ex_blocks ex) (S k) = Some s ->
       d_prev_hash s = d_hash p) /\
    ex_difficulty ex = match n with O => 0 | S _ => DIFFICULTY cfg end /\
    ex_valid ex = fst (verify_chain t' (Accounts.id owner)).
Proof.
  intros Hfind Hempty t' n.
  set (user := Accounts.id owner) in *.
  assert (Hstart : chained (filter_by_user_id user t)).
  { rewrite Hempty. split; [reflexivity | exact I]. }
  destruct (posts_extend_chain cfg user requests t Hstart)
    as [[Hnum Hlink] Hlen].
  rewrite Hempty in Hlen. cbn [List.length Nat.add] in Hlen.
  destruct (posts_build_valid_chain cfg user requests t Hstart)
    as (new & Hnew & _ & Hdiff & _).
  rewrite Hempty in Hnew. cbn [app] in Hnew. rewrite <- Hnew in Hdiff.
  fold t' in Hnum, Hlink, Hlen, Hdiff. fold n in Hlen.
  assert (Hchain : user_chain t' user = filter_by_user_id user t').
  { unfold user_chain. apply order_asc_sorted.
    now apply (numbered_sorted _ 1%nat). }
  unfold export_blockchain. rewrite Hfind.
  assert (V : fst (fst (BlockchainUtils.verify_user_chain t' user))
              = fst (verify_chain t' user)).
  { unfold BlockchainUtils.verify_user_chain, verify_chain.
    now rewrite utils_verify_sessions_verdict, verify_sessions_verdict. }
  destruct (BlockchainUtils.verify_user_chain t' user) as [[valid msg] errs].
  cbn [fst] in V. eexists. split; [reflexivity | ].
  cbn [ex_username ex_total_blocks ex_blocks ex_difficulty ex_valid].
  rewrite Hchain. split; [reflexivity | ]. split; [now rewrite Hlen | ].
  split; [ | split; [ | split; [ | exact V]]].
  - rewrite map_map. cbn [to_dict d_block_number].
    unfold numbered_from in Hnum. now rewrite Hlen in Hnum.
  - intros k p s Hp Hs. rewrite nth_error_map in Hp, Hs.
    destruct (nth_error (filter_by_user_id user t') k) as [p' | ] eqn:Ep;
      [ | discriminate].
    destruct (nth_error (filter_by_user_id user t') (S k)) as [s' | ] eqn:Es;
      [ | discriminate].
    cbn [option_map] in Hp, Hs. injection Hp as <-. injection Hs as <-.
    cbn [to_dict d_prev_hash d_hash].
    exact (linked_nth _ sentinel k p' s' Hlink Ep Es).
  - rewrite <- Hlen.
    destruct (filter_by_user_id user t') as [|x l]; [reflexivity | ].
    now apply Forall_inv in Hdiff.
Qed.

Lemma export_after_appends_witness :
  find (fun u => Accounts.id u =? Accounts.id
                   (Accounts.mkUser 1 "alice" 20 "hash" now1))
       [Accounts.mkUser 1 "alice" 20 "hash" now1]
  = Some (Accounts.mkUser 1 "alice" 20 "hash" now1) /\
  filter_by_user_id (Accounts.id (Accounts.mkUser 1 "alice" 20 "hash" now1))
    [] = [] /\
  appended app_config []
    (Accounts.id (Accounts.mkUser 1 "alice" 20 "hash" now1))
    [(form_wide, now_wide); (form1, now1); (form2, now2)] = 2%nat /\
  (let t' := dashboard_posts app_config []
               (Accounts.id (Accounts.mkUser 1 "alice" 20 "hash" now1))
               [(form_wide, now_wide); (form1, now1); (form2, now2)] in
   let n := appended app_config []
              (Accounts.id (Accounts.mkUser 1 "alice" 20 "hash" now1))
              [(form_wide, now_wide); (form1, now1); (form2, now2)] in
   exists ex,
     export_blockchain [Accounts.mkUser 1 "alice" 20 "hash" now1] t'
       (Accounts.id (Accounts.mkUser 1 "alice" 20 "hash" now1)) now3
     = Some ex /\
     ex_username ex
     = Accounts.username (Accounts.mkUser 1 "alice" 20 "hash" now1) /\
     ex_total_blocks ex = Z.of_nat n /\
     map d_block_number (ex_blocks ex) = map Z.of_nat (seq 1 n) /\
     (forall k p s,
        nth_error (ex_blocks ex) k = Some p ->
        nth_error (ex_blocks ex) (S k) = Some s ->
        d_prev_hash s = d_hash p) /\
     ex_difficulty ex
     = match n with O => 0 | S _ => DIFFICULTY app_config end /\
     ex_valid ex
     = fst (verify_chain t'
              (Accounts.id (Accounts.mkUser 1 "alice" 20 "hash" now1)))).
Proof.
  assert (H1 : find (fun u => Accounts.id u =? Accounts.id
                                (Accounts.mkUser 1 "alice" 20 "hash" now1))
                 [Accounts.mkUser 1 "alice" 20 "hash" now1]
               = Some (Accounts.mkUser 1 "alice" 20 "hash" now1))
    by reflexivity.
  assert (H2 : filter_by_user_id
                 (Accounts.id (Accounts.mkUser 1 "alice" 20 "hash" now1)) []
               = []) by reflexivity.
  assert (H3 : appended app_config []
                 (Accounts.id (Accounts.mkUser 1 "alice" 20 "hash" now1))
                 [(form_wide, now_wide); (form1, now1); (form2, now2)]
               = 2%nat) by (vm_compute; reflexivity).
  exact (conj H1 (conj H2 (conj H3
           (export_after_appends app_config
              [Accounts.mkUser 1 "alice" 20 "hash" now1] []
              (Accounts.mkUser 1 "alice" 20 "hash" now1)
              [(form_wide, now_wide); (form1, now1); (form2, now2)] now3
              H1 H2)))).
Defined.

End ReportFacts.
